(** * Mesh loaders of capytaine ([capytaine/io/mesh_loaders.py])

    A shallow embedding of the loaders and of the dispatcher [load_mesh],
    with the properties of their specification.

    The Python runtime is modelled as far as the loaders use it: exceptions
    as an error monad, [str] methods on [string] (ASCII text: white space
    is the ASCII white space), [int()] on decimal tokens, numpy's 2-D
    arrays as lists of rows with their shape checks and their 64-bit
    integer wrap-around.  What the loaders only call (the [re] engine,
    [float()], the VTK and HDF5 readers, the row-merging helper of
    [capytaine.io.tools], the import of a library, the assertions of the
    constructor of [Mesh]) is the interface [Runtime]; a reference
    instance of it, with a backtracking matcher for the [re] fragment the
    loaders use and no library installed, runs the loaders on concrete
    files. *)

From Stdlib Require Import ZArith List String Ascii Lia Bool QArith.
From stdpp Require Import base option list strings gmap.

Local Open Scope Z_scope.

(** ** Exceptions and the error monad *)

(** The exception classes the loaders can raise.  [IOError] and
    [ImportError] carry their message, [KeyError] the missing key,
    [UnboundLocalError] the local variable read before assignment,
    [ModuleNotFoundError] (an [ImportError]) the module that is not
    installed. *)
Inductive exn : Type :=
| IOError (msg : string)
| AttributeError
| TypeError
| ValueError
| IndexError
| KeyError (key : string)
| UnboundLocalError (var : string)
| NotImplementedError
| OverflowError
| AssertionError
| ImportError (msg : string)
| ModuleNotFoundError (module : string).

Inductive result (A : Type) : Type :=
| Ok (a : A)
| Raise (e : exn).
Arguments Ok {A} a.
Arguments Raise {A} e.

Definition bind {A B : Type} (k : A -> result B) (c : result A) : result B :=
  match c with
  | Ok a => k a
  | Raise e => Raise e
  end.
#[global] Instance result_bind : MBind result := @bind.
#[global] Instance result_ret : MRet result := @Ok.

Definition of_option {A : Type} (e : exn) (o : option A) : result A :=
  match o with
  | Some a => Ok a
  | None => Raise e
  end.

(** [list(map(f, l))] for an [f] that may raise: stops at the first error. *)
Fixpoint mapM {A B : Type} (f : A -> result B) (l : list A) : result (list B) :=
  match l with
  | [] => Ok []
  | a :: l' => b ← f a; bs ← mapM f l'; Ok (b :: bs)
  end.

Definition is_ok {A : Type} (r : result A) : bool :=
  match r with Ok _ => true | Raise _ => false end.

(** ** Python strings *)

Definition LF : ascii := "010"%char.
Definition CR : ascii := "013"%char.
Definition DQUOTE : ascii := "034"%char.

(** [str.isspace] on ASCII: tab to carriage return, the four separators
    FS..US and the space. *)
Definition is_space (c : ascii) : bool :=
  let n := nat_of_ascii c in
  ((9 <=? n)%nat && (n <=? 13)%nat) || ((28 <=? n)%nat && (n <=? 32)%nat).

Definition rstring (acc : list ascii) : string := string_of_list_ascii (rev acc).

(** [s.split()]: the maximal runs of non-space characters. *)
Fixpoint split_ws_from (cur : list ascii) (s : string) : list string :=
  match s with
  | EmptyString => match cur with [] => [] | _ => [rstring cur] end
  | String c s' =>
      if is_space c
      then match cur with [] => split_ws_from [] s' | _ => rstring cur :: split_ws_from [] s' end
      else split_ws_from (c :: cur) s'
  end.
Definition split_ws (s : string) : list string := split_ws_from [] s.

(** [s.split(sep)] for a one-character separator: empty fields are kept. *)
Fixpoint split_on_from (sep : ascii) (cur : list ascii) (s : string) : list string :=
  match s with
  | EmptyString => [rstring cur]
  | String c s' =>
      if Ascii.eqb c sep then rstring cur :: split_on_from sep [] s'
      else split_on_from sep (c :: cur) s'
  end.
Definition split_on (sep : ascii) (s : string) : list string := split_on_from sep [] s.

(** [re.split(r'[, ]', s)]: a split at every comma and every space. *)
Fixpoint split_comma_space_from (cur : list ascii) (s : string) : list string :=
  match s with
  | EmptyString => [rstring cur]
  | String c s' =>
      if Ascii.eqb c ","%char || Ascii.eqb c " "%char
      then rstring cur :: split_comma_space_from [] s'
      else split_comma_space_from (c :: cur) s'
  end.
Definition split_comma_space (s : string) : list string := split_comma_space_from [] s.

Fixpoint lstrip_by (p : ascii -> bool) (s : string) : string :=
  match s with
  | EmptyString => EmptyString
  | String c s' => if p c then lstrip_by p s' else s
  end.
Definition strip_by (p : ascii -> bool) (s : string) : string :=
  let l := list_ascii_of_string (lstrip_by p s) in
  string_of_list_ascii (rev (list_ascii_of_string
    (lstrip_by p (string_of_list_ascii (rev l))))).
(** [s.strip()] and [s.strip('.')]. *)
Definition strip (s : string) : string := strip_by is_space s.
Definition strip_dots (s : string) : string := strip_by (Ascii.eqb "."%char) s.

(** The lines of a text, each with its line feed: what successive
    [readline()] calls return. *)
Fixpoint lines_from (cur : list ascii) (s : string) : list string :=
  match s with
  | EmptyString => match cur with [] => [] | _ => [rstring cur] end
  | String c s' =>
      if Ascii.eqb c LF then rstring (c :: cur) :: lines_from [] s'
      else lines_from (c :: cur) s'
  end.

(** An open text file: the lines not read yet. *)
Definition file := list string.
Definition open_lines (data : string) : file := lines_from [] data.
(** [ifile.readline()]: the empty string at the end of the file. *)
Definition readline (f : file) : string * file :=
  match f with
  | [] => (EmptyString, [])
  | l :: f' => (l, f')
  end.

(** ** [int()] *)

Definition digit_of (c : ascii) : option Z :=
  let n := nat_of_ascii c in
  if (48 <=? n)%nat && (n <=? 57)%nat then Some (Z.of_nat n - 48) else None.

(** Digits with single underscores between them, as [int()] accepts. *)
Fixpoint int_digits (acc : Z) (after_digit : bool) (s : string) : option Z :=
  match s with
  | EmptyString => if after_digit then Some acc else None
  | String c s' =>
      match digit_of c with
      | Some d => int_digits (10 * acc + d) true s'
      | None =>
          if Ascii.eqb c "_"%char && after_digit
          then match s' with
               | EmptyString => None
               | String c' _ => match digit_of c' with
                                | Some _ => int_digits acc false s'
                                | None => None
                                end
               end
          else None
      end
  end.

(** [int(s)] on an ASCII string: surrounding white space, an optional
    sign, decimal digits. *)
Definition int_of_string (s : string) : option Z :=
  match strip s with
  | String "-" s' => Z.opp <$> int_digits 0 false s'
  | String "+" s' => int_digits 0 false s'
  | s' => int_digits 0 false s'
  end.
Definition py_int (s : string) : result Z := of_option ValueError (int_of_string s).

(** ** Python lists *)

(** [l[i]] on a list, negative indices counting from the end. *)
Definition list_index {A : Type} (l : list A) (i : Z) : result A :=
  let n := Z.of_nat (length l) in
  if (0 <=? i) && (i <? n) then of_option IndexError (l !! Z.to_nat i)
  else if (- n <=? i) && (i <? 0) then of_option IndexError (l !! Z.to_nat (n + i))
  else Raise IndexError.

(** [l[k:]] for a non-negative constant [k], and [l[-k:]]. *)
Definition slice_from {A : Type} (k : nat) (l : list A) : list A := drop k l.
Definition slice_last {A : Type} (k : nat) (l : list A) : list A :=
  drop (length l - k)%nat l.

(** [max(l)] on integers: [ValueError] on the empty list. *)
Definition py_max (l : list Z) : result Z :=
  match l with
  | [] => Raise ValueError
  | x :: l' => Ok (fold_left Z.max l' x)
  end.

(** ** numpy arrays

    A 2-D array is the list of its rows, all of one length; the empty list
    is the 1-D [array([])] that [np.array([])] builds.  Integer arrays hold
    64-bit integers ([np.int] is the C long of the platform). *)

Definition int64_min : Z := - 2 ^ 63.
Definition int64_max : Z := 2 ^ 63 - 1.
Definition in_int64 (z : Z) : bool := (int64_min <=? z) && (z <=? int64_max).
(** Arithmetic on integer arrays wraps around. *)
Definition wrap64 (z : Z) : Z := (z + 2 ^ 63) mod 2 ^ 64 - 2 ^ 63.

Definition width {A : Type} (a : list (list A)) : nat :=
  match a with
  | [] => 0%nat
  | r :: _ => length r
  end.

Definition uniform {A : Type} (rows : list (list A)) : bool :=
  forallb (fun r => Nat.eqb (length r) (width rows)) rows.

(** [np.array(rows, dtype=np.float)] on a list of lists of floats: ragged
    rows are refused. *)
Definition np_array {A : Type} (rows : list (list A)) : result (list (list A)) :=
  if uniform rows then Ok rows else Raise ValueError.

(** [np.array(rows, dtype=np.int)] on a list of lists of Python integers:
    one that does not fit 64 bits is refused. *)
Definition np_array_int (rows : list (list Z)) : result (list (list Z)) :=
  a ← np_array rows;
  if forallb (forallb in_int64) a then Ok a else Raise OverflowError.

(** [a - 1] and [a + k] on an integer array. *)
Definition np_sub1 (a : list (list Z)) : list (list Z) :=
  map (map (fun x => wrap64 (x - 1))) a.
Definition np_add (a : list (list Z)) (k : Z) : list (list Z) :=
  map (map (fun x => wrap64 (x + k))) a.

(** Consecutive chunks of [c] elements; [fuel] bounds the number of rows. *)
Fixpoint chunks {A : Type} (fuel c : nat) (l : list A) : list (list A) :=
  match fuel with
  | O => []
  | S fuel' => take c l :: chunks fuel' c (drop c l)
  end.

(** [a.reshape((r, c))] on a flat array, [-1] standing for the dimension
    to infer. *)
Definition np_reshape {A : Type} (l : list A) (r c : Z) : result (list (list A)) :=
  let n := Z.of_nat (length l) in
  if (0 <=? r) && (0 <=? c) then
    if r * c =? n then Ok (chunks (Z.to_nat r) (Z.to_nat c) l) else Raise ValueError
  else if (r =? -1) && (0 <? c) then
    if n mod c =? 0 then Ok (chunks (Z.to_nat (n / c)) (Z.to_nat c) l) else Raise ValueError
  else if (c =? -1) && (0 <? r) then
    if n mod r =? 0 then Ok (chunks (Z.to_nat r) (Z.to_nat (n / r)) l) else Raise ValueError
  else Raise ValueError.

(** [a.T] for a 2-D array of [c] columns. *)
Fixpoint transpose {A : Type} (c : nat) (a : list (list A)) : list (list A) :=
  match c with
  | O => []
  | S c' => omap head a :: transpose c' (map (drop 1) a)
  end.

(** [np.concatenate((a, b))] along the rows: the arrays must have the same
    number of dimensions and the same row length. *)
Definition np_concatenate {A : Type} (a b : list (list A)) : result (list (list A)) :=
  match a, b with
  | [], [] => Ok []
  | [], _ :: _ | _ :: _, [] => Raise ValueError
  | _ :: _, _ :: _ => if Nat.eqb (width a) (width b) then Ok (a ++ b) else Raise ValueError
  end.

(** The index of row [i] of an [n]-row array: negative indices count from
    the end. *)
Definition np_index (n : nat) (i : Z) : result nat :=
  let m := Z.of_nat n in
  if (0 <=? i) && (i <? m) then Ok (Z.to_nat i)
  else if (- m <=? i) && (i <? 0) then Ok (Z.to_nat (m + i))
  else Raise IndexError.

(** Broadcasting a 1-D value to a row of [w] entries. *)
Definition broadcast_row {A : Type} (w : nat) (v : list A) : result (list A) :=
  if Nat.eqb (length v) w then Ok v
  else match v with
       | [x] => Ok (replicate w x)
       | _ => Raise ValueError
       end.

(** [a[i, :] = v] for an integer [i] and a 2-D value [v]: the row is looked
    up first, then [v] must broadcast to one row (its leading dimension
    must be 1). *)
Definition np_set_row {A : Type} (a : list (list A)) (i : Z) (v : list (list A))
  : result (list (list A)) :=
  k ← np_index (length a) i;
  match v with
  | [r] => row ← broadcast_row (width a) r; Ok (<[k := row]> a)
  | _ => Raise ValueError
  end.

(** [id_new[ids]] for a list of integer indices. *)
Definition np_take (a : list Z) (ids : list Z) : result (list Z) :=
  mapM (fun i => k ← np_index (length a) i; of_option IndexError (a !! k)) ids.

(** [np.zeros((n, c))]: a negative dimension, or more bytes than an index
    can count, is refused. *)
Definition np_zeros {A : Type} (zero : A) (n : Z) (c : nat) : result (list (list A)) :=
  if n <? 0 then Raise ValueError
  else if int64_max <? n * Z.of_nat c * 8 then Raise ValueError
  else Ok (replicate (Z.to_nat n) (replicate c zero)).

(** ** The objects a loader returns *)

Inductive Plane : Type := xOz_Plane | yOz_Plane | xOy_Plane.

Section Meshes.
  Context {coord : Type}.

  (** Modelled from the spec: the class [Mesh] is not under src/.  A
      value of it holds what the constructor was given, [Mesh(vertices,
      faces, name)] (spec, 6: [construct(vertices, faces, name?)]); the
      constructor is [new_Mesh] below. *)
Record Mesh : Type := mkMesh {
    vertices : list (list coord);
    faces : list (list Z);
    name : option string
  }.

Inductive loaded : Type :=
  | PlainMesh (m : Mesh)
    (** [ReflectionSymmetricMesh(half_mesh, plane=..., name=...)] *)
  | ReflectionSymmetricMesh (half_mesh : Mesh) (plane : Plane) (name : option string)
    (** the bare [(vertices, faces)] pair of [_dump_vtk] *)
  | Arrays (vertices : list (list coord)) (faces : list (list Z)).

Definition loaded_vertices (r : loaded) : list (list coord) :=
    match r with
    | PlainMesh m | ReflectionSymmetricMesh m _ _ => vertices m
    | Arrays v _ => v
    end.
Definition loaded_faces (r : loaded) : list (list Z) :=
    match r with
    | PlainMesh m | ReflectionSymmetricMesh m _ _ => faces m
    | Arrays _ f => f
    end.
End Meshes.
Arguments Mesh : clear implicits.
Arguments loaded : clear implicits.

(** ** The interface to the libraries the loaders call *)

(** A match object: [group(0)] and [groups()]. *)
Record re_match : Type := mkMatch { group0 : string; groups : list string }.
Record re_flags : Type := mkFlags { MULTILINE : bool; DOTALL : bool }.
Definition NOFLAG : re_flags := mkFlags false false.
Definition RE_MULTILINE : re_flags := mkFlags true false.
Definition RE_DOTALL : re_flags := mkFlags false true.

(** What a VTK reader holds after [Update()]: the points, and the point
    ids of each cell. *)
Record vtk_data (coord : Type) : Type := mkVtk {
  vtk_points : list (list coord);
  vtk_cells : list (list Z)
}.
Arguments mkVtk {coord}.
Arguments vtk_points {coord}.
Arguments vtk_cells {coord}.

Inductive vtk_reader : Type :=
| vtkXMLUnstructuredGridReader | vtkXMLPolyDataReader | vtkPolyDataReader
| vtkSTLReader | vtkVRMLImporter.

(** A dataset of an HDF5 file, flattened. *)
Inductive h5_dataset (coord : Type) : Type :=
| h5_floats (l : list coord)
| h5_ints (l : list Z).
Arguments h5_floats {coord}.
Arguments h5_ints {coord}.

Class Runtime : Type := {
  coord : Type;
  (** [float(s)] *)
  float_of_string : string -> option coord;
  fadd : coord -> coord -> coord;
  (** [0.0] *)
  fzero : coord;
  (** [re.compile(pattern, flags).finditer(s)] *)
  re_finditer : string -> re_flags -> string -> list re_match;
  (** a VTK reader run on the contents of a file *)
  vtk_read : vtk_reader -> string -> vtk_data coord;
  (** [merge_duplicate_rows(vertices, return_index=True)] of
      [capytaine.io.tools] *)
  merge_duplicate_rows : list (list coord) -> list (list coord) * list Z;
  (** [h5py.File(filename)]: the names [visit] enumerates, each with its
      dataset *)
  h5py_File : string -> list (string * h5_dataset coord);
  (** whether an [import] of the module finds it *)
  importable : string -> bool;
  (** Modelled from the spec: the class [Mesh] of [capytaine.meshes] is not
      under src/.  The spec (3, Data model) gives the invariants of its
      tables: a face is a 4-tuple of vertex indices, and every face index
      references a row of the vertex table.  What the constructor runs
      before it holds the arrays is a parameter, [Mesh_asserts]; what is
      known of it is that it refuses a face table with a row that has not
      four entries, or with an index that is not below the number of
      vertices. *)
  Mesh_asserts : list (list coord) -> list (list Z) -> result unit;
  Mesh_asserts_faces :
    forall vertices faces,
      Mesh_asserts vertices faces = Ok tt ->
      Forall (fun row => length row = 4%nat
                         /\ Forall (fun i => i < Z.of_nat (length vertices)) row)
             faces
}.

(** ** The file system *)

(** The regular files of the disk, each with its text as [read()] returns
    it; [None] for a path that is no regular file. *)
Definition filesystem : Type := string -> option string.

(** [for i in range(n): s = body(i, s)]. *)
Fixpoint for_range_from {S : Type} (i n : nat) (body : nat -> S -> result S) (s : S)
  : result S :=
  match n with
  | O => Ok s
  | S n' => s' ← body i s; for_range_from (Datatypes.S i) n' body s'
  end.
Definition for_range {S : Type} (n : nat) (body : nat -> S -> result S) (s : S)
  : result S := for_range_from 0 n body s.

(** [os.path.splitext], [os.path.dirname] and [os.path.join] (posix). *)
Fixpoint rfind_from (c : ascii) (i last : Z) (s : string) : Z :=
  match s with
  | EmptyString => last
  | String x s' => rfind_from c (i + 1) (if Ascii.eqb x c then i else last) s'
  end.
Definition rfind (c : ascii) (s : string) : Z := rfind_from c 0 (-1) s.

Definition str_take (n : Z) (s : string) : string :=
  string_of_list_ascii (take (Z.to_nat n) (list_ascii_of_string s)).
Definition str_drop (n : Z) (s : string) : string :=
  string_of_list_ascii (drop (Z.to_nat n) (list_ascii_of_string s)).

Definition splitext (p : string) : string * string :=
  let sepIndex := rfind "/"%char p in
  let dotIndex := rfind "."%char p in
  if (sepIndex <? dotIndex)
     && existsb (fun x => negb (Ascii.eqb x "."%char))
          (list_ascii_of_string (str_drop (sepIndex + 1) (str_take dotIndex p)))
  then (str_take dotIndex p, str_drop dotIndex p)
  else (p, EmptyString).

Definition rstrip_by (p : ascii -> bool) (s : string) : string :=
  string_of_list_ascii (rev (list_ascii_of_string
    (lstrip_by p (string_of_list_ascii (rev (list_ascii_of_string s)))))).

Definition dirname (p : string) : string :=
  let head := str_take (rfind "/"%char p + 1) p in
  if forallb (Ascii.eqb "/"%char) (list_ascii_of_string head) then head
  else rstrip_by (Ascii.eqb "/"%char) head.

Definition ends_with (c : ascii) (s : string) : bool :=
  match rev (list_ascii_of_string s) with
  | x :: _ => Ascii.eqb x c
  | [] => false
  end.

Definition path_join (a b : string) : string :=
  match b with
  | String "/" _ => b
  | _ => if String.eqb a EmptyString || ends_with "/"%char a then a +:+ b
         else a +:+ "/" +:+ b
  end.

(** [needle in s]. *)
Fixpoint contains (needle s : string) : bool :=
  String.prefix needle s ||
  match s with
  | EmptyString => false
  | String _ s' => contains needle s'
  end.

(** * The loaders *)

Section Loaders.
  Context `{RT : Runtime}.

Definition py_float (s : string) : result coord :=
    of_option ValueError (float_of_string s).

  (** Modelled from the spec: [Mesh(vertices, faces, name)].  The
      constructor runs its assertions ([Mesh_asserts], a parameter of the
      runtime), then holds the arrays. *)
Definition new_Mesh (vertices : list (list coord)) (faces : list (list Z))
             (name : option string) : result (Mesh coord) :=
    _ ← Mesh_asserts vertices faces;
    Ok (mkMesh vertices faces name).

  (** [import module], [from module import ...]. *)
Definition import_module (module : string) : result unit :=
    if importable module then Ok tt else Raise (ModuleNotFoundError module).

  (** [_check_file]: [os.path.isfile] or an [IOError]. *)
Definition _check_file (fs : filesystem) (filename : string) : result unit :=
    match fs filename with
    | Some _ => Ok tt
    | None => Raise (IOError ("file " +:+ filename +:+ " not found"))
    end.

  (** [open(filename, 'r').read()]. *)
Definition read_file (fs : filesystem) (filename : string) : result string :=
    of_option (IOError ("No such file or directory: " +:+ filename)) (fs filename).

  (** [pattern.search(s)], [pattern.findall(s)] and the groups of a match.
      No pattern the loaders give to [findall] has more than one group: it
      returns the group when there is one, the whole match otherwise. *)
Definition re_search (pattern : string) (flags : re_flags) (s : string)
    : option re_match := head (re_finditer pattern flags s).
Definition re_findall (pattern : string) (flags : re_flags) (s : string)
    : list string :=
    map (fun m => match groups m with [] => group0 m | g :: _ => g end)
        (re_finditer pattern flags s).
  (** [m.group(1)] and [m.groups()] where [m] may be [None]. *)
Definition group1 (m : option re_match) : result string :=
    match m with
    | None => Raise AttributeError
    | Some m => of_option IndexError (groups m !! 0%nat)
    end.
Definition groups_of (m : option re_match) : result (list string) :=
    match m with
    | None => Raise AttributeError
    | Some m => Ok (groups m)
    end.

  (** [n] times [rows.append(list(map(conv, ifile.readline().split())))]. *)
Fixpoint read_rows {A : Type} (conv : string -> result A) (n : nat) (f : file)
    : result (list (list A) * file) :=
    match n with
    | O => Ok ([], f)
    | S n' =>
        let '(line, f) := readline f in
        row ← mapM conv (split_ws line);
        '(rows, f) ← read_rows conv n' f;
        Ok (row :: rows, f)
    end.

  (** *** Natural format *)

Definition load_NAT (fs : filesystem) (filename : string) (name : option string)
    : result (loaded coord) :=
    _ ← _check_file fs filename;
    data ← read_file fs filename;
    let ifile := open_lines data in
    let '(_, ifile) := readline ifile in
    let '(line, ifile) := readline ifile in
    counts ← mapM py_int (split_ws line);
    match counts with
    | [nv; nf] =>
        '(vertices, ifile) ← read_rows py_float (Z.to_nat nv) ifile;
        vertices ← np_array vertices;
        '(faces, ifile) ← read_rows py_int (Z.to_nat nf) ifile;
        faces ← np_array_int faces;
        m ← new_Mesh vertices (np_sub1 faces) name;
        Ok (PlainMesh m)
    | _ => Raise ValueError
    end.

  (** *** The format of the Mesh tool of Nemoh *)

Definition load_NEM (fs : filesystem) (filename : string) (name : option string)
    : result (loaded coord) :=
    _ ← _check_file fs filename;
    data ← read_file fs filename;
    let ifile := open_lines data in
    let '(line, ifile) := readline ifile in
    nv ← py_int line;
    let '(line, ifile) := readline ifile in
    nf ← py_int line;
    '(vertices, ifile) ← read_rows py_float (Z.to_nat nv) ifile;
    vertices ← np_array vertices;
    '(faces, ifile) ← read_rows py_int (Z.to_nat nf) ifile;
    faces ← np_array_int faces;
    m ← new_Mesh vertices (np_sub1 faces) name;
    Ok (PlainMesh m).

  (** *** WAMIT GDF *)

  (** [vertices[iv, :] = np.array(line.split())]: the tokens are converted
      to floats and broadcast to the three columns. *)
Definition GDF_corner (line : string) : result (list coord) :=
    match split_ws line with
    | [] => Raise ValueError
    | tokens => v ← mapM py_float tokens; broadcast_row 3 v
    end.

  (** [a[i, :] = row] and [a[i, k] = x] inside the array. *)
Definition set_row {A : Type} (a : list (list A)) (i : Z) (row : list A)
    : result (list (list A)) :=
    k ← np_index (length a) i; Ok (<[k := row]> a).
Definition set_entry {A : Type} (a : list (list A)) (i : nat) (k : nat) (x : A)
    : result (list (list A)) :=
    row ← of_option IndexError (a !! i);
    if (k <? length row)%nat then Ok (<[i := <[k := x]> row]> a) else Raise IndexError.

Definition GDF_state : Type := Z * list (list coord) * list (list Z) * file.

  (** The body of [for k in range(4)]. *)
Definition GDF_body (icell k : nat) (st : GDF_state) : result GDF_state :=
    let '(iv, vertices, faces, ifile) := st in
    let iv := iv + 1 in
    let '(line, ifile) := readline ifile in
    row ← GDF_corner line;
    vertices ← set_row vertices iv row;
    faces ← set_entry faces icell k iv;
    Ok (iv, vertices, faces, ifile).

Definition load_GDF (fs : filesystem) (filename : string) (name : option string)
    : result (loaded coord) :=
    _ ← _check_file fs filename;
    data ← read_file fs filename;
    let ifile := open_lines data in
    let '(_, ifile) := readline ifile in
    let '(line, ifile) := readline ifile in
    let line := split_ws line in
    ulen ← list_index line 0;
    grav ← list_index line 1;
    let '(line, ifile) := readline ifile in
    let line := split_ws line in
    isx ← list_index line 0;
    isy ← list_index line 1;
    let '(line, ifile) := readline ifile in
    let line := split_ws line in
    nf ← (t ← list_index line 0; py_int t);
    vertices ← np_zeros fzero (4 * nf) 3;
    faces ← np_zeros 0 nf 4;
    '(_, vertices, faces, _) ←
      for_range (Z.to_nat nf) (fun icell st => for_range 4 (GDF_body icell) st)
                (-1, vertices, faces, ifile);
    m ← new_Mesh vertices faces name;
    Ok (PlainMesh m).

  (** *** Nemoh *)

  (** One [while 1] loop of [load_MAR]: rows are read up to the line whose
      first token is [0]; at the end of the file [readline()] returns the
      empty string and [line[0]] raises. *)
Fixpoint MAR_block {A : Type} (conv : list string -> result (list A)) (ifile : file)
    : result (list (list A) * file) :=
    match ifile with
    | [] => Raise IndexError
    | line :: ifile =>
        match split_ws line with
        | [] => Raise IndexError
        | t :: ts =>
            if String.eqb t "0" then Ok ([], ifile)
            else row ← conv (t :: ts);
                 '(rows, ifile) ← MAR_block conv ifile;
                 Ok (row :: rows, ifile)
        end
    end.

Definition load_MAR (fs : filesystem) (filename : string) (name : option string)
    : result (loaded coord) :=
    _ ← _check_file fs filename;
    data ← read_file fs filename;
    let ifile := open_lines data in
    let '(header, ifile) := readline ifile in
    match split_ws header with
    | [_; symmetric_mesh] =>
        '(vertices, ifile) ← MAR_block (fun line => mapM py_float (slice_from 1 line)) ifile;
        vertices ← np_array vertices;
        '(faces, ifile) ← MAR_block (mapM py_int) ifile;
        faces ← np_array_int faces;
        flag ← py_int symmetric_mesh;
        if flag =? 1 then
          match name with
          | None =>
              half_mesh ← new_Mesh vertices (np_sub1 faces) None;
              Ok (ReflectionSymmetricMesh half_mesh xOz_Plane None)
          | Some n =>
              half_mesh ← new_Mesh vertices (np_sub1 faces) (Some ("half_of_" +:+ n));
              Ok (ReflectionSymmetricMesh half_mesh xOz_Plane (Some n))
          end
        else m ← new_Mesh vertices (np_sub1 faces) name; Ok (PlainMesh m)
    | _ => Raise ValueError
    end.

End Loaders.

(** Regex for floats. *)
Definition real_str : string := "[+-]?(?:\d+\.\d*|\d*\.\d+)(?:[Ee][+-]?\d+)?".

(** [np.asarray(l, dtype=np.int)] on a flat list of Python integers. *)
Definition np_array1_int (l : list Z) : result (list Z) :=
  if forallb in_int64 l then Ok l else Raise OverflowError.

Section SectionLoaders.
  Context `{RT : Runtime}.

  (** *** RADIOSS *)

Definition RAD_node_line : string :=
    "\s*\d+\s*(" +:+ real_str +:+ ")\s*(" +:+ real_str +:+ ")\s*(" +:+ real_str +:+ ")".
Definition RAD_node_section : string := "((?:" +:+ RAD_node_line +:+ ")+)".
Definition RAD_elem_line : string := "^\s*(?:\d+\s+){6}\d+\s*[\r\n]+".
Definition RAD_elem_section : string := "((?:" +:+ RAD_elem_line +:+ "){3,})".

Definition load_RAD (fs : filesystem) (filename : string) (name : option string)
    : result (loaded coord) :=
    _ ← _check_file fs filename;
    data ← read_file fs filename;
    node_section ← group1 (re_search RAD_node_section RE_MULTILINE data);
    vertices ← mapM (fun node => mapM py_float (groups node))
                    (re_finditer RAD_node_line RE_MULTILINE node_section);
    vertices ← np_array vertices;
    elem_section ← group1 (re_search RAD_elem_section RE_MULTILINE data);
    faces ← mapM (fun elem => mapM py_int (slice_from 3 (split_ws (strip elem))))
                 (re_findall RAD_elem_line RE_MULTILINE elem_section);
    faces ← np_array_int faces;
    m ← new_Mesh vertices (np_sub1 faces) name;
    Ok (PlainMesh m).

  (** *** HydroSTAR *)

Definition HST_node_line : string := "\s*\d+(?:\s+" +:+ real_str +:+ "){3}".
Definition HST_node_section : string := "((?:" +:+ HST_node_line +:+ ")+)".
Definition HST_elem_line : string := "^\s*(?:\d+\s+){3}\d+\s*[\r\n]+".
Definition HST_elem_section : string := "((?:" +:+ HST_elem_line +:+ ")+)".

  (** The variables of one section loop of [load_HST]: the rows gathered in
      [vertices_tmp] (resp. [faces_tmp]), whether that variable is still a
      Python list or already an array, the table (unset as long as it is
      the initial empty list) and the row count. *)
Record HST_state (A : Type) : Type := mkHST {
    hst_tmp : list (list A);
    hst_tmp_is_array : bool;
    hst_table : option (list (list A));
    hst_n : Z
  }.
  Arguments mkHST {A}.
  Arguments hst_tmp {A}.
  Arguments hst_tmp_is_array {A}.
  Arguments hst_table {A}.
  Arguments hst_n {A}.

  (** [tmp.append(list(map(conv, tokens)))]: an array has no [append]. *)
Definition HST_append {A : Type} (conv : string -> result A) (tokens : list string)
             (st : HST_state A) : result (HST_state A) :=
    if hst_tmp_is_array st then Raise AttributeError
    else row ← mapM conv tokens;
         Ok (mkHST (hst_tmp st ++ [row]) false (hst_table st) (hst_n st)).

Fixpoint HST_lines {A : Type} (conv : string -> result A) (tokens : string -> list string)
           (lines : list string) (st : HST_state A) : result (HST_state A) :=
    match lines with
    | [] => Ok st
    | line :: lines => st ← HST_append conv (tokens line) st; HST_lines conv tokens lines st
    end.

  (** The body of the loop over the sections. *)
Definition HST_section {A : Type} (conv : string -> result A)
             (tokens : string -> list string)
             (as_array : list (list A) -> result (list (list A)))
             (line_pattern : string) (section : string) (st : HST_state A)
    : result (HST_state A) :=
    st ← HST_lines conv tokens (re_findall line_pattern RE_MULTILINE section) st;
    let n_tmp := Z.of_nat (length (hst_tmp st)) in
    tmp ← (if hst_tmp_is_array st then Ok (hst_tmp st) else as_array (hst_tmp st));
    if hst_n st =? 0 then Ok (mkHST tmp true (Some tmp) n_tmp)
    else table ← np_concatenate (default [] (hst_table st)) tmp;
         Ok (mkHST tmp true (Some table) (hst_n st + n_tmp)).

Fixpoint HST_sections {A : Type} (conv : string -> result A)
           (tokens : string -> list string)
           (as_array : list (list A) -> result (list (list A)))
           (line_pattern : string) (sections : list string) (st : HST_state A)
    : result (HST_state A) :=
    match sections with
    | [] => Ok st
    | s :: sections =>
        st ← HST_section conv tokens as_array line_pattern s st;
        HST_sections conv tokens as_array line_pattern sections st
    end.

Definition load_HST (fs : filesystem) (filename : string) (name : option string)
    : result (loaded coord) :=
    _ ← _check_file fs filename;
    data ← read_file fs filename;
    v ← HST_sections py_float (fun node => slice_from 1 (split_ws node)) np_array
          HST_node_line (re_findall HST_node_section RE_MULTILINE data)
          (mkHST [] false None 0);
    f ← HST_sections py_int split_ws np_array_int
          HST_elem_line (re_findall HST_elem_section RE_MULTILINE data)
          (mkHST [] false None 0);
    (** [vertices] may still be the empty list; [faces-1] on a list raises *)
    let vertices := default [] (hst_table v) in
    match hst_table f with
    | None => Raise TypeError
    | Some faces => m ← new_Mesh vertices (np_sub1 faces) name; Ok (PlainMesh m)
    end.

  (** *** TECPLOT *)

Definition TEC_data_pattern : string :=
    "ZONE.*\s*N\s*=\s*(\d+)\s*,\s*E=\s*(\d+)\s*,\s*F\s*=\s*FEPOINT\s*,\s*ET\s*=\s*QUADRILATERAL\s+"
    +:+ "(^(?:\s*" +:+ real_str +:+ "){3,})\s+"
    +:+ "(^(?:\s*\d+)*)".

Definition load_TEC (fs : filesystem) (filename : string) (name : option string)
    : result (loaded coord) :=
    _ ← _check_file fs filename;
    data ← read_file fs filename;
    g ← groups_of (re_search TEC_data_pattern RE_MULTILINE data);
    match g with
    | [nv; nf; vertices; faces] =>
        nv ← py_int nv;
        nf ← py_int nf;
        vertices ← mapM py_float (split_ws vertices);
        vertices ← np_reshape vertices nv (-1);
        let vertices := map (take 3) vertices in
        faces ← mapM py_int (split_ws faces);
        faces ← np_array1_int faces;
        faces ← np_reshape faces nf 4;
        m ← new_Mesh vertices (np_sub1 faces) name;
        Ok (PlainMesh m)
    | _ => Raise ValueError
    end.

  (** *** GMSH *)

Definition MSH_nodes : string := "\$Nodes\n(\d+)\n(.+)\$EndNodes".
Definition MSH_elements : string := "\$Elements\n(\d+)\n(.+)\$EndElements".
Definition MSH_triangle : string := "(^\d+\s2(?:\s\d+)+?$)".
Definition MSH_quadrangle : string := "(^\d+\s3(?:\s\d+)+?$)".

Definition MSH_tri (tri_elt : string) : result (list Z) :=
    tri_elt ← mapM py_int (split_ws tri_elt);
    let triangle := slice_last 3 tri_elt in
    first ← list_index triangle 0;
    Ok (triangle ++ [first]).

Definition MSH_quad (quad_elt : string) : result (list Z) :=
    quad_elt ← mapM py_int (split_ws quad_elt);
    Ok (slice_last 4 quad_elt).

Definition load_MSH (fs : filesystem) (filename : string) (name : option string)
    : result (loaded coord) :=
    _ ← _check_file fs filename;
    data ← read_file fs filename;
    g ← groups_of (re_search MSH_nodes RE_DOTALL data);
    match g with
    | [nb_nodes; nodes_data] =>
        g ← groups_of (re_search MSH_elements RE_DOTALL data);
        match g with
        | [nb_elts; elts_data] =>
            vertices ← mapM py_float (split_ws nodes_data);
            vertices ← np_reshape vertices (-1) 4;
            let vertices := map (drop 1) vertices in
            triangles ← mapM MSH_tri (re_findall MSH_triangle RE_MULTILINE elts_data);
            quadrangles ← mapM MSH_quad (re_findall MSH_quadrangle RE_MULTILINE elts_data);
            faces ← np_array_int (triangles ++ quadrangles);
            m ← new_Mesh vertices (np_sub1 faces) name;
            Ok (PlainMesh m)
        | _ => Raise ValueError
        end
    | _ => Raise ValueError
    end.

End SectionLoaders.
Arguments mkHST {A}.
Arguments hst_tmp {A}.
Arguments hst_tmp_is_array {A}.
Arguments hst_table {A}.
Arguments hst_n {A}.

(** ** Python dictionaries whose order matters

    [mesh_files] of [load_INP] is read in insertion order: an association
    list, a new key going to the end. *)
Fixpoint dict_get {V : Type} (k : string) (d : list (string * V)) : option V :=
  match d with
  | [] => None
  | (k', v) :: d' => if String.eqb k k' then Some v else dict_get k d'
  end.
Fixpoint dict_set {V : Type} (k : string) (v : V) (d : list (string * V))
  : list (string * V) :=
  match d with
  | [] => [(k, v)]
  | (k', v') :: d' => if String.eqb k k' then (k, v) :: d' else (k', v') :: dict_set k v d'
  end.

(** [m.group(i)] for [i >= 1]. *)
Definition group (m : re_match) (i : nat) : result string :=
  of_option IndexError (groups m !! pred i).

Section Diodore.
  Context `{RT : Runtime}.

  (** *** DIODORE: the [.INP] configuration and its [.DAT] files *)

Definition load_DAT (fs : filesystem) (filename : string) (name : option string)
    : result (loaded coord) :=
    _ ← _check_file fs filename;
    Raise NotImplementedError.

Definition INP_frame : string := "^\s*\*FRAME,NAME=(.+)[\r\n]+(.*)".
Definition INP_node_elements : string := "^\s*\*(NODE|ELEMENT),(.*)".
Definition INP_node_line : string := "\s*\d+(?:\s+" +:+ real_str +:+ "){3}".
Definition INP_node_section : string := "((?:" +:+ INP_node_line +:+ ")+)".
Definition INP_elem_line : string := "^ +\d+(?: +\d+){3,4}[\r\n]+".
Definition INP_elem_section : string := "((?:" +:+ INP_elem_line +:+ ")+)".

  (** The loop over the [*FRAME] directives. *)
Fixpoint INP_frames (matches : list re_match) (frames : gmap string (list coord))
    : result (gmap string (list coord)) :=
    match matches with
    | [] => Ok frames
    | m :: matches =>
        g1 ← group m 1;
        let frame_name := strip g1 in
        g2 ← group m 2;
        let frame_vector := split_comma_space (strip g2) in
        v ← mapM py_float frame_vector;
        INP_frames matches (<[frame_name := v]> frames)
    end.

  (** [for opt in opts: key, value = opt.split('='); field_dict[key] = value.strip()]
      ([value] is the source's [pair]) *)
Fixpoint INP_options (opts : list string) (field_dict : gmap string string)
    : result (gmap string string) :=
    match opts with
    | [] => Ok field_dict
    | opt :: opts =>
        match split_on "="%char opt with
        | [key; value] => INP_options opts (<[key := strip value]> field_dict)
        | _ => Raise ValueError
        end
    end.

  (** The counters [NODE_CALL_INP] and [ELEMENT_CALL_INP] of a data file. *)
Record INP_calls : Type := mkCalls { NODE_CALL_INP : Z; ELEMENT_CALL_INP : Z }.

  (** [calls[type + '_CALL_INP'] += 1] *)
Definition INP_count (type : string) (c : INP_calls) : result INP_calls :=
    if String.eqb type "NODE" then Ok (mkCalls (NODE_CALL_INP c + 1) (ELEMENT_CALL_INP c))
    else if String.eqb type "ELEMENT" then Ok (mkCalls (NODE_CALL_INP c) (ELEMENT_CALL_INP c + 1))
    else Raise (KeyError (type +:+ "_CALL_INP")).

  (** The loop over the [*NODE] and [*ELEMENT] directives: the layout and
      the data files they name. *)
Fixpoint INP_layout (matches : list re_match) (layout : list (gmap string string))
           (mesh_files : list (string * INP_calls))
    : result (list (gmap string string) * list (string * INP_calls)) :=
    match matches with
    | [] => Ok (layout, mesh_files)
    | m :: matches =>
        type ← group m 1;
        let field_dict : gmap string string := {[ "type" := type ]} in
        let field_dict :=
          if String.eqb type "NODE" then <["INCREMENT" := "NO"]> field_dict else field_dict in
        g2 ← group m 2;
        field_dict ← INP_options (split_on ","%char g2) field_dict;
        file ← of_option (KeyError "INPUT") (field_dict !! "INPUT");
        type ← of_option (KeyError "type") (field_dict !! "type");
        calls ← INP_count type (default (mkCalls 0 0) (dict_get file mesh_files));
        INP_layout matches (layout ++ [field_dict]) (dict_set file calls mesh_files)
    end.

  (** What [mesh_files[file]] holds once the data file is read. *)
Record mesh_file : Type := mkMeshFile {
    CALLS : INP_calls;
    NODE_SECTION : list (list coord);
    ELEM_SECTIONS : list (list (list Z));
    nb_elem_sections : Z;
    nb_elem_sections_used : Z
  }.

  (** One node line: its number and its coordinates. *)
Definition INP_node (node : string) : result (Z * list coord) :=
    let node := split_ws node in
    n0 ← list_index node 0;
    n0 ← py_int n0;
    xyz ← mapM py_float (slice_from 1 node);
    Ok (n0, xyz).

  (** [for i, idx in enumerate(idx_array): id_new[idx] = i+1] *)
Fixpoint INP_renumber (i : Z) (idx_array : list Z) (id_new : list Z) : result (list Z) :=
    match idx_array with
    | [] => Ok id_new
    | idx :: idx_array =>
        k ← np_index (length id_new) idx;
        INP_renumber (i + 1) idx_array (<[k := i + 1]> id_new)
    end.

  (** One element line: the node numbers after the element number, through
      [id_new]; a triangle repeats its first node at the last position. *)
Definition INP_elem (id_new : list Z) (elem : string) : result (list Z) :=
    elem ← mapM py_int (split_ws elem);
    elem ← np_take id_new (slice_from 1 elem);
    Ok (if Nat.eqb (length elem) 3 then elem ++ take 1 elem else elem).

Definition several_node_sections : string :=
    "Several NODE sections into a .DAT file is not supported by meshmagick"
    +:+ String LF "                              as it is considered as bad practice".

  (** The body of [for file in mesh_files]: the record of the file, and the
      value the loop leaves in the variable [idx]. *)
Definition INP_read (fs : filesystem) (filename : string) (file : string)
             (calls : INP_calls) : result (mesh_file * Z) :=
    data ← of_option (IOError ("File " +:+ file +:+ ".DAT not found"))
             (fs (path_join (dirname filename) (file +:+ ".DAT")));
    let node_section := re_findall INP_node_section RE_MULTILINE data in
    if (1 <? length node_section)%nat then Raise (IOError several_node_sections)
    else
      section0 ← list_index node_section 0;
      nodes ← mapM INP_node (re_findall INP_node_line RE_MULTILINE section0);
      let idx_array := map fst nodes in
      let node_array := map snd nodes in
      top ← py_max idx_array;
      idx ← list_index idx_array (-1);
      id_new ← (if top + 1 <? 0 then Raise ValueError
                else Ok (replicate (Z.to_nat (top + 1)) (-1)));
      id_new ← INP_renumber 0 idx_array id_new;
      sections ← mapM (fun elem_section =>
                         mapM (INP_elem id_new)
                              (re_findall INP_elem_line RE_MULTILINE elem_section))
                      (re_findall INP_elem_section RE_MULTILINE data);
      Ok (mkMeshFile calls node_array sections (Z.of_nat (length sections)) 0, idx).

Fixpoint INP_read_all (fs : filesystem) (filename : string)
           (todo : list (string * INP_calls)) (idx : option Z)
    : result (list (string * mesh_file) * option Z) :=
    match todo with
    | [] => Ok ([], idx)
    | (file, calls) :: todo =>
        '(mf, idx) ← INP_read fs filename file calls;
        '(rest, idx) ← INP_read_all fs filename todo (Some idx);
        Ok ((file, mf) :: rest, idx)
    end.

  (** The local variables of the replay loop; [None] for one that is not
      assigned yet. *)
Record INP_state : Type := mkINP {
    inp_vertices : option (list (list coord));
    inp_faces : option (list (list Z));
    inp_increment : option bool;
    nb_nodes : Z;
    nb_elems : Z;
    inp_files : list (string * mesh_file)
  }.

Definition local {A : Type} (var : string) (v : option A) : result A :=
    of_option (UnboundLocalError var) v.

  (** [nodes += v] for a 1-D [v]. *)
Definition np_iadd (nodes : list (list coord)) (v : list coord)
    : result (list (list coord)) :=
    if Nat.eqb (length v) (width nodes) then Ok (map (fun row => zip_with fadd row v) nodes)
    else match v with
         | [x] => Ok (map (map (fun y => fadd y x)) nodes)
         | _ => Raise ValueError
         end.

  (** The body of [for field in layout]. *)
Definition INP_replay (frames : gmap string (list coord)) (idx : option Z)
             (field : gmap string string) (st : INP_state) : result INP_state :=
    file ← of_option (KeyError "INPUT") (field !! "INPUT");
    type ← of_option (KeyError "type") (field !! "type");
    if String.eqb type "NODE" then
      mf ← of_option (KeyError file) (dict_get file (inp_files st));
      nodes ← np_array (NODE_SECTION mf);
      frame ← of_option (KeyError "FRAME") (field !! "FRAME");
      offset ← of_option (KeyError frame) (frames !! frame);
      nodes ← np_iadd nodes offset;
      if nb_nodes st =? 0 then
        Ok (mkINP (Some nodes) (inp_faces st) (Some false)
                  (Z.of_nat (length nodes)) (nb_elems st) (inp_files st))
      else
        increment ← of_option (KeyError "INCREMENT") (field !! "INCREMENT");
        if String.eqb increment "NO" then
          vertices ← local "vertices" (inp_vertices st);
          idx ← local "idx" idx;
          vertices ← np_set_row vertices idx nodes;
          Ok (mkINP (Some vertices) (inp_faces st) (Some false)
                    (nb_nodes st) (nb_elems st) (inp_files st))
        else
          vertices ← local "vertices" (inp_vertices st);
          vertices ← np_concatenate vertices nodes;
          Ok (mkINP (Some vertices) (inp_faces st) (Some true)
                    (Z.of_nat (length vertices)) (nb_elems st) (inp_files st))
    else
      mf ← of_option (KeyError file) (dict_get file (inp_files st));
      rows ← list_index (ELEM_SECTIONS mf) (nb_elem_sections_used mf);
      elem_section ← np_array_int rows;
      let used := nb_elem_sections_used mf + 1 in
      let used := if used =? nb_elem_sections mf then 0 else used in
      let mf := mkMeshFile (CALLS mf) (NODE_SECTION mf) (ELEM_SECTIONS mf)
                           (nb_elem_sections mf) used in
      let files := dict_set file mf (inp_files st) in
      increment ← local "increment" (inp_increment st);
      let elems := if (increment : bool) then np_add elem_section (nb_nodes st) else elem_section in
      if nb_elems st =? 0 then
        Ok (mkINP (inp_vertices st) (Some elems) (inp_increment st)
                  (nb_nodes st) (Z.of_nat (length elems)) files)
      else
        faces ← local "faces" (inp_faces st);
        faces ← np_concatenate faces elems;
        Ok (mkINP (inp_vertices st) (Some faces) (inp_increment st)
                  (nb_nodes st) (Z.of_nat (length faces)) files).

Fixpoint INP_replay_all (frames : gmap string (list coord)) (idx : option Z)
           (layout : list (gmap string string)) (st : INP_state) : result INP_state :=
    match layout with
    | [] => Ok st
    | field :: layout =>
        st ← INP_replay frames idx field st;
        INP_replay_all frames idx layout st
    end.

Definition load_INP (fs : filesystem) (filename : string) (name : option string)
    : result (loaded coord) :=
    _ ← _check_file fs filename;
    text ← read_file fs filename;
    frames ← INP_frames (re_finditer INP_frame RE_MULTILINE text) ∅;
    '(layout, mesh_files) ←
      INP_layout (re_finditer INP_node_elements RE_MULTILINE text) [] [];
    '(mesh_files, idx) ← INP_read_all fs filename mesh_files None;
    st ← INP_replay_all frames idx layout (mkINP None None None 0 0 mesh_files);
    vertices ← local "vertices" (inp_vertices st);
    faces ← local "faces" (inp_faces st);
    m ← new_Mesh vertices (np_sub1 faces) name;
    Ok (PlainMesh m).

End Diodore.

Section LibraryLoaders.
  Context `{RT : Runtime}.

  (** *** The loaders that go through VTK *)

  (** [faces[k][l] = cell.GetPointId(l)] for [l] in [range(nv_facet)], then
      the first node repeated for a triangle. *)
Fixpoint VTK_fill (l : nat) (ids : list Z) (row : list Z) : result (list Z) :=
    match ids with
    | [] => Ok row
    | id :: ids =>
        if (l <? length row)%nat then VTK_fill (S l) ids (<[l := id]> row)
        else Raise IndexError
    end.

Definition VTK_face (cell : list Z) : result (list Z) :=
    row ← VTK_fill 0 cell [0; 0; 0; 0];
    if Nat.eqb (length cell) 3
    then first ← list_index row 0; Ok (<[3%nat := first]> row)
    else Ok row.

Definition _dump_vtk (vtk_mesh : vtk_data coord)
    : result (list (list coord) * list (list Z)) :=
    vertices ← mapM (broadcast_row 3) (vtk_points vtk_mesh);
    faces ← mapM VTK_face (vtk_cells vtk_mesh);
    Ok (vertices, faces).

  (** [load_VTU], [load_VTP] and [load_VTK] differ by the reader they
      import from [vtk], after the check of the file. *)
Definition load_with (reader : vtk_reader) (fs : filesystem) (filename : string)
             (name : option string) : result (loaded coord) :=
    _ ← _check_file fs filename;
    _ ← import_module "vtk";
    data ← read_file fs filename;
    '(vertices, faces) ← _dump_vtk (vtk_read reader data);
    m ← new_Mesh vertices faces name;
    Ok (PlainMesh m).

Definition load_VTU := load_with vtkXMLUnstructuredGridReader.
Definition load_VTP := load_with vtkXMLPolyDataReader.
Definition load_VTK := load_with vtkPolyDataReader.

  (** STL holds triangles only: three point ids per cell, the first one
      repeated; the vertices are then merged and the faces renumbered. *)
Definition STL_face (cell : list Z) : list Z :=
    let id l := nth l cell 0 in
    [id 0%nat; id 1%nat; id 2%nat; id 0%nat].

Definition load_STL (fs : filesystem) (filename : string) (name : option string)
    : result (loaded coord) :=
    (** [from vtk import vtkSTLReader], [from .tools import merge_duplicate_rows] *)
    _ ← import_module "vtk";
    _ ← import_module "capytaine.io.tools";
    _ ← _check_file fs filename;
    data ← read_file fs filename;
    let data := vtk_read vtkSTLReader data in
    vertices ← mapM (broadcast_row 3) (vtk_points data);
    let faces := map STL_face (vtk_cells data) in
    let '(vertices, new_id) := merge_duplicate_rows vertices in
    faces ← mapM (np_take new_id) faces;
    m ← new_Mesh vertices faces name;
    Ok (PlainMesh m).

Definition WRL_version : string := "#VRML\s+V(\d.\d)".

  (** The loader in an environment where [vtk] is installed: the
      statement [from vtk import vtkVRMLImporter], which comes before
      [_check_file], goes through there.  Where [vtk] is missing the call
      fails on that statement. *)
Definition load_WRL (fs : filesystem) (filename : string) (name : option string)
    : result (loaded coord) :=
    _ ← _check_file fs filename;
    data ← read_file fs filename;
    let '(line, _) := readline (open_lines data) in
    ver ← group1 (re_search WRL_version NOFLAG line);
    if negb (String.eqb ver "2.0") then Raise NotImplementedError
    else
      '(vertices, faces) ← _dump_vtk (vtk_read vtkVRMLImporter data);
      Ok (Arrays vertices faces).

  (** *** MED (SALOME) *)

  (** [dataset.value.reshape((c, -1)).T] *)
Definition MED_table {A : Type} (c : Z) (l : list A) : result (list (list A)) :=
    a ← np_reshape l c (-1);
    Ok (transpose (width a) a).

Record MED_state : Type := mkMED {
    med_vertices : option (list (list coord));
    med_triangles : list (list Z);
    med_quadrangles : list (list Z)
  }.

  (** The body of [for item in list_of_names]. *)
Definition MED_item (item : string * h5_dataset coord) (st : MED_state)
    : result MED_state :=
    let '(item, value) := item in
    st ← (if contains "/NOE/COO" item
          then match value with
               | h5_floats l =>
                   v ← MED_table 3 l;
                   Ok (mkMED (Some v) (med_triangles st) (med_quadrangles st))
               | h5_ints _ => Raise TypeError
               end
          else Ok st);
    st ← (if contains "/MAI/TR3/NOD" item
          then match value with
               | h5_ints l =>
                   t ← MED_table 3 l;
                   Ok (mkMED (med_vertices st) (np_sub1 t) (med_quadrangles st))
               | h5_floats _ => Raise TypeError
               end
          else Ok st);
    if contains "/MAI/QU4/NOD" item
    then match value with
         | h5_ints l =>
             q ← MED_table 4 l;
             Ok (mkMED (med_vertices st) (med_triangles st) (np_sub1 q))
         | h5_floats _ => Raise TypeError
         end
    else Ok st.

Fixpoint MED_items (items : list (string * h5_dataset coord)) (st : MED_state)
    : result MED_state :=
    match items with
    | [] => Ok st
    | item :: items => st ← MED_item item st; MED_items items st
    end.

Definition h5py_missing : string :=
    "MED file format reader needs h5py module to be installed".

  (** The mesh of [load_MED] is built without the name. *)
Definition load_MED (fs : filesystem) (filename : string) (name : option string)
    : result (loaded coord) :=
    (** [try: import h5py / except ImportError: raise ImportError(...)] *)
    _ ← (if importable "h5py" then Ok tt else Raise (ImportError h5py_missing));
    _ ← _check_file fs filename;
    data ← read_file fs filename;
    st ← MED_items (h5py_File data) (mkMED None [] []);
    (** [np.column_stack((triangles, triangles[:, 0]))] *)
    triangles ← mapM (fun t => first ← list_index t 0; Ok (t ++ [first])) (med_triangles st);
    let faces := triangles ++ med_quadrangles st in
    vertices ← local "vertices" (med_vertices st);
    m ← new_Mesh vertices faces None;
    Ok (PlainMesh m).

End LibraryLoaders.

(** * The dispatcher *)

Section Dispatcher.
  Context `{RT : Runtime}.

Definition loader : Type :=
    filesystem -> string -> option string -> result (loaded coord).

  (** keyword, reader *)
Definition extension_dict : gmap string loader :=
    list_to_map [
      ("dat", load_MAR);
      ("mar", load_MAR);
      ("nemoh", load_MAR);
      ("wamit", load_GDF);
      ("gdf", load_GDF);
      ("diodore-inp", load_INP);
      ("inp", load_INP);
      ("diodore-dat", load_DAT);
      ("hydrostar", load_HST);
      ("hst", load_HST);
      ("natural", load_NAT);
      ("nat", load_NAT);
      ("gmsh", load_MSH);
      ("msh", load_MSH);
      ("rad", load_RAD);
      ("radioss", load_RAD);
      ("stl", load_STL);
      ("vtu", load_VTU);
      ("vtp", load_VTP);
      ("paraview-legacy", load_VTK);
      ("vtk", load_VTK);
      ("tecplot", load_TEC);
      ("tec", load_TEC);
      ("med", load_MED);
      ("salome", load_MED);
      ("vrml", load_WRL);
      ("wrl", load_WRL);
      ("nem", load_NEM);
      ("nemoh_mesh", load_NEM)
    ].

  (** The format [load_mesh] works with: the one given, or the extension
      of the file without its dot. *)
Definition resolve_format (filename : string) (file_format : option string) : string :=
    match file_format with
    | Some file_format => file_format
    | None => let '(_, file_format) := splitext filename in strip_dots file_format
    end.

Definition unknown_extension (file_format : string) : string :=
    "Extension " +:+ String DQUOTE "." +:+ file_format +:+ String DQUOTE " is not known".

Definition load_mesh (fs : filesystem) (filename : string)
             (file_format : option string) (name : option string)
    : result (loaded coord) :=
    _ ← _check_file fs filename;
    let file_format := resolve_format filename file_format in
    match extension_dict !! file_format with
    | None => Raise (IOError (unknown_extension file_format))
    | Some loader => loader fs filename name
    end.

End Dispatcher.

(** * A reference runtime

    The fragment of Python's [re] the patterns of the loaders are written
    in, as a backtracking matcher (leftmost match, alternatives and
    quantifiers tried in priority order), and [float()] on decimal
    literals, read as exact rationals. *)

Module Re.

Inductive regex : Type :=
  | Empty
  | Char (p : ascii -> bool)
  | Seq (a b : regex)
  | Alt (a b : regex)
  | Repeat (lazy : bool) (lo : nat) (hi : option nat) (a : regex)
  | Group (n : nat) (a : regex)
  | Bol
  | Eol.

Definition is_digit (c : ascii) : bool :=
    match digit_of c with Some _ => true | None => false end.

  (** The class an escape [\c] stands for. *)
Definition escape (c : ascii) : ascii -> bool :=
    if Ascii.eqb c "d" then is_digit
    else if Ascii.eqb c "s" then is_space
    else if Ascii.eqb c "n" then Ascii.eqb LF
    else if Ascii.eqb c "r" then Ascii.eqb CR
    else if Ascii.eqb c "t" then Ascii.eqb "009"
    else Ascii.eqb c.

  (** The items of a class [[...]], up to the closing bracket (the loaders
      use no range). *)
Fixpoint parse_class (s : list ascii) (acc : ascii -> bool)
    : option ((ascii -> bool) * list ascii) :=
    match s with
    | [] => None
    | "]"%char :: s' => Some (acc, s')
    | "\"%char :: c :: s' => parse_class s' (fun x => acc x || escape c x)
    | c :: s' => parse_class s' (fun x => acc x || Ascii.eqb c x)
    end.

Fixpoint parse_nat (s : list ascii) (acc : nat) : nat * list ascii :=
    match s with
    | c :: s' => match digit_of c with
                 | Some d => parse_nat s' (10 * acc + Z.to_nat d)
                 | None => (acc, s)
                 end
    | [] => (acc, s)
    end.

  (** A quantifier after an atom, with its optional lazy mark. *)
Definition parse_quantifier (a : regex) (s : list ascii) : regex * list ascii :=
    let lazy_mark lo hi s :=
      match s with
      | "?"%char :: s' => (Repeat true lo hi a, s')
      | _ => (Repeat false lo hi a, s)
      end in
    match s with
    | "*"%char :: s' => lazy_mark 0%nat None s'
    | "+"%char :: s' => lazy_mark 1%nat None s'
    | "?"%char :: s' => lazy_mark 0%nat (Some 1%nat) s'
    | "{"%char :: s' =>
        let '(lo, s1) := parse_nat s' 0%nat in
        match s1 with
        | "}"%char :: s2 => lazy_mark lo (Some lo) s2
        | ","%char :: "}"%char :: s2 => lazy_mark lo None s2
        | ","%char :: s2 =>
            let '(hi, s3) := parse_nat s2 0%nat in
            match s3 with
            | "}"%char :: s4 => lazy_mark lo (Some hi) s4
            | _ => (a, s)
            end
        | _ => (a, s)
        end
    | _ => (a, s)
    end.

  (** The parser: alternatives of sequences of quantified atoms.  [n] is
      the number of groups opened so far. *)
Fixpoint parse_alt (fuel : nat) (dotall : bool) (n : nat) (s : list ascii)
    : option (regex * nat * list ascii) :=
    match fuel with
    | O => None
    | S fuel =>
        match parse_seq fuel dotall n s with
        | Some (a, n, "|"%char :: s') =>
            match parse_alt fuel dotall n s' with
            | Some (b, n, s'') => Some (Alt a b, n, s'')
            | None => None
            end
        | r => r
        end
    end
  with parse_seq (fuel : nat) (dotall : bool) (n : nat) (s : list ascii)
    : option (regex * nat * list ascii) :=
    match fuel with
    | O => None
    | S fuel =>
        match s with
        | [] | "|"%char :: _ | ")"%char :: _ => Some (Empty, n, s)
        | _ =>
            match parse_atom fuel dotall n s with
            | Some (a, n, s') =>
                let '(a, s') := parse_quantifier a s' in
                match parse_seq fuel dotall n s' with
                | Some (b, n, s'') => Some (Seq a b, n, s'')
                | None => None
                end
            | None => None
            end
        end
    end
  with parse_atom (fuel : nat) (dotall : bool) (n : nat) (s : list ascii)
    : option (regex * nat * list ascii) :=
    match fuel with
    | O => None
    | S fuel =>
        match s with
        | "("%char :: "?"%char :: ":"%char :: s' =>
            match parse_alt fuel dotall n s' with
            | Some (a, n, ")"%char :: s'') => Some (a, n, s'')
            | _ => None
            end
        | "("%char :: s' =>
            match parse_alt fuel dotall (S n) s' with
            | Some (a, n', ")"%char :: s'') => Some (Group (S n) a, n', s'')
            | _ => None
            end
        | "["%char :: s' =>
            match parse_class s' (fun _ => false) with
            | Some (p, s'') => Some (Char p, n, s'')
            | None => None
            end
        | "\"%char :: c :: s' => Some (Char (escape c), n, s')
        | "."%char :: s' =>
            Some (Char (fun x => dotall || negb (Ascii.eqb x LF)), n, s')
        | "^"%char :: s' => Some (Bol, n, s')
        | "$"%char :: s' => Some (Eol, n, s')
        | c :: s' => Some (Char (Ascii.eqb c), n, s')
        | [] => None
        end
    end.

  (** The groups matched so far: number, start and end. *)
Definition captures : Type := list (nat * (nat * nat)).

Definition continuation : Type :=
    option ascii -> nat -> list ascii -> captures -> option (nat * captures).

Definition or_else {A : Type} (x y : option A) : option A :=
    match x with Some _ => x | None => y end.

  (** [run fuel ml r prev pos rest caps k]: match [r] at position [pos],
      [prev] being the character before it and [rest] the text from it,
      then go on with [k]. *)
Fixpoint run (fuel : nat) (ml : bool) (r : regex) (prev : option ascii) (pos : nat)
           (rest : list ascii) (caps : captures) (k : continuation)
    : option (nat * captures) :=
    match fuel with
    | O => None
    | S fuel =>
        match r with
        | Empty => k prev pos rest caps
        | Char p =>
            match rest with
            | c :: rest' => if p c then k (Some c) (S pos) rest' caps else None
            | [] => None
            end
        | Seq a b =>
            run fuel ml a prev pos rest caps
                (fun prev pos rest caps => run fuel ml b prev pos rest caps k)
        | Alt a b =>
            or_else (run fuel ml a prev pos rest caps k)
                    (run fuel ml b prev pos rest caps k)
        | Group n a =>
            run fuel ml a prev pos rest caps
                (fun prev' pos' rest' caps' => k prev' pos' rest' ((n, (pos, pos')) :: caps'))
        | Bol =>
            match prev with
            | None => k prev pos rest caps
            | Some c => if ml && Ascii.eqb c LF then k prev pos rest caps else None
            end
        | Eol =>
            match rest with
            | [] => k prev pos rest caps
            | c :: rest' =>
                if Ascii.eqb c LF && (ml || match rest' with [] => true | _ => false end)
                then k prev pos rest caps else None
            end
        | Repeat lazy lo hi a =>
            let again :=
              match hi with
              | Some O => None
              | _ =>
                  run fuel ml a prev pos rest caps
                      (fun prev' pos' rest' caps' =>
                         if Nat.eqb pos' pos && Nat.eqb lo 0 then None
                         else run fuel ml (Repeat lazy (pred lo) (pred <$> hi) a)
                                  prev' pos' rest' caps' k)
              end in
            match lo with
            | S _ => again
            | O => if lazy then or_else (k prev pos rest caps) again
                   else or_else again (k prev pos rest caps)
            end
        end
    end.

Definition substring (text : list ascii) (b e : nat) : string :=
    string_of_list_ascii (take (e - b) (drop b text)).

Definition group_text (text : list ascii) (caps : captures) (n : nat) : string :=
    match List.find (fun c => Nat.eqb (fst c) n) caps with
    | Some (_, (b, e)) => substring text b e
    | None => EmptyString
    end.

  (** The matches from position [pos] on, left to right, not overlapping. *)
Fixpoint scan (steps fuel : nat) (ml : bool) (r : regex) (ngroups : nat)
           (text : list ascii) (prev : option ascii) (pos : nat) (rest : list ascii)
    : list re_match :=
    match steps with
    | O => []
    | S steps =>
        let next :=
          match rest with
          | c :: rest' => scan steps fuel ml r ngroups text (Some c) (S pos) rest'
          | [] => []
          end in
        match run fuel ml r prev pos rest [] (fun _ e _ caps => Some (e, caps)) with
        | Some (e, caps) =>
            mkMatch (substring text pos e)
                    (map (group_text text caps) (seq 1 ngroups))
            :: (if (pos <? e)%nat
                then scan steps fuel ml r ngroups text
                          (last (take e text)) e (drop e text)
                else next)
        | None => next
        end
    end.

Definition finditer (pattern : string) (flags : re_flags) (s : string)
    : list re_match :=
    let p := list_ascii_of_string pattern in
    let text := list_ascii_of_string s in
    match parse_alt (2 * length p + 2) (DOTALL flags) 0 p with
    | Some (r, ngroups, []) =>
        scan (S (length text)) ((length p + 2) * (length text + 2))
             (MULTILINE flags) r ngroups text None 0 text
    | _ => []
    end.

End Re.

(** [float()] on a decimal literal: sign, digits, fraction, exponent. *)
Module Dec.

Fixpoint digits (s : list ascii) (acc : Z) (n : nat) : Z * nat * list ascii :=
    match s with
    | c :: s' => match digit_of c with
                 | Some d => digits s' (10 * acc + d) (S n)
                 | None => (acc, n, s)
                 end
    | [] => (acc, n, s)
    end.

Definition signed (s : list ascii) : bool * list ascii :=
    match s with
    | "-"%char :: s' => (true, s')
    | "+"%char :: s' => (false, s')
    | _ => (false, s)
    end.

Definition scale (m : Z) (e : Z) : Q :=
    if 0 <=? e then inject_Z (m * 10 ^ e)
    else Qred (Qmake m (Z.to_pos (10 ^ (- e)))).

Definition exponent (s : list ascii) : option Z :=
    match s with
    | [] => Some 0
    | c :: s' =>
        if Ascii.eqb c "e" || Ascii.eqb c "E" then
          let '(neg, s1) := signed s' in
          match digits s1 0 0 with
          | (e, S _, []) => Some (if neg then - e else e)
          | _ => None
          end
        else None
    end.

Definition float_of_string (s : string) : option Q :=
    let '(neg, s0) := signed (list_ascii_of_string (strip s)) in
    let '(i, ni, s1) := digits s0 0 0 in
    let '(m, nf, s2) :=
      match s1 with
      | "."%char :: s' => let '(m, nf, s2) := digits s' i 0 in (m, nf, s2)
      | _ => (i, 0%nat, s1)
      end in
    if Nat.eqb (ni + nf) 0 then None
    else e ← exponent s2;
         Some (scale (if neg then - m else m) (e - Z.of_nat nf)).

End Dec.

(** Modelled from the spec: the constructor of the reference runtime
    refuses whatever breaks an invariant of the tables (spec, 3, Data
    model), and an empty table.  It accepts vertices of three coordinates
    with faces of four indices that are rows of the vertex table, counted
    from 0. *)
Definition Mesh_strict {A : Type} (vertices : list (list A)) (faces : list (list Z))
  : result unit :=
  if negb (Nat.eqb (length vertices) 0) && negb (Nat.eqb (length faces) 0)
     && forallb (fun row => Nat.eqb (length row) 3) vertices
     && forallb (fun row =>
                   Nat.eqb (length row) 4
                   && forallb (fun i => (0 <=? i) && (i <? Z.of_nat (length vertices))) row)
                faces
  then Ok tt else Raise AssertionError.

Lemma Mesh_strict_faces {A : Type} (vertices : list (list A)) (faces : list (list Z)) :
  Mesh_strict vertices faces = Ok tt ->
  Forall (fun row => length row = 4%nat
                     /\ Forall (fun i => i < Z.of_nat (length vertices)) row)
         faces.
Proof.
  unfold Mesh_strict. intros H.
  destruct (forallb _ faces) eqn:E; [|rewrite andb_false_r in H; discriminate].
  rewrite forallb_forall in E. apply Forall_forall. intros row Hrow.
  apply list_elem_of_In in Hrow. apply E in Hrow.
  apply andb_true_iff in Hrow as [Hlen Hrow]. apply Nat.eqb_eq in Hlen.
  split; [exact Hlen|]. rewrite forallb_forall in Hrow.
  apply Forall_forall. intros i Hi. apply list_elem_of_In in Hi. apply Hrow in Hi.
  apply andb_true_iff in Hi as [_ Hi]. now apply Z.ltb_lt in Hi.
Qed.

(** The reference runtime has no VTK and no HDF5 library: no module is
    importable, its readers see an empty data set in every file, and no
    rows to merge. *)
#[local] Instance reference : Runtime := {
  coord := Q;
  float_of_string := Dec.float_of_string;
  fadd := fun x y => Qred (x + y);
  fzero := 0%Q;
  re_finditer := Re.finditer;
  vtk_read := fun _ _ => mkVtk [] [];
  merge_duplicate_rows := fun rows => (rows, map Z.of_nat (seq 0 (length rows)));
  h5py_File := fun _ => [];
  importable := fun _ => false;
  Mesh_asserts := Mesh_strict;
  Mesh_asserts_faces := Mesh_strict_faces
}.

(** A text from its lines, each one closed by a line feed. *)
Fixpoint text_of (lines : list string) : string :=
  match lines with
  | [] => EmptyString
  | l :: lines => l +:+ String LF (text_of lines)
  end.

(** A disk holding the given files. *)
Definition disk (files : list (string * string)) : filesystem :=
  fun path => dict_get path files.

(** * Properties *)

(** ** The error monad *)

Lemma bind_Ok {A B : Type} (c : result A) (k : A -> result B) (b : B) :
  c ≫= k = Ok b -> exists a, c = Ok a /\ k a = Ok b.
Proof. destruct c as [a|e]; simpl; [eauto | discriminate]. Qed.



(** Inversion of a successful chain of binds. *)
Ltac ok_inv H :=
  repeat match type of H with
    | _ ≫= _ = Ok _ =>
        let a := fresh "a" in let Ha := fresh "Ha" in
        apply bind_Ok in H; destruct H as (a & Ha & H)
    | (let '(_, _) := ?p in _) = Ok _ => destruct p eqn:?
    | Ok _ = Ok _ => injection H as H
    | Raise _ = Ok _ => discriminate H
    end.

Lemma of_option_Ok {A : Type} (e : exn) (o : option A) (a : A) :
  of_option e o = Ok a <-> o = Some a.
Proof. destruct o; simpl; split; congruence. Qed.

Lemma mapM_Ok_length {A B : Type} (f : A -> result B) (l : list A) (bs : list B) :
  mapM f l = Ok bs -> length bs = length l.
Proof.
  revert bs; induction l as [|a l IH]; simpl; intros bs H.
  - now injection H as <-.
  - ok_inv H. subst bs. simpl. f_equal. eauto.
Qed.

Lemma mapM_Ok_lookup {A B : Type} (f : A -> result B) (l : list A) (bs : list B) :
  mapM f l = Ok bs ->
  forall i a, l !! i = Some a -> exists b, bs !! i = Some b /\ f a = Ok b.
Proof.
  revert bs; induction l as [|a0 l IH]; simpl; intros bs H i a Hi.
  - discriminate.
  - ok_inv H. subst bs. destruct i as [|i]; simpl in *.
    + injection Hi as <-. eauto.
    + eauto.
Qed.

Lemma mapM_Ok_Forall2 {A B : Type} (f : A -> result B) (l : list A) (bs : list B) :
  mapM f l = Ok bs -> Forall2 (fun a b => f a = Ok b) l bs.
Proof.
  revert bs; induction l as [|a0 l IH]; simpl; intros bs H.
  - injection H as <-. constructor.
  - ok_inv H. subst bs. constructor; eauto.
Qed.

Lemma mapM_app {A B : Type} (f : A -> result B) (l1 l2 : list A) :
  mapM f (l1 ++ l2) = (b1 ← mapM f l1; b2 ← mapM f l2; Ok (b1 ++ b2)).
Proof.
  induction l1 as [|a l1 IH]; simpl.
  - destruct (mapM f l2); reflexivity.
  - destruct (f a); simpl; [|reflexivity].
    rewrite IH. destruct (mapM f l1); simpl; [|reflexivity].
    destruct (mapM f l2); reflexivity.
Qed.

(** A conversion that fails on one element fails, with the error of the
    first failure. *)
Lemma mapM_Raise {A B : Type} (f : A -> result B) (l : list A) (e : exn) :
  (forall a e', f a = Raise e' -> e' = e) ->
  (exists a, In a l /\ is_ok (f a) = false) ->
  mapM f l = Raise e.
Proof.
  intros Hf; induction l as [|a l IH]; simpl; intros (x & Hx & Hbad).
  - contradiction.
  - destruct (f a) as [b|e'] eqn:Ha; simpl.
    + destruct Hx as [->|Hx]; [rewrite Ha in Hbad; discriminate|].
      rewrite IH; eauto.
    + f_equal. eauto.
Qed.

(** ** Integer arrays *)



Lemma np_array_Ok {A : Type} (rows a : list (list A)) :
  np_array rows = Ok a -> a = rows.
Proof. unfold np_array. destruct (uniform rows); congruence. Qed.

Lemma np_array_int_Ok (rows a : list (list Z)) :
  np_array_int rows = Ok a ->
  a = rows /\ Forall (Forall (fun x => in_int64 x = true)) rows.
Proof.
  unfold np_array_int. intros H. ok_inv H. apply np_array_Ok in Ha. subst a0.
  destruct (forallb _ rows) eqn:E; [|discriminate]. injection H as <-.
  split; [reflexivity|].
  rewrite forallb_forall in E. apply Forall_forall. intros r Hr.
  apply Forall_forall. intros x Hx.
  apply list_elem_of_In in Hr, Hx.
  specialize (E r Hr). rewrite forallb_forall in E. auto.
Qed.

Section MeshConstruction.
  Context `{RT : Runtime}.

  (** A mesh that is built holds the arrays given, and they went through
      the assertions of the constructor. *)
Lemma new_Mesh_Ok (vertices : list (list coord)) (faces : list (list Z))
        (name : option string) (m : Mesh coord) :
    new_Mesh vertices faces name = Ok m ->
    m = mkMesh vertices faces name
    /\ Forall (fun row => length row = 4%nat
                          /\ Forall (fun i => i < Z.of_nat (length vertices)) row)
              faces.
  Proof.
    unfold new_Mesh. intros H. apply bind_Ok in H as ([] & Ha & H).
    injection H as <-. split; [reflexivity|]. now apply Mesh_asserts_faces.
  Qed.

End MeshConstruction.

(** Inverts the construction of the mesh that ends a loader: [Hm] becomes
    what the constructor asserted of the face table. *)
Ltac built H Hm :=
  let m := fresh "m" in
  apply bind_Ok in H as (m & Hm & H); apply new_Mesh_Ok in Hm as (-> & Hm).

(** Peels the stages of a successful call down to the construction of the
    mesh. *)
Ltac stages H :=
  repeat first
    [ apply bind_Ok in H as (? & ? & H)
    | match type of H with
      | match ?x with _ => _ end = Ok _ => destruct x; try discriminate H
      end ].

Section MeshAccepted.
  Context `{RT : Runtime}.

  (** What the constructor of [Mesh] has checked on a result. *)
Definition accepted (r : loaded coord) : Prop :=
    Forall (fun row => length row = 4%nat
                       /\ Forall (fun i => i < Z.of_nat (length (loaded_vertices r))) row)
           (loaded_faces r).

Ltac mesh_built H :=
  stages H;
  match goal with
  | Hm : new_Mesh _ _ _ = Ok _ |- _ =>
      apply new_Mesh_Ok in Hm as (-> & Hm); injection H as <-; exact Hm
  end.

Lemma load_INP_accepted fs filename name r :
    load_INP fs filename name = Ok r -> accepted r.
  Proof. unfold load_INP, accepted. intros H. mesh_built H. Qed.
Lemma load_with_accepted reader fs filename name r :
    load_with reader fs filename name = Ok r -> accepted r.
  Proof. unfold load_with, accepted. intros H. mesh_built H. Qed.
Lemma load_STL_accepted fs filename name r :
    load_STL fs filename name = Ok r -> accepted r.
  Proof. unfold load_STL, accepted. intros H. mesh_built H. Qed.
Lemma load_MED_accepted fs filename name r :
    load_MED fs filename name = Ok r -> accepted r.
  Proof. unfold load_MED, accepted. intros H. mesh_built H. Qed.
End MeshAccepted.

Lemma np_sub1_length (a : list (list Z)) : length (np_sub1 a) = length a.
Proof. apply length_map. Qed.


(** ** The dispatcher *)

Section DispatcherProperties.
  Context `{RT : Runtime}.

Lemma check_file_missing (fs : filesystem) (filename : string) :
    fs filename = None ->
    _check_file fs filename = Raise (IOError ("file " +:+ filename +:+ " not found")).
  Proof. unfold _check_file. now intros ->. Qed.

Lemma check_file_found (fs : filesystem) (filename data : string) :
    fs filename = Some data -> _check_file fs filename = Ok tt.
  Proof. unfold _check_file. now intros ->. Qed.

Lemma read_file_found (fs : filesystem) (filename data : string) :
    fs filename = Some data -> read_file fs filename = Ok data.
  Proof. unfold read_file. now intros ->. Qed.

  (** C7. A path that is no file makes [load_mesh] fail with the
      file-not-found error whatever the format argument: the check comes
      first, and its error does not depend on the format nor on the
      registry.  For a file whose format, given or inferred, is no key of
      the registry, [load_mesh] fails with the unsupported-format error,
      whose message holds the keyword. *)
Theorem load_mesh_errors (fs : filesystem) (filename : string)
          (file_format : option string) (name : option string) :
    (fs filename = None ->
     load_mesh fs filename file_format name
     = Raise (IOError ("file " +:+ filename +:+ " not found")))
    /\ (forall data keyword,
          fs filename = Some data ->
          resolve_format filename file_format = keyword ->
          extension_dict !! keyword = None ->
          load_mesh fs filename file_format name
          = Raise (IOError (unknown_extension keyword))
          /\ contains keyword (unknown_extension keyword) = true).
  Proof.
    split.
    - intros H. unfold load_mesh. now rewrite (check_file_missing _ _ H).
    - intros data keyword H Hk Hd. split.
      + unfold load_mesh. rewrite (check_file_found _ _ _ H).
        unfold mbind, result_bind, bind. cbv beta iota zeta.
        unfold loader in *. rewrite Hk, Hd. reflexivity.
      + unfold unknown_extension.
        assert (Hpre : forall p s, contains keyword s = true ->
                                   contains keyword (p +:+ s) = true).
        { induction p as [|c p IH]; simpl; intros s Hs; [exact Hs|].
          rewrite (IH _ Hs). apply orb_true_r. }
        assert (Hp : forall k s, String.prefix k (k +:+ s) = true).
        { induction k as [|c k IH]; intros s; [now destruct s|].
          change (String c k +:+ s) with (String c (k +:+ s)).
          cbn [String.prefix]. destruct (ascii_dec c c); [apply IH | congruence]. }
        apply (Hpre "Extension "). apply (Hpre (String DQUOTE ".")).
        destruct keyword as [|c k]; [reflexivity|].
        change (String c k +:+ String DQUOTE " is not known")
          with (String c (k +:+ String DQUOTE " is not known")).
        cbn [contains].
        change (String c (k +:+ String DQUOTE " is not known"))
          with (String c k +:+ String DQUOTE " is not known").
        rewrite Hp. reflexivity.
  Qed.

  (** What [load_mesh] does with a file that is there: the reader the
      registry gives for the format is called on the same arguments. *)
Lemma load_mesh_reader (fs : filesystem) (filename : string)
        (file_format : option string) (name : option string)
        (data keyword : string) (reader : loader) :
    fs filename = Some data ->
    resolve_format filename file_format = keyword ->
    extension_dict !! keyword = Some reader ->
    load_mesh fs filename file_format name = reader fs filename name.
  Proof.
    intros Hd Hk Hr. unfold load_mesh. rewrite (check_file_found _ _ _ Hd).
    unfold mbind, result_bind, bind. cbv beta iota zeta.
    unfold loader in *. rewrite Hk, Hr. reflexivity.
  Qed.

  (** A reader that starts with [_check_file] gives what [load_mesh] gives
      with its keyword, on a path that is no file as well. *)
Lemma load_mesh_checked (fs : filesystem) (filename : string)
        (file_format : option string) (name : option string)
        (keyword : string) (reader : loader) :
    (fs filename = None ->
     reader fs filename name = Raise (IOError ("file " +:+ filename +:+ " not found"))) ->
    resolve_format filename file_format = keyword ->
    extension_dict !! keyword = Some reader ->
    load_mesh fs filename file_format name = reader fs filename name.
  Proof.
    intros Hmiss Hk Hr. destruct (fs filename) as [data|] eqn:Hd.
    - exact (load_mesh_reader _ _ _ _ _ _ _ Hd Hk Hr).
    - rewrite Hmiss by reflexivity. unfold load_mesh.
      now rewrite (check_file_missing _ _ Hd).
  Qed.

  (** C8. A keyword given explicitly and the extension inferred from the
      file name select the same loader whenever the registry maps both to
      that loader: on a file that is there each of the two calls is the
      call of that loader on the file and the name, so both give the same
      result, the same tables when there is one.  This holds for [wamit]
      against an inferred [gdf], where both calls are the call of
      [load_GDF], and for each of [mar], [dat] and [nemoh] against each
      other one, where both are the call of [load_MAR]. *)
Theorem load_mesh_alias (fs : filesystem) (filename : string) (name : option string) :
    (forall keyword reader,
       extension_dict !! keyword = Some reader ->
       extension_dict !! resolve_format filename None = Some reader ->
       load_mesh fs filename (Some keyword) name = load_mesh fs filename None name)
    /\ (forall data keyword reader,
          fs filename = Some data ->
          extension_dict !! keyword = Some reader ->
          extension_dict !! resolve_format filename None = Some reader ->
          load_mesh fs filename (Some keyword) name = reader fs filename name
          /\ load_mesh fs filename None name = reader fs filename name)
    /\ (resolve_format filename None = "gdf" ->
        extension_dict !! "wamit" = Some load_GDF
        /\ extension_dict !! "gdf" = Some load_GDF
        /\ load_mesh fs filename (Some "wamit") name = load_GDF fs filename name
        /\ load_mesh fs filename None name = load_GDF fs filename name)
    /\ (forall inferred keyword,
          resolve_format filename None = inferred ->
          In inferred ["mar"; "dat"; "nemoh"] ->
          In keyword ["mar"; "dat"; "nemoh"] ->
          extension_dict !! keyword = Some load_MAR
          /\ extension_dict !! inferred = Some load_MAR
          /\ load_mesh fs filename (Some keyword) name = load_MAR fs filename name
          /\ load_mesh fs filename None name = load_MAR fs filename name).
  Proof.
    assert (Hgdf : extension_dict !! "gdf" = Some load_GDF) by reflexivity.
    assert (Hwamit : extension_dict !! "wamit" = Some load_GDF) by reflexivity.
    assert (Hmar : forall k, In k ["mar"; "dat"; "nemoh"] ->
                             extension_dict !! k = Some load_MAR).
    { intros k [<-|[<-|[<-|[]]]]; reflexivity. }
    assert (Hcg : fs filename = None ->
                  load_GDF fs filename name
                  = Raise (IOError ("file " +:+ filename +:+ " not found"))).
    { intros H. unfold load_GDF. now rewrite (check_file_missing _ _ H). }
    assert (Hcm : fs filename = None ->
                  load_MAR fs filename name
                  = Raise (IOError ("file " +:+ filename +:+ " not found"))).
    { intros H. unfold load_MAR. now rewrite (check_file_missing _ _ H). }
    split; [|split; [|split]].
    - intros keyword reader H H'. unfold load_mesh.
      destruct (_check_file fs filename); [|reflexivity].
      unfold mbind, result_bind, bind. cbv beta iota zeta.
      change (resolve_format filename (Some keyword)) with keyword.
      unfold loader in *. rewrite H, H'. reflexivity.
    - intros data keyword reader Hd H H'. split.
      + exact (load_mesh_reader fs filename (Some keyword) name data keyword reader
                 Hd eq_refl H).
      + exact (load_mesh_reader fs filename None name data _ reader Hd eq_refl H').
    - intros H. split; [exact Hwamit|]. split; [exact Hgdf|]. split.
      + exact (load_mesh_checked fs filename (Some "wamit") name "wamit" load_GDF
                 Hcg eq_refl Hwamit).
      + exact (load_mesh_checked fs filename None name "gdf" load_GDF Hcg H Hgdf).
    - intros inferred keyword H Hi Hk.
      split; [now apply Hmar|]. split; [now apply Hmar|]. split.
      + exact (load_mesh_checked fs filename (Some keyword) name keyword load_MAR
                 Hcm eq_refl (Hmar _ Hk)).
      + exact (load_mesh_checked fs filename None name inferred load_MAR Hcm H
                 (Hmar _ Hi)).
  Qed.

End DispatcherProperties.

(** ** Loops *)

Lemma for_range_from_inv {S : Type} (P : nat -> S -> Prop)
      (body : nat -> S -> result S) (n i : nat) (s s' : S) :
  P i s ->
  (forall j t t', (i <= j < i + n)%nat -> P j t -> body j t = Ok t' -> P (Datatypes.S j) t') ->
  for_range_from i n body s = Ok s' ->
  P (i + n)%nat s'.
Proof.
  revert i s; induction n as [|n IH]; simpl; intros i s HP Hstep H.
  - injection H as <-. now rewrite Nat.add_0_r.
  - ok_inv H. replace (i + Datatypes.S n)%nat with (Datatypes.S i + n)%nat by lia.
    apply (IH (Datatypes.S i) a).
    + apply (Hstep i s a); [lia | assumption | assumption].
    + intros j t t' Hj. apply Hstep. lia.
    + assumption.
Qed.

(** ** WAMIT GDF *)

Section GDFProperties.
  Context `{RT : Runtime}.

  (** The four corners of face [k]. *)
Definition GDF_face (k : nat) : list Z :=
    let k := Z.of_nat k in [4 * k; 4 * k + 1; 4 * k + 2; 4 * k + 3].

Lemma np_zeros_Ok {A : Type} (zero : A) (n : Z) (c : nat) (a : list (list A)) :
    np_zeros zero n c = Ok a ->
    0 <= n /\ a = replicate (Z.to_nat n) (replicate c zero).
  Proof.
    unfold np_zeros. destruct (n <? 0) eqn:E; [discriminate|].
    destruct (int64_max <? _); [discriminate|].
    intros H; injection H as <-. apply Z.ltb_ge in E. auto.
  Qed.

Lemma set_row_Ok {A : Type} (a a' : list (list A)) (i : Z) (row : list A) :
    set_row a i row = Ok a' -> length a' = length a.
  Proof.
    unfold set_row. intros H. ok_inv H. subst a'. apply length_insert.
  Qed.

Lemma set_entry_Ok {A : Type} (a a' : list (list A)) (i k : nat) (x : A) :
    set_entry a i k x = Ok a' ->
    exists row, a !! i = Some row /\ (k < length row)%nat
                /\ a' = <[i := <[k := x]> row]> a.
  Proof.
    unfold set_entry. intros H. ok_inv H. apply of_option_Ok in Ha.
    destruct (k <? length a0)%nat eqn:E; [|discriminate].
    injection H as <-. apply Nat.ltb_lt in E. eauto.
  Qed.

Lemma GDF_body_Ok (icell k : nat) (iv iv' : Z) (V V' : list (list coord))
        (F F' : list (list Z)) (f f' : file) :
    GDF_body icell k (iv, V, F, f) = Ok (iv', V', F', f') ->
    iv' = iv + 1 /\ length V' = length V
    /\ exists row, F !! icell = Some row /\ (k < length row)%nat
                   /\ F' = <[icell := <[k := iv + 1]> row]> F.
  Proof.
    unfold GDF_body. intros H. destruct (readline f) as [line f1].
    ok_inv H. simplify_eq.
    apply set_row_Ok in Ha0. apply set_entry_Ok in Ha1. auto.
  Qed.

  (** One cell: the four corners get the next four vertex numbers. *)
Lemma GDF_cell_Ok (icell : nat) (iv iv' : Z) (V V' : list (list coord))
        (F F' : list (list Z)) (f f' : file) :
    F !! icell = Some [0; 0; 0; 0] ->
    for_range 4 (GDF_body icell) (iv, V, F, f) = Ok (iv', V', F', f') ->
    iv' = iv + 4 /\ length V' = length V
    /\ F' = <[icell := [iv + 1; iv + 2; iv + 3; iv + 4]]> F.
  Proof.
    intros HF H. unfold for_range in H. cbn [for_range_from] in H.
    apply bind_Ok in H as ([[[i1 V1] F1] f1] & Ha & H).
    apply bind_Ok in H as ([[[i2 V2] F2] f2] & Ha0 & H).
    apply bind_Ok in H as ([[[i3 V3] F3] f3] & Ha1 & H).
    apply bind_Ok in H as ([[[i4 V4] F4] f4] & Ha2 & H).
    injection H as -> -> -> ->.
    apply GDF_body_Ok in Ha as (-> & L1 & r1 & E1 & _ & ->).
    apply GDF_body_Ok in Ha0 as (-> & L2 & r2 & E2 & _ & ->).
    apply GDF_body_Ok in Ha1 as (-> & L3 & r3 & E3 & _ & ->).
    apply GDF_body_Ok in Ha2 as (-> & L4 & r4 & E4 & _ & ->).
    assert (Hlt : (icell < length F)%nat) by (eapply lookup_lt_Some; eauto).
    rewrite HF in E1. injection E1 as <-.
    rewrite list_lookup_insert_eq in E2 by assumption. injection E2 as <-.
    rewrite list_lookup_insert_eq in E3 by (now rewrite length_insert).
    injection E3 as <-.
    rewrite list_lookup_insert_eq in E4 by (now rewrite !length_insert).
    injection E4 as <-.
    split; [lia|]. split; [congruence|].
    rewrite !list_insert_insert_eq. simpl.
    replace (iv + 1 + 1) with (iv + 2) by lia.
    replace (iv + 2 + 1) with (iv + 3) by lia.
    replace (iv + 3 + 1) with (iv + 4) by lia. reflexivity.
  Qed.

  (** The invariant of the loop over the cells. *)
Definition GDF_inv (nv nf : nat) (j : nat) (st : GDF_state) : Prop :=
    let '(iv, V, F, _) := st in
    iv = 4 * Z.of_nat j - 1 /\ length V = nv /\ length F = nf
    /\ (forall k, (k < j)%nat -> (k < nf)%nat -> F !! k = Some (GDF_face k))
    /\ (forall k, (j <= k < nf)%nat -> F !! k = Some [0; 0; 0; 0]).

Lemma GDF_cells_Ok (nf : nat) (V V' : list (list coord)) (f f' : file)
        (iv' : Z) (F' : list (list Z)) :
    for_range nf (fun icell st => for_range 4 (GDF_body icell) st)
              (-1, V, replicate nf [0; 0; 0; 0], f) = Ok (iv', V', F', f') ->
    length V' = length V /\ length F' = nf
    /\ forall k, (k < nf)%nat -> F' !! k = Some (GDF_face k).
  Proof.
    intros H. unfold for_range in H.
    apply (for_range_from_inv (GDF_inv (length V) nf)) in H.
    - simpl in H. destruct H as (_ & HV & HF & Hdone & _). auto.
    - simpl. split; [lia|]. split; [reflexivity|]. split; [apply length_replicate|].
      split; [lia|]. intros k Hk. apply lookup_replicate_2. lia.
    - intros j [[[iv1 V1] F1] f1] [[[iv2 V2] F2] f2] Hj (-> & HV & HF & Hdone & Htodo) Hb.
      apply GDF_cell_Ok in Hb as (-> & HV' & ->); [|apply Htodo; lia].
      simpl. split; [lia|]. split; [congruence|].
      split; [now rewrite length_insert|]. split.
      + intros k Hk Hk'. destruct (decide (k = j)) as [->|Hne].
        * rewrite list_lookup_insert_eq by lia. unfold GDF_face. simpl.
          repeat (f_equal; try lia).
        * rewrite list_lookup_insert_ne by congruence. apply Hdone; lia.
      + intros k Hk. rewrite list_lookup_insert_ne by lia. apply Htodo. lia.
  Qed.

  (** The number of faces a GDF text declares: the first token of its
      fourth line. *)
Definition GDF_declared (data : string) : option Z :=
    head (split_ws (nth 3 (open_lines data) EmptyString)) ≫= int_of_string.

Lemma list_index_0 {A : Type} (l : list A) (x : A) :
    list_index l 0 = Ok x -> head l = Some x.
  Proof.
    unfold list_index. destruct l as [|y l]; simpl; [discriminate|].
    intros H. injection H as <-. reflexivity.
  Qed.

Lemma list_index_tokens {A : Type} (l : list A) :
    (2 <= length l)%nat -> exists x y, list_index l 0 = Ok x /\ list_index l 1 = Ok y.
  Proof.
    destruct l as [|x [|y l]]; simpl; try lia. intros _. exists x, y.
    unfold list_index. simpl length.
    replace (0 <=? 0) with true by reflexivity.
    replace (0 <=? 1) with true by reflexivity.
    destruct (0 <? Z.of_nat (Datatypes.S (Datatypes.S (length l)))) eqn:E1;
      [|apply Z.ltb_ge in E1; lia].
    destruct (1 <? Z.of_nat (Datatypes.S (Datatypes.S (length l)))) eqn:E2;
      [|apply Z.ltb_ge in E2; lia].
    simpl. auto.
  Qed.

  (** C5. When the GDF loader returns, the vertex table has four rows per
      declared face and face [k] holds the indices [4k, 4k+1, 4k+2, 4k+3]:
      every corner is a vertex of its own.  The two scalars of the second
      line (unit length and gravity) are read and dropped: a file that
      differs in that line only, still with two tokens on it, gives the
      same mesh. *)
Theorem load_GDF_fresh_vertices (fs : filesystem) (filename : string)
          (name : option string) (r : loaded coord) :
    load_GDF fs filename name = Ok r ->
    exists data nf,
      fs filename = Some data
      /\ GDF_declared data = Some nf
      /\ Z.of_nat (length (loaded_vertices r)) = 4 * nf
      /\ Z.of_nat (length (loaded_faces r)) = nf
      /\ (forall k, (k < length (loaded_faces r))%nat ->
                    loaded_faces r !! k = Some (GDF_face k))
      /\ (forall fs' data' line,
            fs' filename = Some data' ->
            open_lines data' = <[1%nat := line]> (open_lines data) ->
            (2 <= length (split_ws line))%nat ->
            load_GDF fs' filename name = Ok r).
  Proof.
    intros H. unfold load_GDF in H.
    apply bind_Ok in H as ([] & Hc & H).
    apply bind_Ok in H as (data & Hd & H).
    unfold read_file in Hd. apply of_option_Ok in Hd.
    exists data.
    destruct (open_lines data) as [|l0 [|l1 [|l2 [|l3 rest]]]] eqn:Hlines;
      simpl in H; try (ok_inv H; discriminate).
    apply bind_Ok in H as (ulen & Hu & H). apply bind_Ok in H as (grav & Hg & H).
    apply bind_Ok in H as (isx & Hx & H). apply bind_Ok in H as (isy & Hy & H).
    pose proof H as Hrest.
    apply bind_Ok in H as (nf & Hnf & H).
    apply bind_Ok in H as (V0 & HV0 & H). apply bind_Ok in H as (F0 & HF0 & H).
    apply bind_Ok in H as ([[[iv V] F] f] & Hloop & H).
    built H Hmesh. injection H as <-.
    exists nf.
    apply np_zeros_Ok in HV0 as (Hnf0 & ->). apply np_zeros_Ok in HF0 as (_ & ->).
    apply GDF_cells_Ok in Hloop as (HV & HF & Hfaces).
    split; [assumption|]. split.
    { unfold GDF_declared. rewrite Hlines. simpl.
      apply bind_Ok in Hnf as (t & Ht & Hnf). apply list_index_0 in Ht.
      rewrite Ht. simpl. unfold py_int in Hnf. now apply of_option_Ok in Hnf. }
    simpl. split; [rewrite HV, length_replicate; lia|].
    split; [rewrite HF; lia|]. split.
    { intros k Hk. apply Hfaces. congruence. }
    intros fs' data' line Hd' Hl' Htok.
    unfold load_GDF. rewrite (check_file_found _ _ _ Hd'), (read_file_found _ _ _ Hd').
    simpl. rewrite Hl'. simpl.
    destruct (list_index_tokens _ Htok) as (x & y & -> & ->). simpl.
    rewrite Hx, Hy. simpl. exact Hrest.
  Qed.

End GDFProperties.

(** ** Nemoh *)

(** The lines of an open file before the first one whose first token is
    [0]. *)
Fixpoint MAR_rows_before_sentinel (ifile : file) : nat :=
  match ifile with
  | [] => 0%nat
  | line :: ifile =>
      match split_ws line with
      | t :: _ => if String.eqb t "0" then 0%nat
                  else S (MAR_rows_before_sentinel ifile)
      | [] => 0%nat
      end
  end.

Section MARProperties.
  Context `{RT : Runtime}.

Lemma MAR_block_Ok {A : Type} (conv : list string -> result (list A))
        (ifile rest : file) (rows : list (list A)) :
    MAR_block conv ifile = Ok (rows, rest) ->
    length rows = MAR_rows_before_sentinel ifile
    /\ Forall2 (fun line row => conv (split_ws line) = Ok row)
               (take (length rows) ifile) rows
    /\ rest = drop (S (length rows)) ifile.
  Proof.
    revert rows rest; induction ifile as [|line ifile IH]; simpl; intros rows rest H.
    - discriminate.
    - destruct (split_ws line) as [|t ts] eqn:Ht; [discriminate|].
      destruct (String.eqb t "0").
      + injection H as <- <-. simpl. repeat split; constructor.
      + apply bind_Ok in H as (row & Hrow & H).
        apply bind_Ok in H as ([rows' rest'] & Hrec & H). injection H as <- <-.
        destruct (IH _ _ Hrec) as (Hl & Hf & Hr). simpl.
        split; [congruence|]. split; [|assumption].
        constructor; [now rewrite Ht | assumption].
  Qed.

  (** C6. When the Nemoh loader returns, the header has two tokens, the
      second of which reads as an integer.  If it is 1, the result is a
      half mesh in a [ReflectionSymmetricMesh] of plane [xOz_Plane], under
      the name asked for, and the half mesh has one vertex row per line
      read before the [0] line; otherwise the result is a plain mesh with
      the same rows. *)
Theorem load_MAR_symmetry (fs : filesystem) (filename : string)
          (mesh_name : option string) (r : loaded coord) :
    load_MAR fs filename mesh_name = Ok r ->
    exists data t0 symmetric_mesh flag,
      fs filename = Some data
      /\ split_ws (hd EmptyString (open_lines data)) = [t0; symmetric_mesh]
      /\ int_of_string symmetric_mesh = Some flag
      /\ length (loaded_vertices r) = MAR_rows_before_sentinel (tl (open_lines data))
      /\ (flag = 1 ->
          exists half_mesh,
            r = ReflectionSymmetricMesh half_mesh xOz_Plane mesh_name)
      /\ (flag <> 1 -> exists m, r = PlainMesh m /\ name m = mesh_name).
  Proof.
    intros H. unfold load_MAR in H.
    apply bind_Ok in H as ([] & _ & H). apply bind_Ok in H as (data & Hd & H).
    apply of_option_Ok in Hd. exists data.
    assert (Hrl : readline (open_lines data)
                  = (hd EmptyString (open_lines data), tl (open_lines data))).
    { now destruct (open_lines data). }
    rewrite Hrl in H.
    destruct (split_ws (hd EmptyString (open_lines data)))
      as [|t0 [|symmetric_mesh [|]]] eqn:Hh; try discriminate.
    apply bind_Ok in H as ([vrows f1] & Hv & H).
    apply bind_Ok in H as (V & HV & H). apply np_array_Ok in HV. subst V.
    apply bind_Ok in H as ([frows f2] & Hf & H).
    apply bind_Ok in H as (F & HF & H).
    apply bind_Ok in H as (flag & Hflag & H).
    unfold py_int in Hflag. apply of_option_Ok in Hflag.
    exists t0, symmetric_mesh, flag.
    apply MAR_block_Ok in Hv as (Hlen & _).
    split; [assumption|]. split; [reflexivity|]. split; [assumption|].
    destruct (flag =? 1) eqn:E.
    - apply Z.eqb_eq in E.
      destruct mesh_name as [n|]; built H Hmesh; injection H as <-; simpl.
      all: split; [assumption|]; split; [eauto | intros; contradiction].
    - apply Z.eqb_neq in E. built H Hmesh. injection H as <-. simpl.
      split; [assumption|]. split; [intros; contradiction | eauto].
  Qed.

End MARProperties.

(** ** DIODORE: one directive of the replay loop *)

Section ReplayStep.
  Context `{RT : Runtime}.

  Implicit Types (field : gmap string string) (st : INP_state).

  (** A directive on [file]: a [*NODE] one, or any other one (an
      [*ELEMENT] directive for the pattern of the layout). *)
Definition INP_is_node (field : gmap string string) : bool :=
    match field !! "type" with
    | Some type => String.eqb type "NODE"
    | None => false
    end.
Definition INP_on (file : string) (field : gmap string string) : bool :=
    match field !! "INPUT" with
    | Some f => String.eqb f file
    | None => false
    end.
  (** The increment flag of a directive is on. *)
Definition INP_incrementing (field : gmap string string) : bool :=
    match field !! "INCREMENT" with
    | Some i => negb (String.eqb i "NO")
    | None => false
    end.

  (** The cursor after one more section of [mf] is used. *)
Definition INP_advance (mf : mesh_file) : mesh_file :=
    let used := nb_elem_sections_used mf + 1 in
    mkMeshFile (CALLS mf) (NODE_SECTION mf) (ELEM_SECTIONS mf) (nb_elem_sections mf)
               (if used =? nb_elem_sections mf then 0 else used).

Lemma np_concatenate_Ok {A : Type} (a b c : list (list A)) :
    np_concatenate a b = Ok c -> c = a ++ b.
  Proof.
    unfold np_concatenate. destruct a, b; try discriminate.
    - now intros [= <-].
    - destruct (Nat.eqb _ _); [|discriminate]. now intros [= <-].
  Qed.

Lemma np_iadd_length (nodes nodes' : list (list coord)) (v : list coord) :
    np_iadd nodes v = Ok nodes' -> length nodes' = length nodes.
  Proof.
    unfold np_iadd. destruct (Nat.eqb _ _).
    - intros [= <-]. apply length_map.
    - destruct v as [|x [|]]; try discriminate. intros [= <-]. apply length_map.
  Qed.

  (** An [*ELEMENT] directive: the section under the cursor of its file
      is taken, offset by the vertex count when the increment variable is
      set, and appended to the face table; the cursor moves on, back to 0
      after the last section.  Nothing else changes. *)
Lemma INP_replay_element frames idx field st st' :
    INP_is_node field = false ->
    INP_replay frames idx field st = Ok st' ->
    exists file mf rows increment,
      field !! "INPUT" = Some file
      /\ dict_get file (inp_files st) = Some mf
      /\ list_index (ELEM_SECTIONS mf) (nb_elem_sections_used mf) = Ok rows
      /\ inp_increment st = Some increment
      /\ (let block := if increment then np_add rows (nb_nodes st) else rows in
          inp_faces st' = Some (if nb_elems st =? 0 then block
                                else default [] (inp_faces st) ++ block))
      /\ nb_elems st' = Z.of_nat (length (default [] (inp_faces st')))
      /\ inp_files st' = dict_set file (INP_advance mf) (inp_files st)
      /\ inp_vertices st' = inp_vertices st
      /\ inp_increment st' = inp_increment st
      /\ nb_nodes st' = nb_nodes st.
  Proof.
    unfold INP_is_node, INP_replay. intros Hn H.
    apply bind_Ok in H as (file & Hfile & H). apply of_option_Ok in Hfile.
    apply bind_Ok in H as (type & Htype & H). apply of_option_Ok in Htype.
    rewrite Htype in Hn. rewrite Hn in H.
    apply bind_Ok in H as (mf & Hmf & H). apply of_option_Ok in Hmf.
    apply bind_Ok in H as (rows & Hrows & H).
    apply bind_Ok in H as (sec & Hsec & H).
    apply np_array_int_Ok in Hsec as (-> & _).
    apply bind_Ok in H as (increment & Hinc & H). apply of_option_Ok in Hinc.
    exists file, mf, rows, increment.
    destruct (nb_elems st =? 0).
    - injection H as <-. simpl. repeat split; auto.
    - apply bind_Ok in H as (faces & Hfaces & H). apply of_option_Ok in Hfaces.
      apply bind_Ok in H as (faces' & Hcat & H). apply np_concatenate_Ok in Hcat.
      injection H as <-. simpl. rewrite Hfaces. simpl. subst faces'.
      repeat split; auto.
  Qed.

Lemma np_set_row_length {A : Type} (a a' : list (list A)) (i : Z) (v : list (list A)) :
    np_set_row a i v = Ok a' -> length a' = length a.
  Proof.
    unfold np_set_row. intros H. apply bind_Ok in H as (k & _ & H).
    destruct v as [|r [|]]; try discriminate.
    apply bind_Ok in H as (row & _ & H). injection H as <-. apply length_insert.
  Qed.

  (** A [*NODE] directive: the increment variable is set when the
      directive is not the first node block ([nb_nodes] is not 0) and its
      [INCREMENT] option is not [NO]; the vertex table is replaced by the
      node section (first block), grows by it (increment) or keeps its
      length (overwrite); the face table and the cursors do not change. *)
Lemma INP_replay_node frames idx field st st' :
    INP_is_node field = true ->
    INP_replay frames idx field st = Ok st' ->
    inp_increment st' = Some (negb (nb_nodes st =? 0) && INP_incrementing field)
    /\ inp_faces st' = inp_faces st
    /\ nb_elems st' = nb_elems st
    /\ inp_files st' = inp_files st
    /\ (exists file mf vertices,
          field !! "INPUT" = Some file
          /\ dict_get file (inp_files st) = Some mf
          /\ inp_vertices st' = Some vertices
          /\ length vertices
             = (if nb_nodes st =? 0 then length (NODE_SECTION mf)
                else if INP_incrementing field
                     then (length (default [] (inp_vertices st))
                           + length (NODE_SECTION mf))%nat
                     else length (default [] (inp_vertices st)))
          /\ nb_nodes st' = (if (nb_nodes st =? 0) || INP_incrementing field
                             then Z.of_nat (length vertices) else nb_nodes st)).
  Proof.
    unfold INP_is_node, INP_incrementing, INP_replay. intros Hn H.
    apply bind_Ok in H as (file & Hfile & H). apply of_option_Ok in Hfile.
    apply bind_Ok in H as (type & Htype & H). apply of_option_Ok in Htype.
    rewrite Htype in Hn. rewrite Hn in H.
    apply bind_Ok in H as (mf & Hmf & H). apply of_option_Ok in Hmf.
    apply bind_Ok in H as (nodes & Hnodes & H). apply np_array_Ok in Hnodes.
    apply bind_Ok in H as (frame & Hframe & H).
    apply bind_Ok in H as (offset & Hoff & H).
    apply bind_Ok in H as (nodes' & Hadd & H). apply np_iadd_length in Hadd.
    subst nodes.
    destruct (nb_nodes st =? 0) eqn:E0.
    - injection H as <-. simpl. repeat split; auto.
      exists file, mf, nodes'. repeat split; auto.
    - apply bind_Ok in H as (inc & Hinc & H). apply of_option_Ok in Hinc.
      rewrite Hinc. destruct (String.eqb inc "NO").
      + apply bind_Ok in H as (vertices & Hv & H). apply of_option_Ok in Hv.
        apply bind_Ok in H as (i & Hi & H).
        apply bind_Ok in H as (vertices' & Hset & H).
        apply np_set_row_length in Hset.
        injection H as <-. simpl. repeat split; auto.
        exists file, mf, vertices'. rewrite Hv. repeat split; auto.
      + apply bind_Ok in H as (vertices & Hv & H). apply of_option_Ok in Hv.
        apply bind_Ok in H as (vertices' & Hcat & H).
        apply np_concatenate_Ok in Hcat. subst vertices'.
        injection H as <-. simpl. repeat split; auto.
        exists file, mf, (vertices ++ nodes'). rewrite Hv. simpl.
        repeat split; auto. rewrite length_app. congruence.
  Qed.

  (** What the overwriting branch does: [vertices[idx, :] = nodes] with the
      value the loop over the node lines of the last data file left in
      [idx].  It succeeds only when the node section has a single row,
      and then changes row [idx] alone. *)
Lemma INP_replay_overwrite frames idx field st st' :
    INP_is_node field = true ->
    INP_incrementing field = false ->
    nb_nodes st <> 0 ->
    INP_replay frames idx field st = Ok st' ->
    exists file mf vertices i k row,
      field !! "INPUT" = Some file
      /\ dict_get file (inp_files st) = Some mf
      /\ length (NODE_SECTION mf) = 1%nat
      /\ inp_vertices st = Some vertices
      /\ idx = Some i
      /\ np_index (length vertices) i = Ok k
      /\ inp_vertices st' = Some (<[k := row]> vertices).
  Proof.
    unfold INP_is_node, INP_incrementing, INP_replay. intros Hn Hi Hnb H.
    apply bind_Ok in H as (file & Hfile & H). apply of_option_Ok in Hfile.
    apply bind_Ok in H as (type & Htype & H). apply of_option_Ok in Htype.
    rewrite Htype in Hn. rewrite Hn in H.
    apply bind_Ok in H as (mf & Hmf & H). apply of_option_Ok in Hmf.
    apply bind_Ok in H as (nodes & Hnodes & H). apply np_array_Ok in Hnodes.
    apply bind_Ok in H as (frame & Hframe & H).
    apply bind_Ok in H as (offset & Hoff & H).
    apply bind_Ok in H as (nodes' & Hadd & H). apply np_iadd_length in Hadd.
    apply Z.eqb_neq in Hnb. rewrite Hnb in H.
    apply bind_Ok in H as (inc & Hinc & H). apply of_option_Ok in Hinc.
    rewrite Hinc in Hi. apply negb_false_iff in Hi. rewrite Hi in H.
    apply bind_Ok in H as (vertices & Hv & H). apply of_option_Ok in Hv.
    apply bind_Ok in H as (i & Hidx & H). apply of_option_Ok in Hidx.
    apply bind_Ok in H as (vertices' & Hset & H). injection H as <-.
    unfold np_set_row in Hset.
    apply bind_Ok in Hset as (k & Hk & Hset).
    destruct nodes' as [|r [|]]; try discriminate.
    apply bind_Ok in Hset as (row & Hrow & Hset). injection Hset as <-.
    exists file, mf, vertices, i, k, row. simpl. repeat split; auto.
    subst nodes. simpl in Hadd. congruence.
  Qed.

End ReplayStep.

(** ** DIODORE: the replay loop *)

Lemma dict_get_set_eq {V : Type} (k : string) (v : V) (d : list (string * V)) :
  dict_get k (dict_set k v d) = Some v.
Proof.
  induction d as [|[k' v'] d IH]; simpl.
  - now rewrite String.eqb_refl.
  - destruct (String.eqb k k') eqn:E; simpl.
    + now rewrite String.eqb_refl.
    + now rewrite E.
Qed.

Lemma dict_get_set_ne {V : Type} (k k' : string) (v : V) (d : list (string * V)) :
  k <> k' -> dict_get k' (dict_set k v d) = dict_get k' d.
Proof.
  intros Hne. induction d as [|[k0 v0] d IH]; simpl.
  - destruct (String.eqb k' k) eqn:E; [|reflexivity].
    apply String.eqb_eq in E. congruence.
  - destruct (String.eqb k k0) eqn:E; simpl.
    + apply String.eqb_eq in E. subst k0.
      destruct (String.eqb k' k) eqn:E'; [|reflexivity].
      apply String.eqb_eq in E'. congruence.
    + now rewrite IH.
Qed.

Lemma list_index_lookup {A : Type} (l : list A) (i : Z) (x : A) :
  0 <= i -> list_index l i = Ok x -> l !! Z.to_nat i = Some x.
Proof.
  intros Hi. unfold list_index.
  destruct ((0 <=? i) && (i <? Z.of_nat (length l))) eqn:E.
  - now rewrite of_option_Ok.
  - destruct ((- Z.of_nat (length l) <=? i) && (i <? 0)) eqn:E'; [|discriminate].
    apply andb_true_iff in E' as [_ E']. apply Z.ltb_lt in E'. lia.
Qed.

(** Moving a cursor that stands at [c mod n] gives [(c + 1) mod n]. *)
Lemma cursor_step (c n : nat) :
  (c mod n < n)%nat ->
  (if Z.of_nat (c mod n) + 1 =? Z.of_nat n then 0 else Z.of_nat (c mod n) + 1)
  = Z.of_nat (S c mod n).
Proof.
  intros Hlt. assert (Hn : (n <> 0)%nat) by lia.
  assert (Hs : (S c mod n = (c mod n + 1) mod n)%nat).
  { replace (S c) with (c + 1)%nat by lia.
    now rewrite Nat.Div0.add_mod_idemp_l. }
  rewrite Hs. clear Hs. generalize dependent (c mod n)%nat. intros m Hlt.
  destruct (Z.of_nat m + 1 =? Z.of_nat n) eqn:E.
  - apply Z.eqb_eq in E.
    replace (m + 1)%nat with n by lia. now rewrite Nat.Div0.mod_same.
  - apply Z.eqb_neq in E. rewrite Nat.mod_small; lia.
Qed.

Section Replay.
  Context `{RT : Runtime}.

  Implicit Types (field : gmap string string) (layout : list (gmap string string)).

Lemma INP_replay_all_app frames idx layout1 layout2 st :
    INP_replay_all frames idx (layout1 ++ layout2) st
    = (st1 ← INP_replay_all frames idx layout1 st; INP_replay_all frames idx layout2 st1).
  Proof.
    revert st; induction layout1 as [|f l IH]; simpl; intros st; [reflexivity|].
    destruct (INP_replay frames idx f st); simpl; [apply IH | reflexivity].
  Qed.

  (** The [*ELEMENT] directives of a layout that name [file]. *)
Definition INP_element_calls (file : string) layout : nat :=
    length (List.filter (fun field => negb (INP_is_node field) && INP_on file field)
                        layout).

  (** The record of a data file when [c] of its sections have been used. *)
Definition INP_used (mf : mesh_file) (c : nat) : mesh_file :=
    mkMeshFile (CALLS mf) (NODE_SECTION mf) (ELEM_SECTIONS mf) (nb_elem_sections mf)
               (Z.of_nat (c mod length (ELEM_SECTIONS mf))).

  (** The data files as [INP_read_all] leaves them: a node section that is
      not empty, the number of element sections, and the cursor at 0. *)
Definition INP_fresh (mf : mesh_file) : Prop :=
    NODE_SECTION mf <> []
    /\ nb_elem_sections mf = Z.of_nat (length (ELEM_SECTIONS mf))
    /\ nb_elem_sections_used mf = 0.

  (** The invariant of the replay loop after the directives [layout]. *)
Record INP_inv (files : list (string * mesh_file)) layout (st : INP_state) : Prop := {
    inv_files : forall file,
      dict_get file (inp_files st)
      = (fun mf => INP_used mf (INP_element_calls file layout)) <$> dict_get file files;
    inv_elems : nb_elems st = Z.of_nat (length (default [] (inp_faces st)));
    inv_nodes : nb_nodes st = Z.of_nat (length (default [] (inp_vertices st)));
    inv_first : (nb_nodes st =? 0) = negb (existsb INP_is_node layout);
    inv_unset : existsb INP_is_node layout = false -> inp_increment st = None;
    inv_flag : forall before field after,
      layout = before ++ field :: after ->
      INP_is_node field = true ->
      existsb INP_is_node after = false ->
      inp_increment st = Some (existsb INP_is_node before && INP_incrementing field)
  }.

Lemma INP_used_0 (mf : mesh_file) : INP_fresh mf -> INP_used mf 0 = mf.
  Proof.
    intros (_ & _ & H0). destruct mf; simpl in *. unfold INP_used; simpl.
    rewrite Nat.Div0.mod_0_l. now subst.
  Qed.

Lemma INP_inv_init (files : list (string * mesh_file)) :
    Forall (fun f => INP_fresh f.2) files ->
    INP_inv files [] (mkINP None None None 0 0 files).
  Proof.
    intros Hf. split; simpl; try reflexivity.
    - intros file. unfold INP_element_calls; simpl.
      induction Hf as [|[k mf] d Hmf _ IH]; simpl; [reflexivity|].
      destruct (String.eqb file k); simpl; [|exact IH].
      f_equal. symmetry. now apply INP_used_0.
    - intros before field after H. now destruct before.
  Qed.

Lemma snoc_split {A : Type} (l before after : list A) (x y : A) :
    l ++ [x] = before ++ y :: after ->
    (after = [] /\ before = l /\ y = x)
    \/ (exists after', after = after' ++ [x] /\ l = before ++ y :: after').
  Proof.
    induction after as [|z after' _] using rev_ind; intros H.
    - apply app_inj_tail in H as [-> ->]. auto.
    - right. exists after'.
      change (before ++ y :: after' ++ [z]) with (before ++ (y :: after') ++ [z]) in H.
      rewrite app_assoc in H. apply app_inj_tail in H as [-> ->]. auto.
  Qed.

Lemma existsb_last {A : Type} (P : A -> bool) (l : list A) :
    existsb P l = true ->
    exists before x after,
      l = before ++ x :: after /\ P x = true /\ existsb P after = false.
  Proof.
    induction l as [|a l IH]; simpl; [discriminate|].
    destruct (existsb P l) eqn:E.
    - intros _. destruct (IH eq_refl) as (before & x & after & -> & Hx & Ha).
      exists (a :: before), x, after. auto.
    - rewrite orb_false_r. intros Ha. exists [], a, l. auto.
  Qed.

End Replay.

Section ReplayInvariant.
  Context `{RT : Runtime}.

  Implicit Types (field : gmap string string) (layout : list (gmap string string)).

Lemma INP_fresh_get (files : list (string * mesh_file)) (file : string) (mf : mesh_file) :
    Forall (fun f => INP_fresh f.2) files -> dict_get file files = Some mf -> INP_fresh mf.
  Proof.
    induction 1 as [|[k v] d Hv _ IH]; simpl; [discriminate|].
    destruct (String.eqb file k); [|exact IH]. now intros [= <-].
  Qed.

Lemma INP_element_calls_snoc file layout field :
    INP_element_calls file (layout ++ [field])
    = (INP_element_calls file layout
       + if negb (INP_is_node field) && INP_on file field then 1 else 0)%nat.
  Proof.
    unfold INP_element_calls. rewrite List.filter_app, length_app. simpl.
    now destruct (negb (INP_is_node field) && INP_on file field).
  Qed.

Lemma INP_inv_step frames idx files layout field st st' :
    Forall (fun f => INP_fresh f.2) files ->
    INP_inv files layout st ->
    INP_replay frames idx field st = Ok st' ->
    INP_inv files (layout ++ [field]) st'.
  Proof.
    intros Hfresh Hinv H. destruct (INP_is_node field) eqn:Hn.
    - (* a NODE directive *)
      destruct (INP_replay_node _ _ _ _ _ Hn H)
        as (Hinc & Hfaces & Hne & Hfiles & file & mf & vertices & Hfile & Hmf & Hv & Hlen & Hnb).
      assert (Hnodes : nb_nodes st' = Z.of_nat (length vertices)).
      { rewrite Hnb. destruct (nb_nodes st =? 0) eqn:E0; simpl; [reflexivity|].
        destruct (INP_incrementing field); [reflexivity|].
        rewrite Hlen. apply Hinv. }
      assert (Hpos : nb_nodes st' <> 0).
      { rewrite Hnodes, Hlen.
        rewrite (inv_files _ _ _ Hinv) in Hmf.
        destruct (dict_get file files) as [mf0|] eqn:Hmf0; [|discriminate].
        injection Hmf as <-. simpl.
        destruct (INP_fresh_get _ _ _ Hfresh Hmf0) as (Hne0 & _).
        destruct (NODE_SECTION mf0); [contradiction|].
        destruct (nb_nodes st =? 0) eqn:E0; simpl; [lia|].
        apply Z.eqb_neq in E0. rewrite (inv_nodes _ _ _ Hinv) in E0.
        destruct (INP_incrementing field); lia. }
      split.
      + intros f. rewrite Hfiles, (inv_files _ _ _ Hinv), INP_element_calls_snoc, Hn.
        simpl. now rewrite Nat.add_0_r.
      + rewrite Hfaces, Hne. apply Hinv.
      + now rewrite Hv.
      + rewrite existsb_app. simpl. rewrite Hn, orb_true_r. simpl.
        now apply Z.eqb_neq.
      + rewrite existsb_app. simpl. rewrite Hn, orb_true_r. discriminate.
      + intros before f after Hl Hf Ha.
        apply snoc_split in Hl as [(-> & -> & ->)|(after' & -> & _)].
        * rewrite Hinc. f_equal. f_equal. rewrite (inv_first _ _ _ Hinv).
          apply negb_involutive.
        * rewrite existsb_app in Ha. simpl in Ha. rewrite Hn in Ha.
          now rewrite orb_true_r in Ha.
    - (* an ELEMENT directive *)
      destruct (INP_replay_element _ _ _ _ _ Hn H)
        as (file & mf & rows & increment & Hfile & Hmf & Hrows & Hinc & _ & Hne
            & Hfiles & Hv & Hinc' & Hnb).
      split.
      + intros f. rewrite Hfiles, INP_element_calls_snoc, Hn. simpl.
        unfold INP_on. rewrite Hfile.
        destruct (String.eqb file f) eqn:E.
        * apply String.eqb_eq in E. subst f. rewrite dict_get_set_eq.
          rewrite (inv_files _ _ _ Hinv) in Hmf.
          destruct (dict_get file files) as [mf0|] eqn:Hmf0; [|discriminate].
          injection Hmf as <-. simpl. f_equal.
          destruct (INP_fresh_get _ _ _ Hfresh Hmf0) as (_ & Hnbs & _).
          unfold INP_advance, INP_used. simpl. f_equal.
          simpl in Hrows. apply list_index_lookup in Hrows; [|lia].
          apply lookup_lt_Some in Hrows. rewrite Nat2Z.id in Hrows.
          rewrite Hnbs, Nat.add_1_r. now apply cursor_step.
        * apply String.eqb_neq in E. rewrite dict_get_set_ne by assumption.
          rewrite (inv_files _ _ _ Hinv). now rewrite Nat.add_0_r.
      + exact Hne.
      + rewrite Hv, Hnb. apply Hinv.
      + rewrite existsb_app. simpl. rewrite Hn, !orb_false_r, Hnb. apply Hinv.
      + rewrite existsb_app. simpl. rewrite Hn, !orb_false_r. intros Hnone.
        rewrite (inv_unset _ _ _ Hinv Hnone) in Hinc. discriminate.
      + intros before f after Hl Hf Ha.
        apply snoc_split in Hl as [(-> & -> & ->)|(after' & -> & ->)].
        * congruence.
        * rewrite Hinc'. eapply (inv_flag _ _ _ Hinv); eauto.
          rewrite existsb_app in Ha. now apply orb_false_iff in Ha as [Ha _].
  Qed.

Lemma INP_inv_all frames idx files layout st :
    Forall (fun f => INP_fresh f.2) files ->
    INP_replay_all frames idx layout (mkINP None None None 0 0 files) = Ok st ->
    INP_inv files layout st.
  Proof.
    intros Hfresh. revert st. induction layout as [|field layout IH] using rev_ind; intros st H.
    - injection H as <-. now apply INP_inv_init.
    - rewrite INP_replay_all_app in H. apply bind_Ok in H as (st1 & H1 & H).
      simpl in H. apply bind_Ok in H as (st2 & H2 & H). injection H as <-.
      eapply INP_inv_step; eauto.
  Qed.

  (** C9, as amended.  When the replay of a layout succeeds, every
      directive of it that is no [*NODE] directive (an [*ELEMENT] one)
      names a data file and appends one element section of that file to
      the face table: the section whose number is the count of the earlier
      [*ELEMENT] directives on the same file, modulo the number of sections
      of the file (sections in order, back to the first after the last).
      A [*NODE] directive precedes it, and the section is offset by the
      running vertex count exactly when the most recent [*NODE] directive
      is not the first one of the layout and has its increment flag on. *)
Theorem INP_round_robin frames idx files before field after st :
    Forall (fun f => INP_fresh f.2) files ->
    INP_is_node field = false ->
    INP_replay_all frames idx (before ++ field :: after)
                   (mkINP None None None 0 0 files) = Ok st ->
    exists st1 st2 file mf rows node earlier later,
      INP_replay_all frames idx before (mkINP None None None 0 0 files) = Ok st1
      /\ INP_replay frames idx field st1 = Ok st2
      /\ field !! "INPUT" = Some file
      /\ dict_get file files = Some mf
      /\ ELEM_SECTIONS mf !! (INP_element_calls file before mod length (ELEM_SECTIONS mf))%nat
         = Some rows
      /\ before = earlier ++ node :: later
      /\ INP_is_node node = true
      /\ existsb INP_is_node later = false
      /\ nb_nodes st1 = Z.of_nat (length (default [] (inp_vertices st1)))
      /\ inp_faces st2
         = Some (default [] (inp_faces st1)
                 ++ (if existsb INP_is_node earlier && INP_incrementing node
                     then np_add rows (nb_nodes st1) else rows)).
  Proof.
    intros Hfresh Hn H.
    rewrite INP_replay_all_app in H. apply bind_Ok in H as (st1 & H1 & H).
    simpl in H. apply bind_Ok in H as (st2 & H2 & _).
    pose proof (INP_inv_all _ _ _ _ _ Hfresh H1) as Hinv.
    destruct (INP_replay_element _ _ _ _ _ Hn H2)
      as (file & mf & rows & increment & Hfile & Hmf & Hrows & Hinc & Hfaces & _).
    rewrite (inv_files _ _ _ Hinv) in Hmf.
    destruct (dict_get file files) as [mf0|] eqn:Hmf0; [|discriminate].
    injection Hmf as <-. simpl in Hrows.
    apply list_index_lookup in Hrows; [|lia]. rewrite Nat2Z.id in Hrows.
    destruct (existsb INP_is_node before) eqn:Hex.
    2:{ rewrite (inv_unset _ _ _ Hinv Hex) in Hinc. discriminate. }
    apply existsb_last in Hex as (earlier & node & later & Hb & Hnode & Hlater).
    rewrite (inv_flag _ _ _ Hinv _ _ _ Hb Hnode Hlater) in Hinc.
    injection Hinc as <-.
    exists st1, st2, file, mf0, rows, node, earlier, later.
    repeat split; auto; [apply Hinv|].
    simpl in Hfaces. rewrite Hfaces. f_equal.
    destruct (nb_elems st1 =? 0) eqn:E; [|reflexivity].
    apply Z.eqb_eq in E. rewrite (inv_elems _ _ _ Hinv) in E.
    destruct (default [] (inp_faces st1)); [reflexivity | simpl in E; lia].
  Qed.

End ReplayInvariant.

(** ** DIODORE: the whole loader *)

Section INPProperties.
  Context `{RT : Runtime}.

  Implicit Types (field : gmap string string) (layout : list (gmap string string)).

  (** A directive of the layout has a type and names a data file. *)
Definition INP_field (field : gmap string string) : Prop :=
    is_Some (field !! "type") /\ is_Some (field !! "INPUT").

Lemma INP_layout_Ok matches layout files layout' files' :
    INP_layout matches layout files = Ok (layout', files') ->
    length layout' = (length layout + length matches)%nat
    /\ (Forall INP_field layout -> Forall INP_field layout')
    /\ exists added, layout' = layout ++ added.
  Proof.
    revert layout files; induction matches as [|m ms IH]; simpl; intros layout files H.
    - injection H as <- <-. split; [lia|]. split; [auto|]. exists []. now rewrite app_nil_r.
    - apply bind_Ok in H as (type & _ & H). apply bind_Ok in H as (g2 & _ & H).
      apply bind_Ok in H as (field_dict & _ & H).
      apply bind_Ok in H as (file & Hfile & H). apply of_option_Ok in Hfile.
      apply bind_Ok in H as (type' & Htype & H). apply of_option_Ok in Htype.
      apply bind_Ok in H as (calls & _ & H).
      apply IH in H as (Hlen & Hall & added & ->).
      rewrite (length_app layout [field_dict]) in Hlen. simpl in Hlen.
      split; [lia|]. split.
      + intros Hl. apply Hall. apply Forall_app. split; [assumption|].
        constructor; [|constructor]. split; eauto.
      + exists (field_dict :: added). now rewrite <- app_assoc.
  Qed.

Lemma INP_read_fresh fs filename file calls mf idx :
    INP_read fs filename file calls = Ok (mf, idx) -> INP_fresh mf.
  Proof.
    unfold INP_read. intros H. apply bind_Ok in H as (data & _ & H).
    destruct (1 <? length _)%nat; [discriminate|].
    apply bind_Ok in H as (section0 & _ & H).
    apply bind_Ok in H as (nodes & _ & H).
    apply bind_Ok in H as (top & Htop & H).
    apply bind_Ok in H as (idx' & _ & H).
    apply bind_Ok in H as (id_new & _ & H).
    apply bind_Ok in H as (id_new' & _ & H).
    apply bind_Ok in H as (sections & _ & H).
    injection H as <- <-. split; [|split; reflexivity]. simpl.
    destruct nodes; [discriminate | discriminate].
  Qed.

Lemma INP_read_all_fresh fs filename todo idx files idx' :
    INP_read_all fs filename todo idx = Ok (files, idx') ->
    Forall (fun f => INP_fresh f.2) files.
  Proof.
    revert idx files idx'; induction todo as [|[file calls] todo IH]; simpl;
      intros idx files idx' H.
    - injection H as <- _. constructor.
    - apply bind_Ok in H as ([mf i] & Hr & H).
      apply bind_Ok in H as ([rest i'] & Hall & H). injection H as <- _.
      constructor; [exact (INP_read_fresh _ _ _ _ _ _ Hr) | eauto].
  Qed.

  (** The stages of a successful call. *)
Lemma load_INP_Ok fs filename name r :
    load_INP fs filename name = Ok r ->
    exists text frames layout files mesh_files idx st vertices faces,
      fs filename = Some text
      /\ INP_frames (re_finditer INP_frame RE_MULTILINE text) ∅ = Ok frames
      /\ INP_layout (re_finditer INP_node_elements RE_MULTILINE text) [] []
         = Ok (layout, files)
      /\ INP_read_all fs filename files None = Ok (mesh_files, idx)
      /\ INP_replay_all frames idx layout (mkINP None None None 0 0 mesh_files) = Ok st
      /\ inp_vertices st = Some vertices
      /\ inp_faces st = Some faces
      /\ r = PlainMesh (mkMesh vertices (np_sub1 faces) name).
  Proof.
    unfold load_INP. intros H.
    apply bind_Ok in H as ([] & _ & H). apply bind_Ok in H as (text & Ht & H).
    apply of_option_Ok in Ht.
    apply bind_Ok in H as (frames & Hf & H).
    apply bind_Ok in H as ([layout files] & Hl & H).
    apply bind_Ok in H as ([mesh_files idx] & Hr & H).
    apply bind_Ok in H as (st & Hs & H).
    apply bind_Ok in H as (vertices & Hv & H). apply of_option_Ok in Hv.
    apply bind_Ok in H as (faces & Hfa & H). apply of_option_Ok in Hfa.
    built H Hmesh. injection H as <-.
    exists text, frames, layout, files, mesh_files, idx, st, vertices, faces.
    repeat split; assumption.
  Qed.

  (** A replay that starts with a directive other than [*NODE] fails: the
      variable [increment] is not assigned yet. *)
Lemma INP_replay_all_element_first frames idx field layout files st :
    INP_is_node field = false ->
    INP_replay_all frames idx (field :: layout) (mkINP None None None 0 0 files) <> Ok st.
  Proof.
    intros Hn H. simpl in H. apply bind_Ok in H as (st1 & H1 & _).
    apply (INP_replay_element _ _ _ _ _ Hn) in H1
      as (_ & _ & _ & inc & _ & _ & _ & Hinc & _).
    discriminate.
  Qed.

  (** C10, as amended.  [load_INP] returns a mesh only if the layout of the
      configuration is not empty and starts with a [*NODE] directive.  With
      an empty layout the call fails with the unbound-variable error on
      [vertices] once the frames are read.  With a layout that starts with
      another directive it fails with the unbound-variable error on
      [increment] once the frames and the data files are read, if the file
      of that directive has a first element section that [np.asarray]
      accepts. *)
Theorem load_INP_needs_node_first fs filename name :
    (forall r,
       load_INP fs filename name = Ok r ->
       exists text layout files field rest,
         fs filename = Some text
         /\ INP_layout (re_finditer INP_node_elements RE_MULTILINE text) [] []
            = Ok (layout, files)
         /\ layout = field :: rest
         /\ INP_is_node field = true)
    /\ (forall text frames files,
          fs filename = Some text ->
          INP_frames (re_finditer INP_frame RE_MULTILINE text) ∅ = Ok frames ->
          INP_layout (re_finditer INP_node_elements RE_MULTILINE text) [] []
          = Ok ([], files) ->
          load_INP fs filename name = Raise (UnboundLocalError "vertices"))
    /\ (forall text frames files field rest mesh_files idx file mf rows elem_section,
          fs filename = Some text ->
          INP_frames (re_finditer INP_frame RE_MULTILINE text) ∅ = Ok frames ->
          INP_layout (re_finditer INP_node_elements RE_MULTILINE text) [] []
          = Ok (field :: rest, files) ->
          INP_is_node field = false ->
          INP_read_all fs filename files None = Ok (mesh_files, idx) ->
          field !! "INPUT" = Some file ->
          dict_get file mesh_files = Some mf ->
          list_index (ELEM_SECTIONS mf) 0 = Ok rows ->
          np_array_int rows = Ok elem_section ->
          load_INP fs filename name = Raise (UnboundLocalError "increment")).
  Proof.
    split; [|split].
    - intros r H.
      apply load_INP_Ok in H
        as (text & frames & layout & files & mesh_files & idx & st & vertices & faces
            & Ht & Hf & Hl & Hr & Hs & Hv & Hfa & ->).
      exists text, layout, files.
      destruct layout as [|field rest].
      + injection Hs as <-. discriminate.
      + exists field, rest. repeat split; auto.
        destruct (INP_is_node field) eqn:Hn; [reflexivity|].
        now apply INP_replay_all_element_first in Hs.
    - intros text frames files Ht Hf Hl.
      pose proof (INP_layout_Ok _ _ _ _ _ Hl) as (Hlen & _).
      simpl in Hlen. destruct (re_finditer INP_node_elements RE_MULTILINE text) eqn:E;
        [|simpl in Hlen; lia].
      simpl in Hl. injection Hl as <-.
      unfold load_INP.
      rewrite (check_file_found _ _ _ Ht), (read_file_found _ _ _ Ht).
      unfold mbind, result_bind. cbn [bind]. rewrite Hf, E. reflexivity.
    - intros text frames files field rest mesh_files idx file mf rows elem_section
             Ht Hf Hl Hn Hr Hfile Hmf Hrows Harr.
      pose proof (INP_layout_Ok _ _ _ _ _ Hl) as (_ & Hfields & _).
      specialize (Hfields ltac:(constructor)).
      inversion Hfields as [|? ? [[type Htype] _] _]; subst.
      pose proof (INP_read_all_fresh _ _ _ _ _ _ Hr) as Hfresh.
      destruct (INP_fresh_get _ _ _ Hfresh Hmf) as (_ & _ & H0).
      unfold load_INP.
      rewrite (check_file_found _ _ _ Ht), (read_file_found _ _ _ Ht).
      unfold mbind, result_bind. cbn [bind]. rewrite Hf. cbn [bind].
      rewrite Hl. cbn [bind]. rewrite Hr. cbn [bind INP_replay_all].
      unfold mbind, result_bind. 
      assert (Hstep : INP_replay frames idx field (mkINP None None None 0 0 mesh_files)
                      = Raise (UnboundLocalError "increment")).
      { unfold INP_replay, INP_is_node in *. rewrite Hfile, Htype in *.
        unfold mbind, result_bind. cbn [bind of_option]. rewrite Hn.
        cbn [inp_files]. rewrite Hmf. cbn [bind of_option].
        rewrite H0, Hrows. cbn [bind]. rewrite Harr. reflexivity. }
      rewrite Hstep. reflexivity.
  Qed.

End INPProperties.

(** ** The loaders that read line by line *)

Section LineLoaders.
  Context `{RT : Runtime}.

  (** The [i]-th line an open file gives: the empty string at its end. *)
Definition line_at (ifile : file) (i : nat) : string := nth i ifile EmptyString.

Lemma readline_spec (ifile : file) :
    readline ifile = (line_at ifile 0, drop 1 ifile).
  Proof. now destruct ifile. Qed.

Lemma line_at_drop (ifile : file) (k i : nat) :
    line_at (drop k ifile) i = line_at ifile (k + i).
  Proof.
    unfold line_at. revert ifile; induction k as [|k IH]; intros ifile; simpl.
    - now rewrite drop_0.
    - destruct ifile as [|l ifile]; simpl; [now destruct i | apply IH].
  Qed.

Lemma read_rows_Ok {A : Type} (conv : string -> result A) (n : nat) (ifile rest : file)
        (rows : list (list A)) :
    read_rows conv n ifile = Ok (rows, rest) ->
    rest = drop n ifile /\ length rows = n
    /\ forall i, (i < n)%nat ->
         exists row, rows !! i = Some row
                     /\ mapM conv (split_ws (line_at ifile i)) = Ok row.
  Proof.
    revert ifile rows rest; induction n as [|n IH]; simpl; intros ifile rows rest H.
    - injection H as <- <-. split; [reflexivity|]. split; [reflexivity|]. lia.
    - rewrite readline_spec in H.
      apply bind_Ok in H as (row & Hrow & H).
      apply bind_Ok in H as ([rows' rest'] & Hrec & H). injection H as <- <-.
      apply IH in Hrec as (-> & Hlen & Hrows).
      split; [now rewrite drop_drop|]. split; [simpl; lia|].
      intros [|i] Hi; simpl.
      + eauto.
      + destruct (Hrows i ltac:(lia)) as (r & Hr & Hc). exists r. split; [assumption|].
        now rewrite line_at_drop in Hc.
  Qed.






  (** The stages of a successful call of [load_NAT] and of [load_NEM]. *)
Lemma load_NAT_Ok fs filename name r :
    load_NAT fs filename name = Ok r ->
    exists data nv nf vrows frows,
      fs filename = Some data
      /\ mapM py_int (split_ws (line_at (open_lines data) 1)) = Ok [nv; nf]
      /\ read_rows py_float (Z.to_nat nv) (drop 2 (open_lines data))
         = Ok (vrows, drop (Z.to_nat nv) (drop 2 (open_lines data)))
      /\ read_rows py_int (Z.to_nat nf) (drop (Z.to_nat nv) (drop 2 (open_lines data)))
         = Ok (frows, drop (Z.to_nat nf) (drop (Z.to_nat nv) (drop 2 (open_lines data))))
      /\ Forall (Forall (fun x => in_int64 x = true)) frows
      /\ r = PlainMesh (mkMesh vrows (np_sub1 frows) name).
  Proof.
    unfold load_NAT. intros H.
    apply bind_Ok in H as ([] & _ & H). apply bind_Ok in H as (data & Hd & H).
    apply of_option_Ok in Hd. rewrite !readline_spec in H.
    apply bind_Ok in H as (counts & Hc & H).
    destruct counts as [|nv [|nf [|]]]; try discriminate.
    apply bind_Ok in H as ([vrows f1] & Hv & H).
    apply bind_Ok in H as (V & HV & H). apply np_array_Ok in HV. subst V.
    apply bind_Ok in H as ([frows f2] & Hf & H).
    apply bind_Ok in H as (F & HF & H). apply np_array_int_Ok in HF as (-> & Hint).
    built H Hmesh. injection H as <-. rewrite drop_drop in Hv.
    pose proof (read_rows_Ok _ _ _ _ _ Hv) as (-> & _).
    pose proof (read_rows_Ok _ _ _ _ _ Hf) as (-> & _).
    exists data, nv, nf, vrows, frows.
    rewrite (line_at_drop _ 1 0) in Hc. repeat split; assumption.
  Qed.

Lemma load_NEM_Ok fs filename name r :
    load_NEM fs filename name = Ok r ->
    exists data nv nf vrows frows,
      fs filename = Some data
      /\ int_of_string (line_at (open_lines data) 0) = Some nv
      /\ int_of_string (line_at (open_lines data) 1) = Some nf
      /\ read_rows py_float (Z.to_nat nv) (drop 2 (open_lines data))
         = Ok (vrows, drop (Z.to_nat nv) (drop 2 (open_lines data)))
      /\ read_rows py_int (Z.to_nat nf) (drop (Z.to_nat nv) (drop 2 (open_lines data)))
         = Ok (frows, drop (Z.to_nat nf) (drop (Z.to_nat nv) (drop 2 (open_lines data))))
      /\ Forall (Forall (fun x => in_int64 x = true)) frows
      /\ r = PlainMesh (mkMesh vrows (np_sub1 frows) name).
  Proof.
    unfold load_NEM. intros H.
    apply bind_Ok in H as ([] & _ & H). apply bind_Ok in H as (data & Hd & H).
    apply of_option_Ok in Hd. rewrite !readline_spec in H.
    apply bind_Ok in H as (nv & Hnv & H). apply of_option_Ok in Hnv.
    apply bind_Ok in H as (nf & Hnf & H). apply of_option_Ok in Hnf.
    apply bind_Ok in H as ([vrows f1] & Hv & H).
    apply bind_Ok in H as (V & HV & H). apply np_array_Ok in HV. subst V.
    apply bind_Ok in H as ([frows f2] & Hf & H).
    apply bind_Ok in H as (F & HF & H). apply np_array_int_Ok in HF as (-> & Hint).
    built H Hmesh. injection H as <-. rewrite drop_drop in Hv.
    pose proof (read_rows_Ok _ _ _ _ _ Hv) as (-> & _).
    pose proof (read_rows_Ok _ _ _ _ _ Hf) as (-> & _).
    exists data, nv, nf, vrows, frows.
    rewrite (line_at_drop _ 1 0) in Hnf. repeat split; assumption.
  Qed.


End LineLoaders.

(** ** The loaders that search sections *)

Section SectionProperties.
  Context `{RT : Runtime}.


Lemma groups_of_Ok (m : option re_match) (g : list string) :
    groups_of m = Ok g -> exists m', m = Some m' /\ groups m' = g.
  Proof. destruct m as [m'|]; simpl; [|discriminate]. intros [= <-]. eauto. Qed.


  (** The stages of a successful call of [load_TEC]. *)
Lemma load_TEC_Ok fs filename name r :
    load_TEC fs filename name = Ok r ->
    exists data m nv nf vertices faces vs fs' V F,
      fs filename = Some data
      /\ re_search TEC_data_pattern RE_MULTILINE data = Some m
      /\ groups m = [nv; nf; vertices; faces]
      /\ mapM py_float (split_ws vertices) = Ok vs
      /\ (nv' ← py_int nv; np_reshape vs nv' (-1)) = Ok V
      /\ mapM py_int (split_ws faces) = Ok fs'
      /\ Forall (fun x => in_int64 x = true) fs'
      /\ (nf' ← py_int nf; np_reshape fs' nf' 4) = Ok F
      /\ r = PlainMesh (mkMesh (map (take 3) V) (np_sub1 F) name).
  Proof.
    unfold load_TEC. intros H.
    apply bind_Ok in H as ([] & _ & H). apply bind_Ok in H as (data & Hd & H).
    apply of_option_Ok in Hd.
    apply bind_Ok in H as (g & Hg & H). apply groups_of_Ok in Hg as (m & Hm & <-).
    destruct (groups m) as [|nv [|nf [|vertices [|faces [|]]]]] eqn:Hgm; try discriminate.
    apply bind_Ok in H as (nv' & Hnv & H). apply bind_Ok in H as (nf' & Hnf & H).
    apply bind_Ok in H as (vs & Hvs & H). apply bind_Ok in H as (V & HV & H).
    apply bind_Ok in H as (fs' & Hfs & H). apply bind_Ok in H as (fs'' & Hfs' & H).
    unfold np_array1_int in Hfs'.
    destruct (forallb in_int64 fs') eqn:Hint; [|discriminate]. injection Hfs' as <-.
    apply bind_Ok in H as (F & HF & H). built H Hmesh. injection H as <-.
    exists data, m, nv, nf, vertices, faces, vs, fs', V, F.
    rewrite Hnv, Hnf. simpl. repeat split; auto.
    apply Forall_forall. intros x Hx. apply list_elem_of_In in Hx.
    rewrite forallb_forall in Hint. auto.
  Qed.






End SectionProperties.

(** ** The table of the HydroSTAR loader *)



Section HydroSTARTable.
  Context `{RT : Runtime}.





End HydroSTARTable.

(** ** Zero-based face tables *)




Lemma mapM_Ok_image {A B : Type} (f : A -> result B) (l : list A) (bs : list B) :
  mapM f l = Ok bs -> Forall (fun b => exists a, In a l /\ f a = Ok b) bs.
Proof.
  revert bs; induction l as [|a l IH]; simpl; intros bs H.
  - injection H as <-. constructor.
  - apply bind_Ok in H as (b & Hb & H). apply bind_Ok in H as (bs' & Hbs & H).
    injection H as <-. constructor; [eauto|].
    eapply Forall_impl; [exact (IH _ Hbs)|]. intros x (a' & ? & ?). eauto.
Qed.

(** A row is closed as a triangle: four entries, the last one repeating
    the first. *)
Definition closed_triangle (row : list Z) : Prop :=
  length row = 4%nat /\ row !! 3%nat = row !! 0%nat.


Section INPRows.
  Context `{RT : Runtime}.

  (** What [INP_elem] returns: the node numbers after the element number,
      looked up in [id_new]; three of them give a closed triangle. *)
Lemma INP_elem_Ok id_new line row :
    INP_elem id_new line = Ok row ->
    exists tokens refs,
      mapM py_int (split_ws line) = Ok tokens
      /\ np_take id_new (slice_from 1 tokens) = Ok refs
      /\ length refs = length (slice_from 1 (split_ws line))
      /\ (forall j x, slice_from 1 tokens !! j = Some x ->
                      exists k, np_index (length id_new) x = Ok k
                                /\ id_new !! k = row !! j)
      /\ (length refs = 3%nat -> closed_triangle row)
      /\ (length refs <> 3%nat -> row = refs).
  Proof.
    unfold INP_elem. intros H.
    apply bind_Ok in H as (tokens & Ht & H). apply bind_Ok in H as (refs & Hr & H).
    injection H as <-. exists tokens, refs.
    pose proof (mapM_Ok_length _ _ _ Ht) as Hlt.
    pose proof (mapM_Ok_length _ _ _ Hr) as Hlr.
    split; [assumption|]. split; [assumption|]. split.
    { rewrite Hlr. unfold slice_from. rewrite !length_drop. lia. }
    split.
    { intros j x Hj. unfold np_take in Hr.
      destruct (mapM_Ok_lookup _ _ _ Hr _ _ Hj) as (b & Hb & Hx).
      apply bind_Ok in Hx as (k & Hk & Hx). apply of_option_Ok in Hx.
      exists k. split; [assumption|]. rewrite Hx.
      destruct (Nat.eqb (length refs) 3); [|now rewrite Hb].
      rewrite lookup_app_l; [now rewrite Hb|]. eapply lookup_lt_Some; eauto. }
    split.
    - intros H3. rewrite H3. simpl.
      destruct refs as [|a [|b [|c [|]]]]; try discriminate. split; reflexivity.
    - intros H3. apply Nat.eqb_neq in H3. now rewrite H3.
  Qed.










End INPRows.

Section INPRenumbering.
  Context `{RT : Runtime}.

Lemma np_index_nonneg (n : nat) (i : Z) (k : nat) :
    0 <= i -> np_index n i = Ok k -> k = Z.to_nat i /\ (k < n)%nat.
  Proof.
    intros Hi. unfold np_index.
    destruct ((0 <=? i) && (i <? Z.of_nat n)) eqn:E.
    - intros [= <-]. apply andb_true_iff in E as [_ E]. apply Z.ltb_lt in E. lia.
    - destruct ((- Z.of_nat n <=? i) && (i <? 0)) eqn:E'; [|discriminate].
      apply andb_true_iff in E' as [_ E']. apply Z.ltb_lt in E'. lia.
  Qed.

Lemma INP_renumber_other i idx_array id_new res (p : nat) :
    INP_renumber i idx_array id_new = Ok res ->
    Forall (fun idx => 0 <= idx) idx_array ->
    (forall idx, In idx idx_array -> Z.to_nat idx <> p) ->
    length res = length id_new /\ res !! p = id_new !! p.
  Proof.
    revert i id_new; induction idx_array as [|idx0 rest IH]; simpl; intros i id_new H Hpos Hp.
    - now injection H as <-.
    - apply bind_Ok in H as (k & Hk & H). inversion Hpos as [|? ? H0 Hrest]; subst.
      apply np_index_nonneg in Hk as [-> Hlt]; [|assumption].
      apply IH in H as [Hlen Hres]; [|assumption|auto].
      rewrite length_insert in Hlen. split; [assumption|].
      rewrite Hres. apply list_lookup_insert_ne. auto.
  Qed.

  (** The renumbering table: the node whose number stands at position [j]
      of the node lines (counting from 0) is given the number [j + 1], when
      the node numbers are distinct and not negative. *)
Lemma INP_renumber_position i idx_array id_new res :
    INP_renumber i idx_array id_new = Ok res ->
    Forall (fun idx => 0 <= idx) idx_array ->
    NoDup idx_array ->
    forall j idx, idx_array !! j = Some idx ->
                  res !! Z.to_nat idx = Some (i + Z.of_nat j + 1).
  Proof.
    revert i id_new; induction idx_array as [|idx0 rest IH]; simpl;
      intros i id_new H Hpos Hnd j idx Hj; [discriminate|].
    apply bind_Ok in H as (k & Hk & H). inversion Hpos as [|? ? H0 Hrest]; subst.
    apply NoDup_cons in Hnd as [Hnotin Hnd].
    apply np_index_nonneg in Hk as [-> Hlt]; [|assumption].
    destruct j as [|j]; simpl in Hj.
    - injection Hj as <-.
      apply INP_renumber_other with (p := Z.to_nat idx0) in H as [_ ->]; [|assumption|].
      + rewrite list_lookup_insert_eq by assumption. f_equal. lia.
      + intros idx Hin Heq. apply Hnotin. apply list_elem_of_In.
        assert (0 <= idx) by (eapply Forall_forall in Hrest; [eassumption|];
                              now apply list_elem_of_In).
        replace idx0 with idx by lia. assumption.
    - rewrite (IH _ _ H Hrest Hnd j idx Hj). f_equal. lia.
  Qed.

  (** The stages of the reading of one data file. *)
Lemma INP_read_Ok fs filename file calls mf idx :
    INP_read fs filename file calls = Ok (mf, idx) ->
    exists data section0 nodes top id_new,
      fs (path_join (dirname filename) (file +:+ ".DAT")) = Some data
      /\ re_findall INP_node_section RE_MULTILINE data = [section0]
      /\ mapM INP_node (re_findall INP_node_line RE_MULTILINE section0) = Ok nodes
      /\ NODE_SECTION mf = map snd nodes
      /\ last (map fst nodes) = Some idx
      /\ py_max (map fst nodes) = Ok top
      /\ INP_renumber 0 (map fst nodes) (replicate (Z.to_nat (top + 1)) (-1)) = Ok id_new
      /\ mapM (fun elem_section =>
                 mapM (INP_elem id_new)
                      (re_findall INP_elem_line RE_MULTILINE elem_section))
              (re_findall INP_elem_section RE_MULTILINE data) = Ok (ELEM_SECTIONS mf).
  Proof.
    unfold INP_read. intros H. apply bind_Ok in H as (data & Hd & H).
    apply of_option_Ok in Hd.
    destruct (1 <? length _)%nat eqn:Hone; [discriminate|].
    apply bind_Ok in H as (section0 & Hs0 & H).
    apply bind_Ok in H as (nodes & Hn & H).
    apply bind_Ok in H as (top & Htop & H).
    apply bind_Ok in H as (idx' & Hidx & H).
    apply bind_Ok in H as (id0 & Hid0 & H).
    apply bind_Ok in H as (id_new & Hre & H).
    apply bind_Ok in H as (sections & Hsec & H).
    injection H as <- <-.
    exists data, section0, nodes, top, id_new. simpl.
    destruct (top + 1 <? 0); [discriminate|]. injection Hid0 as <-.
    repeat split; auto.
    - apply Nat.ltb_ge in Hone.
      destruct (re_findall INP_node_section RE_MULTILINE data) as [|s [|]];
        simpl in *; try lia; [discriminate|].
      unfold list_index in Hs0. simpl in Hs0. now injection Hs0 as <-.
    - unfold list_index in Hidx. revert Hidx.
      generalize (map fst nodes). intros l.
      destruct ((0 <=? -1) && _) eqn:E; [discriminate|].
      destruct ((- Z.of_nat (length l) <=? -1) && (-1 <? 0)) eqn:E'; [|discriminate].
      rewrite of_option_Ok. intros Hl. rewrite last_lookup.
      rewrite <- Hl. f_equal. apply andb_true_iff in E' as [E' _].
      apply Z.leb_le in E'. lia.
  Qed.

End INPRenumbering.

(** ** DIODORE: where the rows of the face table come from *)

Section INPProvenance.
  Context `{RT : Runtime}.






End INPProvenance.

(** ** Triangles *)

Section Triangles.
  Context `{RT : Runtime}.









End Triangles.

(** ** Zero-based numbering *)

Section ZeroBased.
  Context `{RT : Runtime}.



End ZeroBased.

(** ** Missing regions and tokens that are no numbers *)


Section MissingRegions.
  Context `{RT : Runtime}.








  (** *** The Mesh tool of Nemoh *)



  (** *** Nemoh *)



  (** *** WAMIT GDF *)










End MissingRegions.

(** * The loaders on concrete files, with the reference runtime *)

(** A point with integer coordinates. *)
Definition pt (x y z : Z) : list Q := [inject_Z x; inject_Z y; inject_Z z].

(** ** Dispatcher *)

Definition some_disk : filesystem :=
  disk [("mesh.gdf", text_of ["box"; "1.0 9.81"; "0 0"; "1";
                              "0.0 0.0 0.0"; "1.0 0.0 0.0"; "1.0 1.0 0.0"; "0.0 1.0 0.0"]);
        ("mesh.foo", "anything")].

Lemma load_mesh_errors_witness :
  load_mesh (RT := reference) some_disk "/nonexistent" (Some "gdf") None
  = Raise (IOError "file /nonexistent not found")
  /\ load_mesh (RT := reference) some_disk "mesh.foo" None None
     = Raise (IOError (unknown_extension "foo"))
  /\ contains "foo" (unknown_extension "foo") = true.
Proof.
  split.
  - apply (load_mesh_errors (RT := reference) some_disk "/nonexistent" (Some "gdf") None).
    reflexivity.
  - apply (proj2 (load_mesh_errors (RT := reference) some_disk "mesh.foo" None None)
             "anything" "foo"); reflexivity.
Defined.

Definition GDF_box_mesh : loaded Q :=
  PlainMesh (mkMesh [pt 0 0 0; pt 1 0 0; pt 1 1 0; pt 0 1 0] [[0; 1; 2; 3]] None).

Lemma load_mesh_alias_witness :
  load_mesh (RT := reference) some_disk "mesh.gdf" (Some "wamit") None = Ok GDF_box_mesh
  /\ load_mesh (RT := reference) some_disk "mesh.gdf" None None = Ok GDF_box_mesh.
Proof.
  assert (H : load_GDF (RT := reference) some_disk "mesh.gdf" None = Ok GDF_box_mesh)
    by (vm_compute; reflexivity).
  destruct (proj1 (proj2 (proj2 (load_mesh_alias (RT := reference) some_disk "mesh.gdf"
                                                 None))) eq_refl)
    as (_ & _ & Hexplicit & Hinferred).
  split; [exact (eq_trans Hexplicit H) | exact (eq_trans Hinferred H)].
Defined.

(** ** WAMIT GDF *)

Definition GDF_two_faces : string :=
  text_of ["two faces"; "1.0 9.81"; "0 0"; "2";
           "0.0 0.0 0.0"; "1.0 0.0 0.0"; "1.0 1.0 0.0"; "0.0 1.0 0.0";
           "1.0 0.0 0.0"; "2.0 0.0 0.0"; "2.0 1.0 0.0"; "1.0 1.0 0.0"].

Definition GDF_two_faces_mesh : loaded Q :=
  PlainMesh (mkMesh [pt 0 0 0; pt 1 0 0; pt 1 1 0; pt 0 1 0;
                     pt 1 0 0; pt 2 0 0; pt 2 1 0; pt 1 1 0]
                    [[0; 1; 2; 3]; [4; 5; 6; 7]] None).

Lemma load_GDF_fresh_vertices_witness :
  load_GDF (RT := reference) (disk [("two.gdf", GDF_two_faces)]) "two.gdf" None
  = Ok GDF_two_faces_mesh
  /\ exists data nf,
       disk [("two.gdf", GDF_two_faces)] "two.gdf" = Some data
       /\ GDF_declared data = Some nf
       /\ Z.of_nat (length (loaded_vertices GDF_two_faces_mesh)) = 4 * nf
       /\ Z.of_nat (length (loaded_faces GDF_two_faces_mesh)) = nf
       /\ (forall k, (k < length (loaded_faces GDF_two_faces_mesh))%nat ->
                     loaded_faces GDF_two_faces_mesh !! k = Some (GDF_face k))
       /\ (forall fs' data' line,
             fs' "two.gdf" = Some data' ->
             open_lines data' = <[1%nat := line]> (open_lines data) ->
             (2 <= length (split_ws line))%nat ->
             load_GDF (RT := reference) fs' "two.gdf" None = Ok GDF_two_faces_mesh).
Proof.
  assert (H : load_GDF (RT := reference) (disk [("two.gdf", GDF_two_faces)]) "two.gdf" None
              = Ok GDF_two_faces_mesh) by (vm_compute; reflexivity).
  split; [exact H|].
  exact (load_GDF_fresh_vertices (RT := reference) _ _ _ _ H).
Defined.

(** ** Nemoh *)

Definition MAR_half : string :=
  text_of ["0 1";
           "1 0.0 0.0 0.0"; "2 1.0 0.0 0.0"; "3 1.0 0.0 -1.0"; "4 0.0 0.0 -1.0";
           "0 0.0 0.0 0.0";
           "1 2 3 4";
           "0 0 0 0"].

Definition MAR_half_mesh : loaded Q :=
  ReflectionSymmetricMesh
    (mkMesh [pt 0 0 0; pt 1 0 0; pt 1 0 (-1); pt 0 0 (-1)] [[0; 1; 2; 3]] None)
    xOz_Plane None.

Lemma load_MAR_symmetry_witness :
  load_MAR (RT := reference) (disk [("half.mar", MAR_half)]) "half.mar" None
  = Ok MAR_half_mesh
  /\ exists data t0 symmetric_mesh flag,
       disk [("half.mar", MAR_half)] "half.mar" = Some data
       /\ split_ws (hd EmptyString (open_lines data)) = [t0; symmetric_mesh]
       /\ int_of_string symmetric_mesh = Some flag
       /\ length (loaded_vertices MAR_half_mesh)
          = MAR_rows_before_sentinel (tl (open_lines data))
       /\ (flag = 1 ->
           exists half_mesh, MAR_half_mesh = ReflectionSymmetricMesh half_mesh xOz_Plane None)
       /\ (flag <> 1 -> exists m, MAR_half_mesh = PlainMesh m /\ name m = None).
Proof.
  assert (H : load_MAR (RT := reference) (disk [("half.mar", MAR_half)]) "half.mar" None
              = Ok MAR_half_mesh) by (vm_compute; reflexivity).
  split; [exact H|].
  exact (load_MAR_symmetry (RT := reference) _ _ _ _ H).
Defined.

(** ** HydroSTAR *)






(** ** DIODORE *)

(** A data file whose nodes are numbered 10, 20 and 30, with one element
    section of a triangle and a quadrangle. *)
Definition DAT_10_20_30 : string :=
  text_of [" 10 0.0 0.0 0.0"; " 20 1.0 0.0 0.0"; " 30 1.0 1.0 0.0";
           "   1 10 20 30"; "   2 10 20 30 10"].

Definition INP_node_element : string :=
  text_of ["*FRAME,NAME=F1"; "0.0,0.0,1.0"; "*NODE,INPUT=A,FRAME=F1"; "*ELEMENT,INPUT=A"].

Definition INP_disk (configuration data : string) : filesystem :=
  disk [("d/c.inp", configuration); ("d/A.DAT", data)].




(** The first [*NODE] directive has its increment flag on, and the element
    section that follows is not offset. *)
Definition INP_increment_first : string :=
  text_of ["*FRAME,NAME=F1"; "0.0,0.0,1.0";
           "*NODE,INPUT=A,FRAME=F1,INCREMENT=YES"; "*ELEMENT,INPUT=A"].

Lemma first_node_never_offsets :
  (exists layout files node,
     INP_layout (@re_finditer reference INP_node_elements RE_MULTILINE
                             INP_increment_first) [] [] = Ok (layout, files)
     /\ layout !! 0%nat = Some node
     /\ INP_is_node node = true
     /\ INP_incrementing node = true)
  /\ load_INP (RT := reference) (INP_disk INP_increment_first DAT_10_20_30) "d/c.inp" None
     = Ok (PlainMesh (mkMesh [pt 0 0 1; pt 1 0 1; pt 1 1 1] [[0; 1; 2; 0]; [0; 1; 2; 0]] None)).
Proof.
  split; [|vm_compute; reflexivity].
  eexists _, _, _. split; [vm_compute; reflexivity|].
  split; [reflexivity|]. split; vm_compute; reflexivity.
Qed.

(** A configuration that starts with an [*ELEMENT] directive on a data
    file without element section: the error is an index error. *)
Definition DAT_nodes_only : string :=
  text_of [" 1 0.0 0.0 0.0"; " 2 1.0 0.0 0.0"; " 3 1.0 1.0 0.0"].

Lemma element_first_index_error :
  load_INP (RT := reference) (INP_disk (text_of ["*ELEMENT,INPUT=A"]) DAT_nodes_only)
           "d/c.inp" None
  = Raise IndexError.
Proof. vm_compute. reflexivity. Qed.

(** A data file of three nodes numbered 1, 2, 3 and one triangle, and a
    configuration that reads its nodes twice. *)
Definition DAT_1_2_3 : string :=
  text_of [" 1 0.0 0.0 0.0"; " 2 1.0 0.0 0.0"; " 3 1.0 1.0 0.0"; "   1 1 2 3"].

Definition INP_overwrite : string :=
  text_of ["*FRAME,NAME=F1"; "0.0,0.0,0.0"; "*FRAME,NAME=F2"; "0.0,0.0,1.0";
           "*NODE,INPUT=A,FRAME=F1"; "*ELEMENT,INPUT=A"; "*NODE,INPUT=A,FRAME=F2"].

(** C1. A second [*NODE] directive with the increment flag off does not
    replace the vertex table by the new node section: on a data file of
    three nodes numbered 1, 2, 3 the replay raises an index error
    ([vertices[3, :]] on a table of three rows), where the same
    configuration without the second directive returns the mesh. *)
Lemma load_INP_overwrite_fails :
  load_INP (RT := reference) (INP_disk INP_overwrite DAT_1_2_3) "d/c.inp" None
  = Raise IndexError
  /\ load_INP (RT := reference)
              (INP_disk (text_of ["*FRAME,NAME=F1"; "0.0,0.0,0.0";
                                  "*NODE,INPUT=A,FRAME=F1"; "*ELEMENT,INPUT=A"])
                        DAT_1_2_3) "d/c.inp" None
     = Ok (PlainMesh (mkMesh [pt 0 0 0; pt 1 0 0; pt 1 1 0] [[0; 1; 2; 0]] None)).
Proof. vm_compute. split; reflexivity. Qed.

(** A data file of two element sections, replayed by one [*NODE] and three
    [*ELEMENT] directives: the third one takes the first section again. *)
Definition RR_frames : gmap string (list Q) := {[ "F" := pt 0 0 0 ]}.
Definition RR_file : @mesh_file reference :=
  mkMeshFile (mkCalls 1 3) [pt 0 0 0; pt 1 0 0; pt 1 1 0]
             [[[1; 2; 3; 1]]; [[3; 2; 1; 3]]] 2 0.
Definition RR_node : gmap string string :=
  list_to_map [("type", "NODE"); ("INCREMENT", "NO"); ("INPUT", "A"); ("FRAME", "F")].
Definition RR_element : gmap string string :=
  list_to_map [("type", "ELEMENT"); ("INPUT", "A")].

Lemma INP_round_robin_witness :
  exists st1 st2 file mf rows node earlier later,
    INP_replay_all (RT := reference) RR_frames (Some 3)
                   [RR_node; RR_element; RR_element]
                   (mkINP None None None 0 0 [("A", RR_file)]) = Ok st1
    /\ INP_replay RR_frames (Some 3) RR_element st1 = Ok st2
    /\ RR_element !! "INPUT" = Some file
    /\ dict_get file [("A", RR_file)] = Some mf
    /\ ELEM_SECTIONS mf
         !! (INP_element_calls file [RR_node; RR_element; RR_element]
             mod length (ELEM_SECTIONS mf))%nat = Some rows
    /\ [RR_node; RR_element; RR_element] = earlier ++ node :: later
    /\ INP_is_node node = true
    /\ existsb INP_is_node later = false
    /\ nb_nodes st1 = Z.of_nat (length (default [] (inp_vertices st1)))
    /\ inp_faces st2
       = Some (default [] (inp_faces st1)
               ++ (if existsb INP_is_node earlier && INP_incrementing node
                   then np_add rows (nb_nodes st1) else rows)).
Proof.
  assert (Hfresh : Forall (fun f : string * @mesh_file reference => INP_fresh f.2)
                          [("A", RR_file)]).
  { constructor; [|constructor]. repeat split; discriminate || reflexivity. }
  assert (Hnode : INP_is_node RR_element = false) by (vm_compute; reflexivity).
  assert (Hreplay : exists st,
             INP_replay_all (RT := reference) RR_frames (Some 3)
               ([RR_node; RR_element; RR_element] ++ RR_element :: [])
               (mkINP None None None 0 0 [("A", RR_file)]) = Ok st).
  { eexists. reflexivity. }
  destruct Hreplay as [st Hst].
  exact (INP_round_robin (RT := reference) RR_frames (Some 3) [("A", RR_file)]
                         [RR_node; RR_element; RR_element] RR_element [] st
                         Hfresh Hnode Hst).
Defined.

(** Closes an equation whose left-hand side is closed by evaluating that
    side only; the type of the equation is left as it stands. *)
Ltac by_evaluation :=
  lazymatch goal with
  | |- ?l = ?r =>
      let v := eval vm_compute in l in
      unify r v; vm_cast_no_check (@eq_refl _ v)
  end.

(** A configuration without directive, and the configurations above. *)
Lemma load_INP_needs_node_first_witness :
  load_INP (RT := reference) (INP_disk (text_of ["no directive"]) DAT_10_20_30)
           "d/c.inp" None
  = Raise (UnboundLocalError "vertices")
  /\ load_INP (RT := reference) (INP_disk (text_of ["*ELEMENT,INPUT=A"]) DAT_10_20_30)
              "d/c.inp" None
     = Raise (UnboundLocalError "increment")
  /\ exists text layout files field rest,
       INP_disk INP_node_element DAT_10_20_30 "d/c.inp" = Some text
       /\ INP_layout (@re_finditer reference INP_node_elements RE_MULTILINE text) [] []
          = Ok (layout, files)
       /\ layout = field :: rest
       /\ INP_is_node field = true.
Proof.
  split; [|split].
  - eapply (proj1 (proj2 (load_INP_needs_node_first (RT := reference) _ "d/c.inp" None)));
      by_evaluation.
  - eapply (proj2 (proj2 (load_INP_needs_node_first (RT := reference) _ "d/c.inp" None)));
      by_evaluation.
  - eapply (proj1 (load_INP_needs_node_first (RT := reference) _ "d/c.inp" None)).
    by_evaluation.
Defined.

(** * Further properties of the loaders *)

(** ** The registry *)

Section Registry.
  Context `{RT : Runtime}.

(** The loaders that start with [_check_file]. *)
Lemma loaders_check_file (fs : filesystem) (filename : string) (name : option string) :
    fs filename = None ->
    Forall (fun reader : loader =>
              reader fs filename name
              = Raise (IOError ("file " +:+ filename +:+ " not found")))
           [load_MAR; load_GDF; load_INP; load_DAT; load_HST; load_NAT; load_MSH;
            load_RAD; load_VTU; load_VTP; load_VTK; load_TEC; load_WRL; load_NEM].
  Proof.
    intros H. pose proof (check_file_missing _ _ H) as Hc.
    repeat constructor;
      unfold load_MAR, load_GDF, load_INP, load_DAT, load_HST, load_NAT, load_MSH,
        load_RAD, load_VTU, load_VTP, load_VTK, load_with, load_TEC,
        load_WRL, load_NEM;
      rewrite Hc; reflexivity.
  Qed.

(** [load_STL] imports [vtk] and [.tools] before it checks the file. *)
Lemma load_STL_missing (fs : filesystem) (filename : string) (name : option string) :
    fs filename = None ->
    load_STL fs filename name
    = if importable "vtk"
      then if importable "capytaine.io.tools"
           then Raise (IOError ("file " +:+ filename +:+ " not found"))
           else Raise (ModuleNotFoundError "capytaine.io.tools")
      else Raise (ModuleNotFoundError "vtk").
  Proof.
    intros H. unfold load_STL, import_module. rewrite (check_file_missing _ _ H).
    destruct (importable "vtk"); [|reflexivity].
    destruct (importable "capytaine.io.tools"); reflexivity.
  Qed.

(** [load_MED] tries to import [h5py] before it checks the file. *)
Lemma load_MED_missing (fs : filesystem) (filename : string) (name : option string) :
    fs filename = None ->
    load_MED fs filename name
    = if importable "h5py"
      then Raise (IOError ("file " +:+ filename +:+ " not found"))
      else Raise (ImportError h5py_missing).
  Proof.
    intros H. unfold load_MED. rewrite (check_file_missing _ _ H).
    destruct (importable "h5py"); reflexivity.
  Qed.

(** X1. Called directly on a path that is no file, every reader of the
    registry fails, whatever the name.  For every keyword but [stl], [med],
    [salome], [vrml] and [wrl] the error is the one of [_check_file], the
    first statement of the reader.  [load_STL] imports [vtk] and [.tools]
    first and [load_MED] tries [h5py] first: a missing library gives the
    import error, and the error of [_check_file] comes when the imports go
    through.  ([load_WRL] imports [vtk] first as well.) *)
Theorem registry_checks_file (fs : filesystem) (filename : string)
          (name : option string) (keyword : string) (reader : loader) :
    extension_dict !! keyword = Some reader ->
    fs filename = None ->
    is_ok (reader fs filename name) = false
    /\ (~ In keyword ["stl"; "med"; "salome"; "vrml"; "wrl"] ->
        reader fs filename name = Raise (IOError ("file " +:+ filename +:+ " not found")))
    /\ (keyword = "stl" ->
        reader fs filename name
        = if importable "vtk"
          then if importable "capytaine.io.tools"
               then Raise (IOError ("file " +:+ filename +:+ " not found"))
               else Raise (ModuleNotFoundError "capytaine.io.tools")
          else Raise (ModuleNotFoundError "vtk"))
    /\ (In keyword ["med"; "salome"] ->
        reader fs filename name
        = if importable "h5py"
          then Raise (IOError ("file " +:+ filename +:+ " not found"))
          else Raise (ImportError h5py_missing)).
  Proof.
    intros Hk Hf. pose proof (loaders_check_file fs filename name Hf) as Hall.
    pose proof (load_STL_missing fs filename name Hf) as Hstl.
    pose proof (load_MED_missing fs filename name Hf) as Hmed.
    rewrite Forall_forall in Hall.
    assert (Hcases : reader = load_STL /\ keyword = "stl"
                     \/ reader = load_MED /\ In keyword ["med"; "salome"]
                     \/ (reader fs filename name
                         = Raise (IOError ("file " +:+ filename +:+ " not found"))
                         /\ keyword <> "stl" /\ ~ In keyword ["med"; "salome"])).
    { clear Hstl Hmed Hf. unfold extension_dict in Hk.
      apply elem_of_list_to_map_2 in Hk.
      repeat (apply elem_of_cons in Hk as [Hk|Hk];
              [injection Hk as -> ->;
               first [ left; split; [reflexivity|reflexivity]
                     | right; left; split; [reflexivity|simpl; tauto]
                     | right; right; split;
                       [apply Hall; repeat ((left; reflexivity) || right)
                       |split; [discriminate|intros [E|[E|[]]]; discriminate E]] ]|]).
      now apply elem_of_nil in Hk. }
    destruct Hcases as [[-> ->]|[[-> Hin]|(Hio & Hne & Hnin)]].
    - split.
      { rewrite Hstl. destruct (importable "vtk");
          [destruct (importable "capytaine.io.tools")|]; reflexivity. }
      split; [intros H; exfalso; apply H; simpl; tauto|].
      split; [auto|]. intros [E|[E|[]]]; discriminate E.
    - split; [rewrite Hmed; destruct (importable "h5py"); reflexivity|].
      split; [intros H; exfalso; apply H; simpl in *; tauto|].
      split; [|auto]. intros ->. destruct Hin as [E|[E|[]]]; discriminate E.
    - split; [now rewrite Hio|]. split; [auto|]. split; [contradiction|contradiction].
  Qed.

End Registry.

(** ** The extension of a file name *)

Definition str_len (s : string) : Z := Z.of_nat (String.length s).

(** No character of [s] is [c]. *)
Fixpoint without (c : ascii) (s : string) : bool :=
  match s with
  | EmptyString => true
  | String x s' => negb (Ascii.eqb x c) && without c s'
  end.

Lemma append_String (x : ascii) (s t : string) : String x s +:+ t = String x (s +:+ t).
Proof. reflexivity. Qed.

Lemma rfind_from_app (c : ascii) (s t : string) (i last : Z) :
  rfind_from c i last (s +:+ t) = rfind_from c (i + str_len s) (rfind_from c i last s) t.
Proof.
  revert i last. induction s as [|x s IH]; intros i last.
  - simpl. unfold str_len. simpl. now rewrite Z.add_0_r.
  - rewrite append_String. cbn [rfind_from]. rewrite IH. f_equal.
    unfold str_len. cbn [String.length]. lia.
Qed.

Lemma rfind_from_without (c : ascii) (s : string) (i last : Z) :
  without c s = true -> rfind_from c i last s = last.
Proof.
  revert i last. induction s as [|x s IH]; intros i last H; [reflexivity|].
  simpl in H. apply andb_true_iff in H as [Hx Hs]. apply negb_true_iff in Hx.
  cbn [rfind_from]. rewrite Hx. now apply IH.
Qed.

Lemma rfind_from_bound (c : ascii) (s : string) (i last : Z) :
  last < i -> rfind_from c i last s < i + str_len s.
Proof.
  revert i last. induction s as [|x s IH]; intros i last H.
  - unfold str_len. simpl. lia.
  - cbn [rfind_from]. unfold str_len in *. cbn [String.length].
    specialize (IH (i + 1) (if Ascii.eqb x c then i else last)).
    destruct (Ascii.eqb x c); lia.
Qed.

Lemma str_take_app (s t : string) : str_take (str_len s) (s +:+ t) = s.
Proof.
  unfold str_take, str_len. rewrite Nat2Z.id.
  induction s as [|x s IH]; [now destruct t|].
  rewrite append_String. cbn. f_equal. exact IH.
Qed.

Lemma str_drop_app (s t : string) : str_drop (str_len s) (s +:+ t) = t.
Proof.
  unfold str_drop, str_len. rewrite Nat2Z.id.
  induction s as [|x s IH].
  - simpl. rewrite drop_0. apply string_of_list_ascii_of_string.
  - rewrite append_String. cbn. exact IH.
Qed.

Lemma lstrip_by_none (p : ascii -> bool) (s : string) :
  forallb (fun x => negb (p x)) (list_ascii_of_string s) = true -> lstrip_by p s = s.
Proof.
  destruct s as [|x s]; [reflexivity|]. simpl. intros H.
  apply andb_true_iff in H as [Hx _]. apply negb_true_iff in Hx. now rewrite Hx.
Qed.

Lemma strip_by_none (p : ascii -> bool) (s : string) :
  forallb (fun x => negb (p x)) (list_ascii_of_string s) = true -> strip_by p s = s.
Proof.
  intros H. unfold strip_by. rewrite (lstrip_by_none p s H).
  rewrite lstrip_by_none.
  - rewrite list_ascii_of_string_of_list_ascii, rev_involutive.
    apply string_of_list_ascii_of_string.
  - rewrite list_ascii_of_string_of_list_ascii.
    rewrite forallb_forall in *. intros x Hx. apply H. now apply in_rev.
Qed.

Lemma without_forallb (c : ascii) (s : string) :
  without c s = true ->
  forallb (fun x => negb (Ascii.eqb c x)) (list_ascii_of_string s) = true.
Proof.
  induction s as [|x s IH]; [reflexivity|]. simpl. intros H.
  apply andb_true_iff in H as [Hx Hs]. rewrite (Ascii.eqb_sym c x), Hx. now apply IH.
Qed.

Section Extension.
  Context `{RT : Runtime}.

Lemma resolve_format_inferred (stem ext : string) :
    without "." ext = true ->
    without "/" ext = true ->
    existsb (fun x => negb (Ascii.eqb x "."))
            (list_ascii_of_string (str_drop (rfind "/" stem + 1) stem)) = true ->
    resolve_format (stem +:+ "." +:+ ext) None = ext.
  Proof.
    intros Hdot Hsep Hstem.
    unfold resolve_format, splitext, rfind.
    rewrite !rfind_from_app. rewrite !Z.add_0_l.
    change ("." +:+ ext) with (String "." ext). cbn [rfind_from].
    change (Ascii.eqb "." "/") with false. change (Ascii.eqb "." ".") with true.
    cbv iota.
    rewrite (rfind_from_without "." ext _ _ Hdot), (rfind_from_without "/" ext _ _ Hsep).
    pose proof (rfind_from_bound "/" stem 0 (-1) ltac:(lia)) as Hlt.
    rewrite Z.add_0_l in Hlt. apply Z.ltb_lt in Hlt. rewrite Hlt.
    rewrite str_take_app. fold (rfind "/" stem). rewrite Hstem. cbn [andb].
    rewrite str_drop_app. unfold strip_dots.
    assert (Hl : lstrip_by (Ascii.eqb ".") (String "." ext) = ext).
    { cbn. apply lstrip_by_none. now apply without_forallb. }
    unfold strip_by. rewrite Hl. fold (strip_by (Ascii.eqb ".") ext) in *.
    pose proof (strip_by_none (Ascii.eqb ".") ext (without_forallb _ _ Hdot)) as Hs.
    unfold strip_by in Hs.
    rewrite (lstrip_by_none _ ext (without_forallb _ _ Hdot)) in Hs. exact Hs.
  Qed.

Lemma load_mesh_inferred (fs : filesystem) (stem ext data : string)
        (name : option string) (reader : loader) :
    resolve_format (stem +:+ "." +:+ ext) None = ext ->
    fs (stem +:+ "." +:+ ext) = Some data ->
    extension_dict !! ext = Some reader ->
    load_mesh fs (stem +:+ "." +:+ ext) None name = reader fs (stem +:+ "." +:+ ext) name.
  Proof.
    intros Hres Hfs Hreader.
    unfold load_mesh. rewrite (check_file_found _ _ _ Hfs).
    unfold mbind, result_bind, bind. cbv beta iota zeta.
    unfold loader in *. rewrite Hres, Hreader. reflexivity.
  Qed.

(** X2. The format [load_mesh] infers from a file name is what follows
    the last dot: for a name [stem.ext] whose [ext] holds no dot and no
    slash, and whose [stem] has a character other than a dot after its
    last slash, the keyword is [ext], and the file is read by the loader
    the registry gives for [ext]. *)
Theorem load_mesh_infers_extension (fs : filesystem) (stem ext data : string)
          (name : option string) (reader : loader) :
    without "." ext = true ->
    without "/" ext = true ->
    existsb (fun x => negb (Ascii.eqb x "."))
            (list_ascii_of_string (str_drop (rfind "/" stem + 1) stem)) = true ->
    fs (stem +:+ "." +:+ ext) = Some data ->
    extension_dict !! ext = Some reader ->
    resolve_format (stem +:+ "." +:+ ext) None = ext
    /\ load_mesh fs (stem +:+ "." +:+ ext) None name
       = reader fs (stem +:+ "." +:+ ext) name.
  Proof.
    intros Hdot Hsep Hstem Hfs Hreader.
    pose proof (resolve_format_inferred stem ext Hdot Hsep Hstem) as Hres.
    split; [exact Hres|]. exact (load_mesh_inferred _ _ _ _ _ _ Hres Hfs Hreader).
  Qed.

(** X3. The DIODORE data files are not decoded.  Their loader is a stub:
    on a file that exists it raises [NotImplementedError], called directly
    or through [load_mesh] under its keyword [diodore-dat]; and a file
    whose name ends in [.dat], loaded without keyword, goes to the Nemoh
    loader. *)
Theorem load_DAT_not_implemented (fs : filesystem) (filename data : string)
          (name : option string) :
    fs filename = Some data ->
    load_DAT fs filename name = Raise NotImplementedError
    /\ load_mesh fs filename (Some "diodore-dat") name = Raise NotImplementedError
    /\ (forall stem,
          filename = stem +:+ ".dat" ->
          existsb (fun x => negb (Ascii.eqb x "."))
                  (list_ascii_of_string (str_drop (rfind "/" stem + 1) stem)) = true ->
          load_mesh fs filename None name = load_MAR fs filename name).
  Proof.
    intros H. pose proof (check_file_found _ _ _ H) as Hc.
    assert (Hd : load_DAT fs filename name = Raise NotImplementedError).
    { unfold load_DAT. rewrite Hc. reflexivity. }
    split; [exact Hd|]. split.
    - unfold load_mesh. rewrite Hc.
      unfold mbind, result_bind, bind. cbv beta iota zeta. unfold loader in *.
      change (resolve_format filename (Some "diodore-dat")) with "diodore-dat".
      assert (Hk : extension_dict !! "diodore-dat" = Some load_DAT) by reflexivity.
      unfold loader in *. rewrite Hk. exact Hd.
    - intros stem -> Hstem.
      assert (Hk : extension_dict !! "dat" = Some load_MAR) by reflexivity.
      apply (load_mesh_inferred fs stem "dat" data name load_MAR); [|exact H|exact Hk].
      now apply resolve_format_inferred.
  Qed.

End Extension.

(** ** The rows a file declares *)

Section DeclaredRows.
  Context `{RT : Runtime}.

(** [read_rows] looks at the first [n] lines only. *)
Lemma read_rows_agree {A : Type} (conv : string -> result A) (n : nat) (f f' : file) :
    (forall i, (i < n)%nat -> line_at f i = line_at f' i) ->
    read_rows conv n f'
    = match read_rows conv n f with
      | Ok (rows, _) => Ok (rows, drop n f')
      | Raise e => Raise e
      end.
  Proof.
    revert f f'. induction n as [|n IH]; intros f f' H.
    - simpl. now rewrite drop_0.
    - simpl. rewrite (readline_spec f), (readline_spec f').
      rewrite <- (H 0%nat) by lia.
      destruct (mapM conv (split_ws (line_at f 0))) as [row|e]; [|reflexivity].
      unfold mbind, result_bind. cbn [bind].
      rewrite (IH (drop 1 f) (drop 1 f')).
      + destruct (read_rows conv n (drop 1 f)) as [[rows rest]|e]; [|reflexivity].
        cbn. now rewrite drop_drop.
      + intros i Hi. rewrite !line_at_drop. apply H. lia.
  Qed.

Lemma read_rows_rest {A : Type} (conv : string -> result A) (n : nat) (f : file) :
    read_rows conv n f
    = match read_rows conv n f with
      | Ok (rows, _) => Ok (rows, drop n f)
      | Raise e => Raise e
      end.
  Proof. apply read_rows_agree. reflexivity. Qed.

(** X4. The natural loader reads the count line and the declared rows, and
    nothing else: two files that agree from the second line to the last
    declared face line load alike, whatever their first line (the symmetry
    line) and whatever follows the faces. *)
Theorem load_NAT_lines_read (fs fs' : filesystem) (filename data data' : string)
          (name : option string) (nv nf : Z) :
    fs filename = Some data ->
    fs' filename = Some data' ->
    mapM py_int (split_ws (line_at (open_lines data) 1)) = Ok [nv; nf] ->
    (forall i, (1 <= i < 2 + Z.to_nat nv + Z.to_nat nf)%nat ->
               line_at (open_lines data) i = line_at (open_lines data') i) ->
    load_NAT fs filename name = load_NAT fs' filename name.
  Proof.
    intros Hd Hd' Hc H. unfold load_NAT.
    rewrite (check_file_found _ _ _ Hd), (read_file_found _ _ _ Hd),
      (check_file_found _ _ _ Hd'), (read_file_found _ _ _ Hd').
    unfold mbind, result_bind. cbn [bind].
    rewrite !readline_spec. cbn [fst snd].
    rewrite !line_at_drop. simpl (1 + 0)%nat. rewrite <- (H 1%nat) by lia.
    rewrite Hc. cbn [bind].
    rewrite !drop_drop. simpl (1 + 1)%nat.
    rewrite (read_rows_agree py_float (Z.to_nat nv) (drop 2 (open_lines data))
               (drop 2 (open_lines data'))).
    2:{ intros i Hi. rewrite !line_at_drop. apply H. lia. }
    rewrite (read_rows_rest py_float (Z.to_nat nv) (drop 2 (open_lines data))).
    destruct (read_rows py_float (Z.to_nat nv) (drop 2 (open_lines data)))
      as [[vrows rest]|e]; [|reflexivity].
    cbn [bind]. destruct (np_array vrows) as [v|e]; [|reflexivity]. cbn [bind].
    rewrite !drop_drop.
    rewrite (read_rows_agree py_int (Z.to_nat nf)
               (drop (2 + Z.to_nat nv) (open_lines data))
               (drop (2 + Z.to_nat nv) (open_lines data'))).
    2:{ intros i Hi. rewrite !line_at_drop. apply H. lia. }
    rewrite (read_rows_rest py_int (Z.to_nat nf) (drop (2 + Z.to_nat nv) (open_lines data))).
    destruct (read_rows py_int (Z.to_nat nf) (drop (2 + Z.to_nat nv) (open_lines data)))
      as [[frows rest']|e]; reflexivity.
  Qed.

(** X5. The loader of the Nemoh mesh tool reads the two count lines and
    the declared rows, and nothing else: two files that agree on these
    lines load alike. *)
Theorem load_NEM_lines_read (fs fs' : filesystem) (filename data data' : string)
          (name : option string) (nv nf : Z) :
    fs filename = Some data ->
    fs' filename = Some data' ->
    py_int (line_at (open_lines data) 0) = Ok nv ->
    py_int (line_at (open_lines data) 1) = Ok nf ->
    (forall i, (i < 2 + Z.to_nat nv + Z.to_nat nf)%nat ->
               line_at (open_lines data) i = line_at (open_lines data') i) ->
    load_NEM fs filename name = load_NEM fs' filename name.
  Proof.
    intros Hd Hd' Hv Hf H. unfold load_NEM.
    rewrite (check_file_found _ _ _ Hd), (read_file_found _ _ _ Hd),
      (check_file_found _ _ _ Hd'), (read_file_found _ _ _ Hd').
    unfold mbind, result_bind. cbn [bind].
    rewrite !readline_spec. cbn [fst snd].
    rewrite !line_at_drop. simpl (1 + 0)%nat.
    rewrite <- (H 0%nat), <- (H 1%nat) by lia.
    rewrite Hv. cbn [bind]. rewrite Hf. cbn [bind].
    rewrite !drop_drop. simpl (1 + 1)%nat.
    rewrite (read_rows_agree py_float (Z.to_nat nv) (drop 2 (open_lines data))
               (drop 2 (open_lines data'))).
    2:{ intros i Hi. rewrite !line_at_drop. apply H. lia. }
    rewrite (read_rows_rest py_float (Z.to_nat nv) (drop 2 (open_lines data))).
    destruct (read_rows py_float (Z.to_nat nv) (drop 2 (open_lines data)))
      as [[vrows rest]|e]; [|reflexivity].
    cbn [bind]. destruct (np_array vrows) as [v|e]; [|reflexivity]. cbn [bind].
    rewrite !drop_drop.
    rewrite (read_rows_agree py_int (Z.to_nat nf)
               (drop (2 + Z.to_nat nv) (open_lines data))
               (drop (2 + Z.to_nat nv) (open_lines data'))).
    2:{ intros i Hi. rewrite !line_at_drop. apply H. lia. }
    rewrite (read_rows_rest py_int (Z.to_nat nf) (drop (2 + Z.to_nat nv) (open_lines data))).
    destruct (read_rows py_int (Z.to_nat nf) (drop (2 + Z.to_nat nv) (open_lines data)))
      as [[frows rest']|e]; reflexivity.
  Qed.

(** X6. When the natural loader or the loader of the Nemoh mesh tool
    returns, the tables have the sizes the file declares: as many vertex
    rows as the first count and as many face rows as the second one (none
    for a negative count), and vertex [i] holds the floats of the tokens of
    line [2 + i]. *)
Theorem declared_counts (fs : filesystem) (filename : string) (name : option string) :
    (forall r,
       load_NAT fs filename name = Ok r ->
       exists data nv nf,
         fs filename = Some data
         /\ mapM py_int (split_ws (line_at (open_lines data) 1)) = Ok [nv; nf]
         /\ length (loaded_vertices r) = Z.to_nat nv
         /\ length (loaded_faces r) = Z.to_nat nf
         /\ forall i row, loaded_vertices r !! i = Some row ->
              mapM py_float (split_ws (line_at (open_lines data) (2 + i))) = Ok row)
    /\ (forall r,
          load_NEM fs filename name = Ok r ->
          exists data nv nf,
            fs filename = Some data
            /\ py_int (line_at (open_lines data) 0) = Ok nv
            /\ py_int (line_at (open_lines data) 1) = Ok nf
            /\ length (loaded_vertices r) = Z.to_nat nv
            /\ length (loaded_faces r) = Z.to_nat nf
            /\ forall i row, loaded_vertices r !! i = Some row ->
                 mapM py_float (split_ws (line_at (open_lines data) (2 + i))) = Ok row).
  Proof.
    assert (Hrows : forall (lines : file) nv nf vrows frows rest rest',
      read_rows py_float (Z.to_nat nv) (drop 2 lines) = Ok (vrows, rest) ->
      read_rows py_int (Z.to_nat nf) rest = Ok (frows, rest') ->
      length vrows = Z.to_nat nv
      /\ length (np_sub1 frows) = Z.to_nat nf
      /\ forall i row, vrows !! i = Some row ->
           mapM py_float (split_ws (line_at lines (2 + i))) = Ok row).
    { intros lines nv nf vrows frows rest rest' Hv Hf.
      apply read_rows_Ok in Hv as (_ & Hlv & Hv).
      apply read_rows_Ok in Hf as (_ & Hlf & _).
      split; [exact Hlv|]. split; [now rewrite np_sub1_length|].
      intros i row Hi.
      assert (Hlt : (i < Z.to_nat nv)%nat).
      { rewrite <- Hlv. now apply lookup_lt_Some in Hi. }
      destruct (Hv i Hlt) as (row' & Hr & Hm).
      rewrite line_at_drop in Hm. congruence. }
    split; intros r H.
    - apply load_NAT_Ok in H as (data & nv & nf & vrows & frows & Hd & Hc & Hv & Hf & _ & ->).
      exists data, nv, nf. split; [exact Hd|]. split; [exact Hc|].
      exact (Hrows _ _ _ _ _ _ _ Hv Hf).
    - apply load_NEM_Ok in H as (data & nv & nf & vrows & frows & Hd & Hnv & Hnf & Hv & Hf & _ & ->).
      exists data, nv, nf. split; [exact Hd|].
      unfold py_int. rewrite Hnv, Hnf. split; [reflexivity|]. split; [reflexivity|].
      exact (Hrows _ _ _ _ _ _ _ Hv Hf).
  Qed.

End DeclaredRows.

(** ** Reshaped tables *)

Lemma chunks_length {A : Type} (n c : nat) (l : list A) : length (chunks n c l) = n.
Proof. revert l; induction n as [|n IH]; intros l; simpl; [reflexivity|]. now rewrite IH. Qed.

Lemma chunks_lookup {A : Type} (n c : nat) (l : list A) (i : nat) :
  (i < n)%nat -> chunks n c l !! i = Some (take c (drop (i * c) l)).
Proof.
  revert l i; induction n as [|n IH]; intros l i Hi; [lia|].
  destruct i as [|i]; simpl; [reflexivity|].
  rewrite IH by lia. now rewrite drop_drop.
Qed.

Lemma chunks_row_length {A : Type} (n c : nat) (l : list A) :
  (n * c <= length l)%nat -> Forall (fun row => length row = c) (chunks n c l).
Proof.
  intros H. apply Forall_lookup. intros i row Hi.
  assert (Hlt : (i < n)%nat).
  { apply lookup_lt_Some in Hi. now rewrite chunks_length in Hi. }
  rewrite chunks_lookup in Hi by exact Hlt. injection Hi as <-.
  rewrite length_take, length_drop. nia.
Qed.

(** The three ways [reshape] accepts a shape. *)
Lemma np_reshape_Ok {A : Type} (l : list A) (r c : Z) (a : list (list A)) :
  np_reshape l r c = Ok a ->
  exists n k : nat,
    a = chunks n k l /\ (n * k = length l)%nat
    /\ ((0 <= r /\ 0 <= c /\ Z.of_nat n = r /\ Z.of_nat k = c)
        \/ (r = -1 /\ 0 < c /\ Z.of_nat k = c)
        \/ (c = -1 /\ 0 < r /\ Z.of_nat n = r)).
Proof.
  unfold np_reshape. intros H.
  destruct ((0 <=? r) && (0 <=? c)) eqn:E1.
  - apply andb_true_iff in E1 as [Hr Hc]. apply Z.leb_le in Hr, Hc.
    destruct (r * c =? Z.of_nat (length l)) eqn:E; [|discriminate].
    apply Z.eqb_eq in E. injection H as <-.
    exists (Z.to_nat r), (Z.to_nat c). split; [reflexivity|]. split; [nia|]. left. lia.
  - destruct ((r =? -1) && (0 <? c)) eqn:E2.
    + apply andb_true_iff in E2 as [Hr Hc]. apply Z.eqb_eq in Hr. apply Z.ltb_lt in Hc.
      destruct (Z.of_nat (length l) mod c =? 0) eqn:E; [|discriminate].
      apply Z.eqb_eq in E. injection H as <-.
      exists (Z.to_nat (Z.of_nat (length l) / c)), (Z.to_nat c).
      split; [reflexivity|].
      pose proof (Z.div_mod (Z.of_nat (length l)) c ltac:(lia)) as Hdm.
      pose proof (Z.div_pos (Z.of_nat (length l)) c ltac:(lia) Hc) as Hpos.
      split; [nia|]. right; left. lia.
    + destruct ((c =? -1) && (0 <? r)) eqn:E3; [|discriminate].
      apply andb_true_iff in E3 as [Hc Hr]. apply Z.eqb_eq in Hc. apply Z.ltb_lt in Hr.
      destruct (Z.of_nat (length l) mod r =? 0) eqn:E; [|discriminate].
      apply Z.eqb_eq in E. injection H as <-.
      exists (Z.to_nat r), (Z.to_nat (Z.of_nat (length l) / r)).
      split; [reflexivity|].
      pose proof (Z.div_mod (Z.of_nat (length l)) r ltac:(lia)) as Hdm.
      pose proof (Z.div_pos (Z.of_nat (length l)) r ltac:(lia) Hr) as Hpos.
      split; [nia|]. right; right. lia.
Qed.

Section Reshaped.
  Context `{RT : Runtime}.

(** X7. When the TECPLOT loader returns, the zone header gives a positive
    node count [N]; the vertex table has [N] rows, the coordinates read
    being cut in [N] rows of equal length of which the first three columns
    are kept; the integers read are four times the number of faces, and
    every face has four entries. *)
Theorem load_TEC_shape (fs : filesystem) (filename : string) (name : option string)
          (r : loaded coord) :
    load_TEC fs filename name = Ok r ->
    exists data m nv nf vertices faces N E vs ints (c : nat),
      fs filename = Some data
      /\ re_search TEC_data_pattern RE_MULTILINE data = Some m
      /\ groups m = [nv; nf; vertices; faces]
      /\ py_int nv = Ok N /\ py_int nf = Ok E
      /\ mapM py_float (split_ws vertices) = Ok vs
      /\ mapM py_int (split_ws faces) = Ok ints
      /\ 0 < N
      /\ Z.of_nat (length (loaded_vertices r)) = N
      /\ (length (loaded_vertices r) * c = length vs)%nat
      /\ (forall i row, loaded_vertices r !! i = Some row ->
                        row = take 3 (take c (drop (i * c) vs)))
      /\ (length ints = 4 * length (loaded_faces r))%nat
      /\ (0 <= E -> Z.of_nat (length (loaded_faces r)) = E)
      /\ Forall (fun row => length row = 4%nat) (loaded_faces r).
  Proof.
    intros H.
    apply load_TEC_Ok in H
      as (data & m & nv & nf & vertices & faces & vs & ints & V & F
          & Hd & Hm & Hg & Hvs & HV & Hints & _ & HF & ->).
    apply bind_Ok in HV as (N & HN & HV). apply bind_Ok in HF as (E & HE & HF).
    apply np_reshape_Ok in HV as (n & k & -> & Hnk & HV).
    apply np_reshape_Ok in HF as (n' & k' & -> & Hnk' & HF).
    assert (Hk' : k' = 4%nat) by lia. subst k'.
    exists data, m, nv, nf, vertices, faces, N, E, vs, ints, k.
    simpl loaded_vertices. simpl loaded_faces.
    rewrite length_map, np_sub1_length, !chunks_length.
    repeat (split; [first [assumption | lia]|]).
    split.
    { intros i row Hi. rewrite list_lookup_fmap in Hi.
      destruct (chunks n k vs !! i) as [row'|] eqn:Hrow; [|discriminate].
      injection Hi as <-.
      assert (Hlt : (i < n)%nat).
      { apply lookup_lt_Some in Hrow. now rewrite chunks_length in Hrow. }
      rewrite chunks_lookup in Hrow by exact Hlt. now injection Hrow as <-. }
    split; [lia|]. split; [lia|].
    unfold np_sub1. apply Forall_fmap.
    eapply Forall_impl; [apply (chunks_row_length n' 4 ints); lia|].
    intros row Hrow. simpl. now rewrite length_map.
  Qed.

(** X8. When the GMSH loader returns, the numbers of the node block are
    four per vertex, and vertex [i] holds the three numbers that follow the
    node number: the count the block declares is not looked at. *)
Theorem load_MSH_vertices (fs : filesystem) (filename : string) (name : option string)
          (r : loaded coord) :
    load_MSH fs filename name = Ok r ->
    exists data m nb_nodes nodes_data vs,
      fs filename = Some data
      /\ re_search MSH_nodes RE_DOTALL data = Some m
      /\ groups m = [nb_nodes; nodes_data]
      /\ mapM py_float (split_ws nodes_data) = Ok vs
      /\ (length vs = 4 * length (loaded_vertices r))%nat
      /\ forall i row, loaded_vertices r !! i = Some row ->
           row = take 3 (drop (4 * i + 1) vs) /\ length row = 3%nat.
  Proof.
    unfold load_MSH. intros H.
    apply bind_Ok in H as ([] & _ & H). apply bind_Ok in H as (data & Hd & H).
    apply of_option_Ok in Hd.
    apply bind_Ok in H as (g & Hg & H). apply groups_of_Ok in Hg as (m & Hm & <-).
    destruct (groups m) as [|nb_nodes [|nodes_data [|]]] eqn:Hgm; try discriminate.
    apply bind_Ok in H as (g & Hg & H). apply groups_of_Ok in Hg as (m' & _ & <-).
    destruct (groups m') as [|nb_elts [|elts_data [|]]]; try discriminate.
    apply bind_Ok in H as (vs & Hvs & H). apply bind_Ok in H as (V & HV & H).
    apply bind_Ok in H as (triangles & _ & H).
    apply bind_Ok in H as (quadrangles & _ & H).
    apply bind_Ok in H as (F & _ & H). built H Hmesh. injection H as <-.
    apply np_reshape_Ok in HV as (n & k & -> & Hnk & HV).
    assert (Hk : k = 4%nat) by lia. subst k.
    exists data, m, nb_nodes, nodes_data, vs. simpl loaded_vertices.
    rewrite length_map, chunks_length.
    repeat (split; [first [assumption | lia]|]).
    intros i row Hi. rewrite list_lookup_fmap in Hi.
    destruct (chunks n 4 vs !! i) as [row'|] eqn:Hrow; [|discriminate].
    injection Hi as <-.
    assert (Hlt : (i < n)%nat).
    { apply lookup_lt_Some in Hrow. now rewrite chunks_length in Hrow. }
    rewrite chunks_lookup in Hrow by exact Hlt. injection Hrow as <-.
    change 4%nat with (1 + 3)%nat at 1. rewrite <- take_drop_commute, drop_drop.
    replace (i * 4 + 1)%nat with (4 * i + 1)%nat by lia.
    split; [reflexivity|]. rewrite length_drop, length_take, length_drop. lia.
  Qed.

End Reshaped.

(** ** HydroSTAR sections, VTK cells *)

Section HydroSTAR.
  Context `{RT : Runtime}.

(** Once [vertices_tmp] is an array, a section goes through only if it has
    no line to append. *)
Lemma HST_lines_array {A : Type} (conv : string -> result A)
        (tokens : string -> list string) lines (st st' : HST_state A) :
    hst_tmp_is_array st = true ->
    HST_lines conv tokens lines st = Ok st' -> lines = [].
  Proof.
    intros Harr H. destruct lines as [|line lines]; [reflexivity|].
    simpl in H. unfold HST_append in H. rewrite Harr in H. discriminate.
  Qed.

Lemma HST_section_array {A : Type} (conv : string -> result A)
        (tokens : string -> list string) as_array pattern section
        (st st' : HST_state A) :
    HST_section conv tokens as_array pattern section st = Ok st' ->
    hst_tmp_is_array st' = true.
  Proof.
    unfold HST_section. intros H.
    apply bind_Ok in H as (st1 & _ & H). apply bind_Ok in H as (tmp & _ & H).
    destruct (_ =? 0).
    - now injection H as <-.
    - apply bind_Ok in H as (table & _ & H). now injection H as <-.
  Qed.

Lemma HST_sections_array {A : Type} (conv : string -> result A)
        (tokens : string -> list string) as_array pattern sections
        (st st' : HST_state A) :
    hst_tmp_is_array st = true ->
    HST_sections conv tokens as_array pattern sections st = Ok st' ->
    Forall (fun s => re_findall pattern RE_MULTILINE s = []) sections.
  Proof.
    revert st. induction sections as [|s sections IH]; intros st Harr H; [constructor|].
    simpl in H. apply bind_Ok in H as (st1 & H1 & H).
    constructor.
    - unfold HST_section in H1. apply bind_Ok in H1 as (st2 & H2 & _).
      exact (HST_lines_array _ _ _ _ _ Harr H2).
    - exact (IH st1 (HST_section_array _ _ _ _ _ _ _ H1) H).
  Qed.

Lemma HST_sections_first {A : Type} (conv : string -> result A)
        (tokens : string -> list string) as_array pattern sections
        (st st' : HST_state A) :
    HST_sections conv tokens as_array pattern sections st = Ok st' ->
    forall i s, sections !! S i = Some s -> re_findall pattern RE_MULTILINE s = [].
  Proof.
    intros H i s Hs. destruct sections as [|s0 sections]; [discriminate|].
    simpl in H, Hs. apply bind_Ok in H as (st1 & H1 & H).
    apply HST_section_array in H1.
    pose proof (HST_sections_array _ _ _ _ _ _ _ H1 H) as Hall.
    rewrite Forall_lookup in Hall. exact (Hall i s Hs).
  Qed.

(** X9. The HydroSTAR loader gathers the lines of the first section only:
    after a section the list of rows has become an array, which has no
    [append], so the loader returns only if no node section and no element
    section after the first holds a line. *)
Theorem load_HST_first_section_only (fs : filesystem) (filename : string)
          (name : option string) (r : loaded coord) :
    load_HST fs filename name = Ok r ->
    exists data,
      fs filename = Some data
      /\ (forall i s,
            re_findall HST_node_section RE_MULTILINE data !! S i = Some s ->
            re_findall HST_node_line RE_MULTILINE s = [])
      /\ (forall i s,
            re_findall HST_elem_section RE_MULTILINE data !! S i = Some s ->
            re_findall HST_elem_line RE_MULTILINE s = []).
  Proof.
    unfold load_HST. intros H.
    apply bind_Ok in H as ([] & _ & H). apply bind_Ok in H as (data & Hd & H).
    apply of_option_Ok in Hd.
    apply bind_Ok in H as (v & Hv & H). apply bind_Ok in H as (f & Hf & _).
    exists data. split; [exact Hd|]. split.
    - exact (HST_sections_first _ _ _ _ _ _ _ Hv).
    - exact (HST_sections_first _ _ _ _ _ _ _ Hf).
  Qed.

End HydroSTAR.

Section VTK.
  Context `{RT : Runtime}.

Lemma broadcast_row_length {A : Type} (w : nat) (v row : list A) :
    broadcast_row w v = Ok row -> length row = w.
  Proof.
    unfold broadcast_row. destruct (Nat.eqb (length v) w) eqn:E.
    - apply Nat.eqb_eq in E. now intros [= <-].
    - destruct v as [|x [|]]; try discriminate. intros [= <-]. apply length_replicate.
  Qed.

Lemma VTK_fill_Ok (ids : list Z) (l : nat) (row row' : list Z) :
    (l <= length row)%nat ->
    VTK_fill l ids row = Ok row' ->
    length row' = length row
    /\ (l + length ids <= length row)%nat
    /\ (forall j id, ids !! j = Some id -> row' !! (l + j)%nat = Some id)
    /\ (forall p, (p < l \/ l + length ids <= p)%nat -> row' !! p = row !! p).
  Proof.
    revert l row. induction ids as [|id ids IH]; intros l row Hl H; simpl in H.
    - injection H as <-. simpl. repeat split; intros; first [lia | discriminate | reflexivity].
    - destruct (l <? length row)%nat eqn:E; [|discriminate].
      apply Nat.ltb_lt in E.
      apply IH in H as (Hlen & Hle & Hids & Hother); [|rewrite length_insert; lia].
      rewrite length_insert in Hlen, Hle. simpl length.
      split; [exact Hlen|]. split; [lia|]. split.
      + intros [|j] x Hj; simpl in Hj.
        * injection Hj as ->. rewrite Hother by lia.
          rewrite Nat.add_0_r. now apply list_lookup_insert_eq.
        * replace (l + S j)%nat with (S l + j)%nat by lia. now apply Hids.
      + intros p Hp. rewrite Hother by lia. apply list_lookup_insert_ne. lia.
  Qed.

(** What a cell becomes in the face table. *)
Definition VTK_row (cell row : list Z) : Prop :=
    (length cell <= 4)%nat
    /\ length row = 4%nat
    /\ (forall j id, cell !! j = Some id -> row !! j = Some id)
    /\ (length cell = 3%nat -> row !! 3%nat = row !! 0%nat)
    /\ (length cell <> 3%nat ->
        forall p, (length cell <= p < 4)%nat -> row !! p = Some 0).

Lemma VTK_face_Ok (cell row : list Z) : VTK_face cell = Ok row -> VTK_row cell row.
  Proof.
    unfold VTK_face. intros H. apply bind_Ok in H as (row1 & H1 & H).
    apply VTK_fill_Ok in H1 as (Hlen & Hle & Hids & Hother); [|simpl; lia].
    simpl in Hlen, Hle.
    destruct (Nat.eqb (length cell) 3) eqn:E.
    - apply Nat.eqb_eq in E. apply bind_Ok in H as (first & Hfirst & H).
      injection H as <-. unfold list_index in Hfirst. rewrite Hlen in Hfirst.
      simpl in Hfirst. apply of_option_Ok in Hfirst.
      split; [lia|]. split; [now rewrite length_insert|]. split; [|split].
      + intros j id Hj. specialize (Hids j id Hj). simpl in Hids.
        apply lookup_lt_Some in Hj.
        rewrite list_lookup_insert_ne by lia. exact Hids.
      + intros _. rewrite list_lookup_insert_eq by lia.
        rewrite list_lookup_insert_ne by lia. symmetry. exact Hfirst.
      + lia.
    - apply Nat.eqb_neq in E. injection H as <-.
      split; [lia|]. split; [exact Hlen|]. split; [|split].
      + intros j id Hj. exact (Hids j id Hj).
      + lia.
      + intros _ p Hp. rewrite Hother by lia.
        destruct p as [|[|[|[|p]]]]; try reflexivity. lia.
  Qed.

Lemma VTK_face_error (cell : list Z) (e : exn) : VTK_face cell = Raise e -> e = IndexError.
  Proof.
    unfold VTK_face.
    assert (Hfill : forall ids l row e', VTK_fill l ids row = Raise e' -> e' = IndexError).
    { induction ids as [|id ids IH]; intros l row e'; simpl; [discriminate|].
      destruct (l <? length row)%nat; [apply IH | now intros [= <-]]. }
    destruct (VTK_fill 0 cell [0; 0; 0; 0]) as [row|e'] eqn:E.
    - cbn. destruct (Nat.eqb (length cell) 3); [|discriminate].
      apply VTK_fill_Ok in E as (Hlen & _); [|simpl; lia].
      destruct row as [|x row]; discriminate.
    - cbn. intros [= <-]. exact (Hfill _ _ _ _ E).
  Qed.

(** X10. When [_dump_vtk] returns, the vertex table has one row of three
    coordinates per point and the face table one row of four entries per
    cell: the point ids of the cell in order, then the first id again for
    a cell of three points, zeros for a shorter cell.  No cell has more
    than four points: with one that has, [_dump_vtk] raises [IndexError]
    once the points are read. *)
Theorem dump_vtk_shape (vtk_mesh : vtk_data coord) :
    (forall vertices faces,
       _dump_vtk vtk_mesh = Ok (vertices, faces) ->
       length vertices = length (vtk_points vtk_mesh)
       /\ Forall (fun row => length row = 3%nat) vertices
       /\ Forall2 VTK_row (vtk_cells vtk_mesh) faces)
    /\ (forall cell,
          is_ok (mapM (broadcast_row 3) (vtk_points vtk_mesh)) = true ->
          In cell (vtk_cells vtk_mesh) -> (4 < length cell)%nat ->
          _dump_vtk vtk_mesh = Raise IndexError).
  Proof.
    unfold _dump_vtk. split.
    - intros vertices faces H.
      apply bind_Ok in H as (v & Hv & H). apply bind_Ok in H as (f & Hf & H).
      injection H as <- <-.
      split; [exact (mapM_Ok_length _ _ _ Hv)|]. split.
      + apply mapM_Ok_image in Hv. eapply Forall_impl; [exact Hv|].
        intros row (p & _ & Hp). exact (broadcast_row_length _ _ _ Hp).
      + apply mapM_Ok_Forall2 in Hf. eapply Forall2_impl; [exact Hf|].
        intros cell row. apply VTK_face_Ok.
    - intros cell Hpts Hin Hlen.
      destruct (mapM (broadcast_row 3) (vtk_points vtk_mesh)) as [v|]; [|discriminate].
      cbn. rewrite (mapM_Raise VTK_face (vtk_cells vtk_mesh) IndexError); [reflexivity| |].
      + intros a e. apply VTK_face_error.
      + exists cell. split; [exact Hin|].
        destruct (VTK_face cell) as [row|] eqn:E; [|reflexivity].
        apply VTK_face_Ok in E as (Hle & _). lia.
  Qed.

(** The stages of a successful call of [load_STL]. *)
Lemma load_STL_Ok (fs : filesystem) (filename : string) (name : option string)
          (r : loaded coord) :
    load_STL fs filename name = Ok r ->
    exists data points,
      fs filename = Some data
      /\ mapM (broadcast_row 3) (vtk_points (vtk_read vtkSTLReader data)) = Ok points
      /\ loaded_vertices r = (merge_duplicate_rows points).1
      /\ length (loaded_faces r) = length (vtk_cells (vtk_read vtkSTLReader data))
      /\ Forall (fun row => closed_triangle row
                            /\ Forall (fun x => In x (merge_duplicate_rows points).2) row)
                (loaded_faces r).
  Proof.
    unfold load_STL. intros H.
    apply bind_Ok in H as ([] & _ & H). apply bind_Ok in H as ([] & _ & H).
    apply bind_Ok in H as ([] & _ & H). apply bind_Ok in H as (data & Hd & H).
    apply of_option_Ok in Hd. cbv zeta in H.
    apply bind_Ok in H as (points & Hp & H).
    destruct (merge_duplicate_rows points) as [merged new_id] eqn:Hm.
    apply bind_Ok in H as (faces & Hf & H). built H Hmesh. injection H as <-.
    exists data, points. rewrite Hm. simpl.
    split; [exact Hd|]. split; [exact Hp|]. split; [reflexivity|]. split.
    - rewrite (mapM_Ok_length _ _ _ Hf). apply length_map.
    - apply mapM_Ok_image in Hf. eapply Forall_impl; [exact Hf|].
      intros row (face & Hin & Hrow). apply in_map_iff in Hin as (cell & <- & _).
      unfold STL_face, np_take in Hrow. apply mapM_Ok_Forall2 in Hrow.
      apply Forall2_cons_inv_l in Hrow as (a & row1 & Ha & Hrow & ->).
      apply Forall2_cons_inv_l in Hrow as (b & row2 & Hb & Hrow & ->).
      apply Forall2_cons_inv_l in Hrow as (c & row3 & Hc & Hrow & ->).
      apply Forall2_cons_inv_l in Hrow as (a' & row4 & Ha' & Hrow & ->).
      apply Forall2_nil_inv_l in Hrow as ->.
      assert (a' = a) as -> by congruence.
      assert (Hg : forall i x,
                 (k ← np_index (length new_id) i; of_option IndexError (new_id !! k))
                 = Ok x -> In x new_id).
      { intros i x Hx. apply bind_Ok in Hx as (k & _ & Hx).
        apply of_option_Ok in Hx. apply list_elem_of_In.
        now apply list_elem_of_lookup_2 in Hx. }
      split; [split; reflexivity|].
      repeat constructor; eauto.
  Qed.

(** X11. Every face the STL loader returns is a closed triangle whose
    entries are entries of the index [merge_duplicate_rows] returns, one
    face per cell; the vertex table is the merged one. *)
Theorem load_STL_closed (fs : filesystem) (filename : string) (name : option string)
          (r : loaded coord) :
    load_STL fs filename name = Ok r ->
    exists data points,
      fs filename = Some data
      /\ mapM (broadcast_row 3) (vtk_points (vtk_read vtkSTLReader data)) = Ok points
      /\ loaded_vertices r = (merge_duplicate_rows points).1
      /\ length (loaded_faces r) = length (vtk_cells (vtk_read vtkSTLReader data))
      /\ Forall (fun row => closed_triangle row
                            /\ Forall (fun x => In x (merge_duplicate_rows points).2) row)
                (loaded_faces r).
  Proof. exact (load_STL_Ok fs filename name r). Qed.

End VTK.

Section VRML.
  Context `{RT : Runtime}.


End VRML.

(** ** Transposed tables *)

Lemma omap_head_length {A : Type} (a : list (list A)) :
  Forall (fun row => (1 <= length row)%nat) a -> length (omap head a) = length a.
Proof.
  induction 1 as [|row a Hrow _ IH]; [reflexivity|].
  destruct row as [|x row]; [simpl in Hrow; lia|]. simpl. f_equal. exact IH.
Qed.

Lemma transpose_rows {A : Type} (c : nat) (a : list (list A)) :
  Forall (fun row => (c <= length row)%nat) a ->
  Forall (fun col => length col = length a) (transpose c a).
Proof.
  revert a. induction c as [|c IH]; intros a H; simpl; [constructor|].
  constructor.
  - apply omap_head_length. eapply Forall_impl; [exact H|]. simpl. lia.
  - replace (length a) with (length (map (drop 1) a)) by apply length_map.
    apply IH. apply Forall_fmap. eapply Forall_impl; [exact H|].
    intros row Hrow. unfold compose. cbv beta in *. rewrite length_drop. lia.
Qed.

Lemma MED_table_rows {A : Type} (c : Z) (l : list A) (t : list (list A)) :
  0 < c -> MED_table c l = Ok t -> Forall (fun row => Z.of_nat (length row) = c) t.
Proof.
  unfold MED_table. intros Hc H. apply bind_Ok in H as (a & Ha & H).
  injection H as <-. apply np_reshape_Ok in Ha as (n & k & -> & Hnk & Ha).
  assert (Hn : Z.of_nat n = c) by lia.
  pose proof (chunks_row_length n k l ltac:(lia)) as Hrows.
  assert (Hw : width (chunks n k l) = k).
  { destruct n as [|n]; [lia|]. simpl. inversion Hrows; subst. assumption. }
  rewrite Hw.
  pose proof (transpose_rows k (chunks n k l)) as Ht.
  rewrite chunks_length in Ht.
  eapply Forall_impl; [apply Ht|].
  - eapply Forall_impl; [exact Hrows|]. simpl. lia.
  - simpl. lia.
Qed.

Section SALOME.
  Context `{RT : Runtime}.

(** The rows the loop has gathered: three columns for the vertices and the
    triangles, four for the quadrangles. *)
Definition MED_inv (st : MED_state) : Prop :=
    Forall (fun row => length row = 3%nat) (default [] (med_vertices st))
    /\ Forall (fun row => length row = 3%nat) (med_triangles st)
    /\ Forall (fun row => length row = 4%nat) (med_quadrangles st).

Lemma np_sub1_rows (w : nat) (a : list (list Z)) :
    Forall (fun row => length row = w) a -> Forall (fun row => length row = w) (np_sub1 a).
  Proof.
    intros H. unfold np_sub1. apply Forall_fmap. eapply Forall_impl; [exact H|].
    intros row Hrow. simpl. now rewrite length_map.
  Qed.

Lemma MED_item_inv item st st' :
    MED_inv st -> MED_item item st = Ok st' -> MED_inv st'.
  Proof.
    assert (Hnat : forall (A : Type) (c : nat) (t : list (list A)),
               Forall (fun row => Z.of_nat (length row) = Z.of_nat c) t ->
               Forall (fun row => length row = c) t).
    { intros A c t H. eapply Forall_impl; [exact H|]. simpl. lia. }
    unfold MED_item. destruct item as [item value]. intros Hinv H.
    apply bind_Ok in H as (st1 & H1 & H). apply bind_Ok in H as (st2 & H2 & H).
    assert (Hinv1 : MED_inv st1).
    { destruct (contains "/NOE/COO" item); [|now injection H1 as <-].
      destruct value as [l|l]; [|discriminate].
      apply bind_Ok in H1 as (v & Hv & H1). injection H1 as <-.
      destruct Hinv as (_ & Ht & Hq). repeat split; try assumption. simpl.
      apply (Hnat _ 3%nat). exact (MED_table_rows 3 l v ltac:(lia) Hv). }
    assert (Hinv2 : MED_inv st2).
    { destruct (contains "/MAI/TR3/NOD" item); [|now injection H2 as <-].
      destruct value as [l|l]; [discriminate|].
      apply bind_Ok in H2 as (t & Ht & H2). injection H2 as <-.
      destruct Hinv1 as (Hv & _ & Hq). repeat split; try assumption. simpl.
      apply np_sub1_rows, (Hnat _ 3%nat). exact (MED_table_rows 3 l t ltac:(lia) Ht). }
    destruct (contains "/MAI/QU4/NOD" item); [|now injection H as <-].
    destruct value as [l|l]; [discriminate|].
    apply bind_Ok in H as (q & Hq & H). injection H as <-.
    destruct Hinv2 as (Hv & Ht & _). repeat split; try assumption. simpl.
    apply np_sub1_rows, (Hnat _ 4%nat). exact (MED_table_rows 4 l q ltac:(lia) Hq).
  Qed.

Lemma MED_items_inv items st st' :
    MED_inv st -> MED_items items st = Ok st' -> MED_inv st'.
  Proof.
    revert st. induction items as [|item items IH]; intros st Hinv H; simpl in H.
    - now injection H as <-.
    - apply bind_Ok in H as (st1 & H1 & H). eauto using MED_item_inv.
  Qed.

(** The dataset the loop leaves in a variable: the one of the last item
    whose name holds [key]. *)
Fixpoint MED_last (key : string) (items : list (string * h5_dataset coord))
    : option (h5_dataset coord) :=
    match items with
    | [] => None
    | (item, value) :: items =>
        match MED_last key items with
        | Some d => Some d
        | None => if contains key item then Some value else None
        end
    end.

(** [t] is the table of [c] columns read in the last dataset named with
    [key], and the empty table when there is no such dataset. *)
Definition MED_dataset (key : string) (c : Z) (items : list (string * h5_dataset coord))
             (t : list (list Z)) : Prop :=
    match MED_last key items with
    | None => t = []
    | Some (h5_ints l) => MED_table c l = Ok t
    | Some (h5_floats _) => False
    end.

Lemma MED_item_Ok item value st st' :
    MED_item (item, value) st = Ok st' ->
    (if contains "/NOE/COO" item
     then exists l v, value = h5_floats l /\ MED_table 3 l = Ok v
                      /\ med_vertices st' = Some v
     else med_vertices st' = med_vertices st)
    /\ (if contains "/MAI/TR3/NOD" item
        then exists l t, value = h5_ints l /\ MED_table 3 l = Ok t
                         /\ med_triangles st' = np_sub1 t
        else med_triangles st' = med_triangles st)
    /\ (if contains "/MAI/QU4/NOD" item
        then exists l q, value = h5_ints l /\ MED_table 4 l = Ok q
                         /\ med_quadrangles st' = np_sub1 q
        else med_quadrangles st' = med_quadrangles st).
  Proof.
    unfold MED_item. intros H.
    apply bind_Ok in H as (st1 & H1 & H). apply bind_Ok in H as (st2 & H2 & H).
    assert (Hv : (if contains "/NOE/COO" item
                  then exists l v, value = h5_floats l /\ MED_table 3 l = Ok v
                                   /\ med_vertices st1 = Some v
                  else med_vertices st1 = med_vertices st)
                 /\ med_triangles st1 = med_triangles st
                 /\ med_quadrangles st1 = med_quadrangles st).
    { destruct (contains "/NOE/COO" item); [|now injection H1 as <-].
      destruct value as [l|l]; [|discriminate].
      apply bind_Ok in H1 as (v & Hv & H1). injection H1 as <-. simpl.
      split; [exists l, v; auto | auto]. }
    assert (Ht : (if contains "/MAI/TR3/NOD" item
                  then exists l t, value = h5_ints l /\ MED_table 3 l = Ok t
                                   /\ med_triangles st2 = np_sub1 t
                  else med_triangles st2 = med_triangles st1)
                 /\ med_vertices st2 = med_vertices st1
                 /\ med_quadrangles st2 = med_quadrangles st1).
    { destruct (contains "/MAI/TR3/NOD" item); [|now injection H2 as <-].
      destruct value as [l|l]; [discriminate|].
      apply bind_Ok in H2 as (t & Ht & H2). injection H2 as <-. simpl.
      split; [exists l, t; auto | auto]. }
    assert (Hq : (if contains "/MAI/QU4/NOD" item
                  then exists l q, value = h5_ints l /\ MED_table 4 l = Ok q
                                   /\ med_quadrangles st' = np_sub1 q
                  else med_quadrangles st' = med_quadrangles st2)
                 /\ med_vertices st' = med_vertices st2
                 /\ med_triangles st' = med_triangles st2).
    { destruct (contains "/MAI/QU4/NOD" item); [|now injection H as <-].
      destruct value as [l|l]; [discriminate|].
      apply bind_Ok in H as (q & Hq & H). injection H as <-. simpl.
      split; [exists l, q; auto | auto]. }
    destruct Hv as (Hv & Hvt & Hvq), Ht as (Ht & Htv & Htq), Hq as (Hq & Hqv & Hqt).
    rewrite Hqv, Htv, Hqt, <- Hvt, <- Hvq, <- Htq.
    split; [exact Hv|]. split; [exact Ht|].
    destruct (contains "/MAI/QU4/NOD" item); [exact Hq | now rewrite Hq].
  Qed.

(** What the loop over the items leaves in its three variables. *)
Lemma MED_items_last items st st' :
    MED_items items st = Ok st' ->
    match MED_last "/NOE/COO" items with
    | None => med_vertices st' = med_vertices st
    | Some d => exists l v, d = h5_floats l /\ MED_table 3 l = Ok v
                            /\ med_vertices st' = Some v
    end
    /\ match MED_last "/MAI/TR3/NOD" items with
       | None => med_triangles st' = med_triangles st
       | Some d => exists l t, d = h5_ints l /\ MED_table 3 l = Ok t
                               /\ med_triangles st' = np_sub1 t
       end
    /\ match MED_last "/MAI/QU4/NOD" items with
       | None => med_quadrangles st' = med_quadrangles st
       | Some d => exists l q, d = h5_ints l /\ MED_table 4 l = Ok q
                               /\ med_quadrangles st' = np_sub1 q
       end.
  Proof.
    revert st. induction items as [|[item value] items IH]; intros st H; simpl in H.
    - injection H as <-. simpl. auto.
    - apply bind_Ok in H as (st1 & H1 & H).
      apply MED_item_Ok in H1 as (Hv & Ht & Hq).
      apply IH in H as (Hv' & Ht' & Hq'). cbn [MED_last].
      split; [|split].
      + destruct (MED_last "/NOE/COO" items); [exact Hv'|].
        destruct (contains "/NOE/COO" item); [|congruence].
        destruct Hv as (l & v & -> & Hl & Hv). exists l, v. repeat split; congruence.
      + destruct (MED_last "/MAI/TR3/NOD" items); [exact Ht'|].
        destruct (contains "/MAI/TR3/NOD" item); [|congruence].
        destruct Ht as (l & t & -> & Hl & Ht). exists l, t. repeat split; congruence.
      + destruct (MED_last "/MAI/QU4/NOD" items); [exact Hq'|].
        destruct (contains "/MAI/QU4/NOD" item); [|congruence].
        destruct Hq as (l & q & -> & Hl & Hq). exists l, q. repeat split; congruence.
  Qed.

Lemma MED_close_rows (tris closed : list (list Z)) :
    Forall (fun row => length row = 3%nat) tris ->
    mapM (fun t => first ← list_index t 0; Ok (t ++ [first])) tris = Ok closed ->
    closed = map (fun t => t ++ take 1 t) tris.
  Proof.
    revert closed. induction tris as [|t tris IH]; intros closed Hrows H; simpl in H.
    - now injection H as <-.
    - inversion Hrows as [|? ? Ht Htris]; subst.
      apply bind_Ok in H as (row & Hrow & H). apply bind_Ok in H as (rest & Hrest & H).
      injection H as <-. rewrite (IH _ Htris Hrest). simpl. f_equal.
      destruct t as [|a [|b [|c [|]]]]; try discriminate.
      unfold list_index in Hrow. simpl in Hrow. now injection Hrow as <-.
  Qed.

(** The stages of a successful call of [load_MED]. *)
Lemma load_MED_Ok (fs : filesystem) (filename : string) (name : option string)
          (r : loaded coord) :
    load_MED fs filename name = Ok r ->
    exists data coords vertices triangles quadrangles,
      importable "h5py" = true
      /\ fs filename = Some data
      /\ MED_last "/NOE/COO" (h5py_File data) = Some (h5_floats coords)
      /\ MED_table 3 coords = Ok vertices
      /\ MED_dataset "/MAI/TR3/NOD" 3 (h5py_File data) triangles
      /\ MED_dataset "/MAI/QU4/NOD" 4 (h5py_File data) quadrangles
      /\ r = PlainMesh (mkMesh vertices
                               (map (fun t => t ++ take 1 t) (np_sub1 triangles)
                                ++ np_sub1 quadrangles) None)
      /\ Forall (fun row => length row = 3%nat) vertices
      /\ Forall (fun row => length row = 3%nat) triangles
      /\ Forall (fun row => length row = 4%nat) quadrangles
      /\ Forall closed_triangle (map (fun t => t ++ take 1 t) (np_sub1 triangles)).
  Proof.
    unfold load_MED. intros H.
    apply bind_Ok in H as ([] & Himp & H).
    apply bind_Ok in H as ([] & _ & H). apply bind_Ok in H as (data & Hd & H).
    apply of_option_Ok in Hd.
    apply bind_Ok in H as (st & Hst & H).
    assert (Hinit : MED_inv (mkMED None [] [])) by (repeat split; constructor).
    pose proof (MED_items_inv _ _ _ Hinit Hst) as (Hv3 & Ht3 & Hq4).
    apply MED_items_last in Hst as (Hv & Ht & Hq). simpl in Hv, Ht, Hq.
    apply bind_Ok in H as (closed & Hclosed & H).
    apply bind_Ok in H as (vertices & Hvert & H). built H Hmesh. injection H as <-.
    apply of_option_Ok in Hvert. rewrite Hvert in Hv3. simpl in Hv3.
    apply (MED_close_rows _ _ Ht3) in Hclosed. subst closed.
    assert (Hnat : forall (A : Type) (c : nat) (t : list (list A)),
               Forall (fun row => Z.of_nat (length row) = Z.of_nat c) t ->
               Forall (fun row => length row = c) t).
    { intros A c t H. eapply Forall_impl; [exact H|]. simpl. lia. }
    assert (Hcoords : exists coords, MED_last "/NOE/COO" (h5py_File data)
                                     = Some (h5_floats coords)
                                     /\ MED_table 3 coords = Ok vertices).
    { destruct (MED_last "/NOE/COO" (h5py_File data)) as [d|]; [|congruence].
      destruct Hv as (l & v & -> & Hl & Hv). exists l. split; [reflexivity|]. congruence. }
    destruct Hcoords as (coords & Hcoords & Hvertices).
    assert (Htris : exists triangles,
               MED_dataset "/MAI/TR3/NOD" 3 (h5py_File data) triangles
               /\ med_triangles st = np_sub1 triangles
               /\ Forall (fun row => length row = 3%nat) triangles).
    { unfold MED_dataset. destruct (MED_last "/MAI/TR3/NOD" (h5py_File data)) as [d|].
      - destruct Ht as (l & t & -> & Hl & Ht). exists t. repeat split; try assumption.
        apply (Hnat _ 3%nat). exact (MED_table_rows 3 l t ltac:(lia) Hl).
      - exists []. repeat split; [assumption | constructor]. }
    destruct Htris as (triangles & Htris & Etris & Htris3).
    assert (Hquads : exists quadrangles,
               MED_dataset "/MAI/QU4/NOD" 4 (h5py_File data) quadrangles
               /\ med_quadrangles st = np_sub1 quadrangles
               /\ Forall (fun row => length row = 4%nat) quadrangles).
    { unfold MED_dataset. destruct (MED_last "/MAI/QU4/NOD" (h5py_File data)) as [d|].
      - destruct Hq as (l & q & -> & Hl & Hq). exists q. repeat split; try assumption.
        apply (Hnat _ 4%nat). exact (MED_table_rows 4 l q ltac:(lia) Hl).
      - exists []. repeat split; [assumption | constructor]. }
    destruct Hquads as (quadrangles & Hquads & Equads & Hquads4).
    exists data, coords, vertices, triangles, quadrangles.
    rewrite Etris, Equads.
    split; [now destruct (importable "h5py")|].
    repeat (split; [first [assumption | reflexivity]|]).
    apply Forall_fmap. rewrite Etris in Ht3.
    eapply Forall_impl; [exact Ht3|]. intros t Hlen. simpl.
    destruct t as [|a [|b [|c [|]]]]; try discriminate. split; reflexivity.
  Qed.

(** X13. When the MED loader returns, [h5py] is there and the result is a
    mesh without name, whatever name is given.  Its vertex table is the
    table of three columns read in the last dataset whose name holds
    [/NOE/COO].  Its face table holds first the rows of the last dataset
    named with [/MAI/TR3/NOD], minus one, each closed by repeating its
    first entry as fourth entry, then the rows of the last dataset named
    with [/MAI/QU4/NOD], minus one; a kind of face without dataset gives
    no row. *)
Theorem load_MED_faces (fs : filesystem) (filename : string) (name : option string)
          (r : loaded coord) :
    load_MED fs filename name = Ok r ->
    exists data coords vertices triangles quadrangles,
      importable "h5py" = true
      /\ fs filename = Some data
      /\ MED_last "/NOE/COO" (h5py_File data) = Some (h5_floats coords)
      /\ MED_table 3 coords = Ok vertices
      /\ MED_dataset "/MAI/TR3/NOD" 3 (h5py_File data) triangles
      /\ MED_dataset "/MAI/QU4/NOD" 4 (h5py_File data) quadrangles
      /\ r = PlainMesh (mkMesh vertices
                               (map (fun t => t ++ take 1 t) (np_sub1 triangles)
                                ++ np_sub1 quadrangles) None)
      /\ Forall (fun row => length row = 3%nat) vertices
      /\ Forall (fun row => length row = 3%nat) triangles
      /\ Forall (fun row => length row = 4%nat) quadrangles
      /\ Forall closed_triangle (map (fun t => t ++ take 1 t) (np_sub1 triangles)).
  Proof. exact (load_MED_Ok fs filename name r). Qed.

End SALOME.

(** ** Triangles in every loader *)

Section TriangleRows.
  Context `{RT : Runtime}.


End TriangleRows.

(** ** DIODORE data files *)

Section DataFiles.
  Context `{RT : Runtime}.

(** X14. The element sections of a DIODORE data file refer to the nodes by
    position: when the node numbers of the file are distinct and not
    negative, an element line that names the node standing at position [p]
    of the node lines (counting from 0) gives the entry [p + 1] in its
    row. *)
Theorem INP_read_positions (fs : filesystem) (filename file : string)
          (calls : INP_calls) (mf : mesh_file) (idx : Z) :
    INP_read fs filename file calls = Ok (mf, idx) ->
    exists data section0 nodes,
      fs (path_join (dirname filename) (file +:+ ".DAT")) = Some data
      /\ re_findall INP_node_section RE_MULTILINE data = [section0]
      /\ mapM INP_node (re_findall INP_node_line RE_MULTILINE section0) = Ok nodes
      /\ NODE_SECTION mf = map snd nodes
      /\ (Forall (fun n => 0 <= n) (map fst nodes) ->
          NoDup (map fst nodes) ->
          Forall2
            (fun elem_section rows =>
               Forall2
                 (fun line row =>
                    exists tokens,
                      mapM py_int (split_ws line) = Ok tokens
                      /\ forall j x p,
                           slice_from 1 tokens !! j = Some x ->
                           map fst nodes !! p = Some x ->
                           row !! j = Some (Z.of_nat p + 1))
                 (re_findall INP_elem_line RE_MULTILINE elem_section) rows)
            (re_findall INP_elem_section RE_MULTILINE data) (ELEM_SECTIONS mf)).
  Proof.
    intros H.
    apply INP_read_Ok in H
      as (data & section0 & nodes & top & id_new & Hd & Hs & Hn & Hnodes & _ & _ & Hre & Hsec).
    exists data, section0, nodes. repeat (split; [assumption|]).
    intros Hpos Hnd. apply mapM_Ok_Forall2 in Hsec.
    eapply Forall2_impl; [exact Hsec|]. intros elem_section rows Hrows. simpl in Hrows.
    apply mapM_Ok_Forall2 in Hrows.
    eapply Forall2_impl; [exact Hrows|]. intros line row Hrow. simpl in Hrow.
    apply INP_elem_Ok in Hrow as (tokens & refs & Htok & _ & _ & Hrefs & _).
    exists tokens. split; [exact Htok|]. intros j x p Hj Hp.
    destruct (Hrefs j x Hj) as (k & Hk & Hrow).
    assert (Hx : 0 <= x).
    { rewrite Forall_forall in Hpos. apply Hpos. now apply list_elem_of_lookup_2 in Hp. }
    apply np_index_nonneg in Hk as [-> _]; [|exact Hx].
    rewrite <- Hrow.
    rewrite (INP_renumber_position _ _ _ _ Hre Hpos Hnd p x Hp). reflexivity.
  Qed.

Lemma dict_get_In {V : Type} (k : string) (d : list (string * V)) (v : V) :
    dict_get k d = Some v -> In (k, v) d.
  Proof.
    induction d as [|[k' v'] d IH]; simpl; [discriminate|].
    destruct (String.eqb k k') eqn:E.
    - apply String.eqb_eq in E. intros [= <-]. left. now subst.
    - intros H. right. auto.
  Qed.

Lemma dict_set_keeps {V : Type} (k k' : string) (v : V) (d : list (string * V)) :
    is_Some (dict_get k' d) -> is_Some (dict_get k' (dict_set k v d)).
  Proof.
    intros H. destruct (String.eqb k k') eqn:E.
    - apply String.eqb_eq in E. subst. rewrite dict_get_set_eq. eauto.
    - apply String.eqb_neq in E. now rewrite dict_get_set_ne.
  Qed.

(** Every directive of the layout names a file of [mesh_files]. *)
Definition INP_named (files : list (string * INP_calls)) (field : gmap string string)
    : Prop :=
    exists file, field !! "INPUT" = Some file /\ is_Some (dict_get file files).

Lemma INP_layout_named matches layout files layout' files' :
    INP_layout matches layout files = Ok (layout', files') ->
    Forall (INP_named files) layout -> Forall (INP_named files') layout'.
  Proof.
    revert layout files; induction matches as [|m ms IH]; simpl; intros layout files H Hall.
    - now injection H as <- <-.
    - apply bind_Ok in H as (type & _ & H). apply bind_Ok in H as (g2 & _ & H).
      apply bind_Ok in H as (field_dict & _ & H).
      apply bind_Ok in H as (file & Hfile & H). apply of_option_Ok in Hfile.
      apply bind_Ok in H as (type' & _ & H).
      apply bind_Ok in H as (calls & _ & H).
      apply IH in H; [exact H|]. apply Forall_app. split.
      + eapply Forall_impl; [exact Hall|]. intros field (f & Hf & Hsome).
        exists f. split; [exact Hf|]. now apply dict_set_keeps.
      + constructor; [|constructor]. exists file. split; [exact Hfile|].
        rewrite dict_get_set_eq. eauto.
  Qed.

Lemma INP_read_all_each fs filename todo idx files idx' :
    INP_read_all fs filename todo idx = Ok (files, idx') ->
    forall file calls, In (file, calls) todo ->
      exists mf i, INP_read fs filename file calls = Ok (mf, i).
  Proof.
    revert idx files idx'. induction todo as [|[file0 calls0] todo IH];
      intros idx files idx' H file calls Hin; [destruct Hin|].
    simpl in H. apply bind_Ok in H as ([mf i] & Hread & H).
    apply bind_Ok in H as ([rest i'] & Hrest & H).
    destruct Hin as [[= <- <-]|Hin]; [eauto|].
    exact (IH _ _ _ Hrest file calls Hin).
  Qed.

Lemma INP_replay_all_each frames idx layout st st' :
    INP_replay_all frames idx layout st = Ok st' ->
    forall field, In field layout ->
      exists st1 st2, INP_replay frames idx field st1 = Ok st2.
  Proof.
    revert st. induction layout as [|field0 layout IH]; intros st H field Hin;
      [destruct Hin|].
    simpl in H. apply bind_Ok in H as (st1 & H1 & H).
    destruct Hin as [<-|Hin]; [eauto|]. exact (IH _ H field Hin).
  Qed.

Lemma INP_replay_frame frames idx field st st' :
    INP_is_node field = true ->
    INP_replay frames idx field st = Ok st' ->
    exists frame offset, field !! "FRAME" = Some frame /\ frames !! frame = Some offset.
  Proof.
    unfold INP_is_node, INP_replay. intros Hn H.
    apply bind_Ok in H as (file & _ & H).
    apply bind_Ok in H as (type & Htype & H). apply of_option_Ok in Htype.
    rewrite Htype in Hn. rewrite Hn in H.
    apply bind_Ok in H as (mf & _ & H). apply bind_Ok in H as (nodes & _ & H).
    apply bind_Ok in H as (frame & Hframe & H). apply of_option_Ok in Hframe.
    apply bind_Ok in H as (offset & Hoff & H). apply of_option_Ok in Hoff.
    eauto.
  Qed.

(** X15. A configuration loads only if what its directives refer to is
    there: every directive names a data file that stands beside the
    configuration, under the name of the [INPUT] option followed by
    [.DAT], and holds exactly one node section; every [*NODE] directive
    names, by its [FRAME] option, a frame the configuration declares. *)
Theorem load_INP_references (fs : filesystem) (filename : string)
          (name : option string) (r : loaded coord) :
    load_INP fs filename name = Ok r ->
    exists text frames layout files,
      fs filename = Some text
      /\ INP_frames (re_finditer INP_frame RE_MULTILINE text) ∅ = Ok frames
      /\ INP_layout (re_finditer INP_node_elements RE_MULTILINE text) [] []
         = Ok (layout, files)
      /\ forall field,
           In field layout ->
           (exists file data section0,
              field !! "INPUT" = Some file
              /\ fs (path_join (dirname filename) (file +:+ ".DAT")) = Some data
              /\ re_findall INP_node_section RE_MULTILINE data = [section0])
           /\ (INP_is_node field = true ->
               exists frame offset,
                 field !! "FRAME" = Some frame /\ frames !! frame = Some offset).
  Proof.
    intros H.
    apply load_INP_Ok in H
      as (text & frames & layout & files & mesh_files & idx & st & vertices & faces
          & Ht & Hf & Hl & Hr & Hs & _).
    exists text, frames, layout, files. repeat (split; [assumption|]).
    intros field Hin. split.
    - pose proof (INP_layout_named _ _ _ _ _ Hl ltac:(constructor)) as Hnamed.
      rewrite Forall_forall in Hnamed. apply list_elem_of_In in Hin.
      destruct (Hnamed field Hin) as (file & Hfile & [calls Hcalls]).
      apply dict_get_In in Hcalls.
      destruct (INP_read_all_each _ _ _ _ _ _ Hr file calls Hcalls) as (mf & i & Hread).
      apply INP_read_Ok in Hread as (data & section0 & _ & _ & _ & Hd & Hs0 & _).
      exists file, data, section0. auto.
    - intros Hn.
      destruct (INP_replay_all_each _ _ _ _ _ Hs field Hin) as (st1 & st2 & Hrep).
      exact (INP_replay_frame _ _ _ _ _ Hn Hrep).
  Qed.

Lemma np_index_lt (n : nat) (i : Z) (k : nat) : np_index n i = Ok k -> (k < n)%nat.
Proof.
  unfold np_index.
  destruct ((0 <=? i) && (i <? Z.of_nat n)) eqn:E.
  - intros [= <-]. apply andb_true_iff in E as [E1 E2].
    apply Z.leb_le in E1. apply Z.ltb_lt in E2. lia.
  - destruct ((- Z.of_nat n <=? i) && (i <? 0)) eqn:E'; [|discriminate].
    intros [= <-]. apply andb_true_iff in E' as [E1 E2].
    apply Z.leb_le in E1. apply Z.ltb_lt in E2. lia.
Qed.

(** The overwriting branch, with the row it writes: the single node of
    the data file, moved by the frame of the directive and broadcast to
    the width of the table. *)
Lemma INP_replay_overwrite_row frames idx field st st' :
    INP_is_node field = true ->
    INP_incrementing field = false ->
    nb_nodes st <> 0 ->
    INP_replay frames idx field st = Ok st' ->
    exists file mf node frame offset moved vertices i k row,
      field !! "INPUT" = Some file
      /\ dict_get file (inp_files st) = Some mf
      /\ NODE_SECTION mf = [node]
      /\ field !! "FRAME" = Some frame
      /\ frames !! frame = Some offset
      /\ np_iadd [node] offset = Ok [moved]
      /\ inp_vertices st = Some vertices
      /\ idx = Some i
      /\ np_index (length vertices) i = Ok k
      /\ broadcast_row (width vertices) moved = Ok row
      /\ inp_vertices st' = Some (<[k := row]> vertices).
  Proof.
    unfold INP_is_node, INP_incrementing, INP_replay. intros Hn Hi Hnb H.
    apply bind_Ok in H as (file & Hfile & H). apply of_option_Ok in Hfile.
    apply bind_Ok in H as (type & Htype & H). apply of_option_Ok in Htype.
    rewrite Htype in Hn. rewrite Hn in H.
    apply bind_Ok in H as (mf & Hmf & H). apply of_option_Ok in Hmf.
    apply bind_Ok in H as (nodes & Hnodes & H). apply np_array_Ok in Hnodes.
    apply bind_Ok in H as (frame & Hframe & H). apply of_option_Ok in Hframe.
    apply bind_Ok in H as (offset & Hoff & H). apply of_option_Ok in Hoff.
    apply bind_Ok in H as (nodes' & Hadd & H).
    pose proof (np_iadd_length _ _ _ Hadd) as Hlen.
    apply Z.eqb_neq in Hnb. rewrite Hnb in H.
    apply bind_Ok in H as (inc & Hinc & H). apply of_option_Ok in Hinc.
    rewrite Hinc in Hi. apply negb_false_iff in Hi. rewrite Hi in H.
    apply bind_Ok in H as (vertices & Hv & H). apply of_option_Ok in Hv.
    apply bind_Ok in H as (i & Hidx & H). apply of_option_Ok in Hidx.
    apply bind_Ok in H as (vertices' & Hset & H). injection H as <-.
    unfold np_set_row in Hset.
    apply bind_Ok in Hset as (k & Hk & Hset).
    destruct nodes' as [|moved [|]]; try discriminate.
    apply bind_Ok in Hset as (row & Hrow & Hset). injection Hset as <-.
    subst nodes. destruct (NODE_SECTION mf) as [|node [|]] eqn:Hsec; try discriminate.
    exists file, mf, node, frame, offset, moved, vertices, i, k, row. simpl.
    repeat split; auto.
  Qed.

(** X16. A later [*NODE] directive whose increment flag is off goes
    through only for a data file whose node section has one row.  It then
    writes one row of the vertex table, the one at the index the variable
    [idx] holds: the new row is the single node of the data file, moved by
    the frame the directive names and broadcast to the width of the table.
    The other rows, the face table, the counters and the data files stay
    as they are, and the increment flag is off. *)
Theorem INP_overwrite_one_row frames idx field st st' :
    INP_is_node field = true ->
    INP_incrementing field = false ->
    nb_nodes st <> 0 ->
    INP_replay frames idx field st = Ok st' ->
    exists file mf node frame offset moved vertices i k row,
      field !! "INPUT" = Some file
      /\ dict_get file (inp_files st) = Some mf
      /\ NODE_SECTION mf = [node]
      /\ field !! "FRAME" = Some frame
      /\ frames !! frame = Some offset
      /\ np_iadd [node] offset = Ok [moved]
      /\ inp_vertices st = Some vertices
      /\ idx = Some i
      /\ np_index (length vertices) i = Ok k
      /\ broadcast_row (width vertices) moved = Ok row
      /\ inp_vertices st' = Some (<[k := row]> vertices)
      /\ <[k := row]> vertices !! k = Some row
      /\ (forall p, p <> k -> <[k := row]> vertices !! p = vertices !! p)
      /\ inp_faces st' = inp_faces st
      /\ inp_files st' = inp_files st
      /\ nb_nodes st' = nb_nodes st
      /\ nb_elems st' = nb_elems st
      /\ inp_increment st' = Some false.
  Proof.
    intros Hn Hi Hnb H.
    destruct (INP_replay_overwrite_row _ _ _ _ _ Hn Hi Hnb H)
      as (file & mf & node & frame & offset & moved & vertices & i & k & row
          & Hfile & Hmf & Hone & Hframe & Hoff & Hadd & Hv & Hidx & Hk & Hrow & Hv').
    destruct (INP_replay_node _ _ _ _ _ Hn H)
      as (Hinc & Hfaces & Helems & Hfiles & file' & mf' & vertices' & _ & _ & _ & _ & Hnodes).
    exists file, mf, node, frame, offset, moved, vertices, i, k, row.
    repeat (split; [assumption|]).
    split; [apply list_lookup_insert_eq; exact (np_index_lt _ _ _ Hk)|].
    split; [intros p Hp; now apply list_lookup_insert_ne|].
    repeat (split; [assumption|]).
    apply Z.eqb_neq in Hnb. rewrite Hnb, Hi in Hnodes, Hinc. simpl in Hnodes, Hinc.
    repeat (split; [assumption|]). exact Hinc.
  Qed.
End DataFiles.

Section NemohVertices.
  Context `{RT : Runtime}.



End NemohVertices.

(** ** The options of a directive *)

(** The value the options give to a key: the value, stripped, of the last
    option [key=value] for this key. *)
Fixpoint INP_option (key : string) (opts : list string) : option string :=
  match opts with
  | [] => None
  | opt :: opts =>
      match INP_option key opts with
      | Some v => Some v
      | None =>
          match split_on "="%char opt with
          | [k; v] => if String.eqb k key then Some (strip v) else None
          | _ => None
          end
      end
  end.

Section Directives.
  Context `{RT : Runtime}.

Lemma INP_options_lookup (opts : list string) (d d' : gmap string string) (key : string) :
    INP_options opts d = Ok d' ->
    d' !! key = match INP_option key opts with
                | Some v => Some v
                | None => d !! key
                end.
  Proof.
    revert d. induction opts as [|opt opts IH]; intros d H; simpl in H.
    - now injection H as <-.
    - destruct (split_on "=" opt) as [|k [|v [|]]] eqn:Hopt; try discriminate.
      simpl. rewrite (IH _ H), Hopt.
      destruct (INP_option key opts); [reflexivity|].
      destruct (String.eqb k key) eqn:E.
      + apply String.eqb_eq in E. subst. apply lookup_insert_eq.
      + apply String.eqb_neq in E. now apply lookup_insert_ne.
  Qed.

(** What a directive [*type,options] becomes in the layout. *)
Definition INP_parsed (m : re_match) (field : gmap string string) : Prop :=
    exists type opts,
      group m 1 = Ok type
      /\ group m 2 = Ok opts
      /\ forall key,
           field !! key
           = match INP_option key (split_on ","%char opts) with
             | Some v => Some v
             | None =>
                 if String.eqb key "type" then Some type
                 else if String.eqb key "INCREMENT" && String.eqb type "NODE"
                      then Some "NO" else None
             end.

Lemma INP_layout_parsed matches layout files layout' files' :
    INP_layout matches layout files = Ok (layout', files') ->
    exists added, layout' = layout ++ added /\ Forall2 INP_parsed matches added.
  Proof.
    revert layout files; induction matches as [|m ms IH]; simpl; intros layout files H.
    - injection H as <- <-. exists []. split; [now rewrite app_nil_r | constructor].
    - apply bind_Ok in H as (type & Htype & H). apply bind_Ok in H as (g2 & Hg2 & H).
      apply bind_Ok in H as (field_dict & Hopts & H).
      apply bind_Ok in H as (file & _ & H). apply bind_Ok in H as (type' & _ & H).
      apply bind_Ok in H as (calls & _ & H).
      apply IH in H as (added & -> & Hadded).
      exists (field_dict :: added). split; [now rewrite <- app_assoc|].
      constructor; [|exact Hadded].
      exists type, g2. split; [exact Htype|]. split; [exact Hg2|].
      intros key. rewrite (INP_options_lookup _ _ _ key Hopts).
      destruct (INP_option key (split_on "," g2)); [reflexivity|].
      destruct (String.eqb key "type") eqn:Ekt.
      + apply String.eqb_eq in Ekt. subst key.
        destruct (String.eqb type "NODE").
        * rewrite lookup_insert_ne by discriminate. apply lookup_singleton_eq.
        * apply lookup_singleton_eq.
      + apply String.eqb_neq in Ekt.
        destruct (String.eqb type "NODE"); simpl.
        * destruct (String.eqb key "INCREMENT") eqn:Eki.
          -- apply String.eqb_eq in Eki. subst key. apply lookup_insert_eq.
          -- apply String.eqb_neq in Eki. rewrite lookup_insert_ne by congruence.
             apply lookup_singleton_ne. congruence.
        * rewrite andb_false_r. apply lookup_singleton_ne. congruence.
  Qed.

(** X18. The layout holds one field per directive of the configuration,
    in order.  A field maps a key to the stripped value of the last option
    [key=value] of the directive for this key; a key no option names is
    absent, but for [type], the directive name, and for [INCREMENT], which
    is [NO] on a [*NODE] directive. *)
Theorem INP_layout_fields (matches : list re_match) (layout : list (gmap string string))
          (files : list (string * INP_calls)) :
    INP_layout matches [] [] = Ok (layout, files) ->
    Forall2 INP_parsed matches layout.
  Proof.
    intros H. apply INP_layout_parsed in H as (added & -> & H). exact H.
  Qed.

End Directives.

(** ** Further loaders on concrete files *)

Definition triangle_mesh : loaded Q :=
  PlainMesh (mkMesh [pt 0 0 0; pt 1 0 0; pt 1 1 0] [[0; 1; 2; 0]] None).

Lemma registry_checks_file_witness :
  load_GDF (RT := reference) (disk []) "hull.gdf" (Some "hull")
  = Raise (IOError "file hull.gdf not found")
  /\ load_STL (RT := reference) (disk []) "hull.stl" (Some "hull")
     = Raise (ModuleNotFoundError "vtk")
  /\ load_MED (RT := reference) (disk []) "hull.med" (Some "hull")
     = Raise (ImportError h5py_missing).
Proof.
  split; [|split].
  - apply (registry_checks_file (RT := reference) (disk []) "hull.gdf" (Some "hull")
             "gdf" load_GDF); [reflexivity | reflexivity |].
    intros [E|[E|[E|[E|[E|[]]]]]]; discriminate E.
  - apply (registry_checks_file (RT := reference) (disk []) "hull.stl" (Some "hull")
             "stl" load_STL); reflexivity.
  - apply (registry_checks_file (RT := reference) (disk []) "hull.med" (Some "hull")
             "med" load_MED); [reflexivity | reflexivity |]. simpl. tauto.
Defined.

Lemma load_DAT_not_implemented_witness :
  load_DAT (RT := reference) (disk [("d/A.dat", DAT_1_2_3)]) "d/A.dat" None
  = Raise NotImplementedError
  /\ load_mesh (RT := reference) (disk [("d/A.dat", DAT_1_2_3)]) "d/A.dat"
               (Some "diodore-dat") None
     = Raise NotImplementedError
  /\ load_mesh (RT := reference) (disk [("d/A.dat", DAT_1_2_3)]) "d/A.dat" None None
     = load_MAR (RT := reference) (disk [("d/A.dat", DAT_1_2_3)]) "d/A.dat" None.
Proof.
  destruct (load_DAT_not_implemented (RT := reference) (disk [("d/A.dat", DAT_1_2_3)])
              "d/A.dat" DAT_1_2_3 None eq_refl) as (Hd & Hk & Hext).
  split; [exact Hd|]. split; [exact Hk|]. exact (Hext "d/A" eq_refl eq_refl).
Defined.

Definition NAT_triangle : string :=
  text_of ["0 0"; "3 1"; "0.0 0.0 0.0"; "1.0 0.0 0.0"; "1.0 1.0 0.0"; "1 2 3 1"].
Definition NAT_triangle_between : string :=
  text_of ["1 1 not read"; "3 1"; "0.0 0.0 0.0"; "1.0 0.0 0.0"; "1.0 1.0 0.0"; "1 2 3 1";
           "not read either"].

Lemma load_NAT_lines_read_witness :
  load_NAT (RT := reference) (disk [("t.nat", NAT_triangle)]) "t.nat" None
  = load_NAT (RT := reference) (disk [("t.nat", NAT_triangle_between)]) "t.nat" None.
Proof.
  apply (load_NAT_lines_read (RT := reference) _ _ "t.nat" NAT_triangle
           NAT_triangle_between None 3 1);
    [reflexivity | reflexivity | vm_compute; reflexivity |].
  intros i Hi.
  do 6 (destruct i as [|i]; [first [lia | vm_compute; reflexivity]|]). lia.
Defined.

Definition NEM_triangle : string :=
  text_of ["3"; "1"; "0.0 0.0 0.0"; "1.0 0.0 0.0"; "1.0 1.0 0.0"; "1 2 3 1"].
Definition NEM_triangle_and_more : string :=
  text_of ["3"; "1"; "0.0 0.0 0.0"; "1.0 0.0 0.0"; "1.0 1.0 0.0"; "1 2 3 1"; "not read"].

Lemma load_NEM_lines_read_witness :
  load_NEM (RT := reference) (disk [("t.nem", NEM_triangle)]) "t.nem" None
  = load_NEM (RT := reference) (disk [("t.nem", NEM_triangle_and_more)]) "t.nem" None.
Proof.
  apply (load_NEM_lines_read (RT := reference) _ _ "t.nem" NEM_triangle
           NEM_triangle_and_more None 3 1);
    [reflexivity | reflexivity | vm_compute; reflexivity | vm_compute; reflexivity |].
  intros i Hi.
  do 6 (destruct i as [|i]; [first [lia | vm_compute; reflexivity]|]). lia.
Defined.

Lemma declared_counts_witness :
  exists data nv nf,
    disk [("t.nem", NEM_triangle)] "t.nem" = Some data
    /\ py_int (line_at (open_lines data) 0) = Ok nv
    /\ py_int (line_at (open_lines data) 1) = Ok nf
    /\ length (loaded_vertices triangle_mesh) = Z.to_nat nv
    /\ length (loaded_faces triangle_mesh) = Z.to_nat nf
    /\ forall i row, loaded_vertices triangle_mesh !! i = Some row ->
         mapM (py_float (RT := reference)) (split_ws (line_at (open_lines data) (2 + i)))
         = Ok row.
Proof.
  assert (H : load_NEM (RT := reference) (disk [("t.nem", NEM_triangle)]) "t.nem" None
              = Ok triangle_mesh) by (vm_compute; reflexivity).
  exact (proj2 (declared_counts (RT := reference) _ "t.nem" None) _ H).
Defined.

Definition TEC_square : string :=
  text_of ["ZONE N=4, E=1, F=FEPOINT, ET=QUADRILATERAL";
           "0.0 0.0 0.0"; "1.0 0.0 0.0"; "1.0 1.0 0.0"; "0.0 1.0 0.0";
           "1 2 3 4"].
Definition square_mesh : loaded Q :=
  PlainMesh (mkMesh [pt 0 0 0; pt 1 0 0; pt 1 1 0; pt 0 1 0] [[0; 1; 2; 3]] None).

Lemma load_TEC_shape_witness :
  exists data m nv nf vertices faces N E vs ints (c : nat),
    disk [("sq.tec", TEC_square)] "sq.tec" = Some data
    /\ re_search (RT := reference) TEC_data_pattern RE_MULTILINE data = Some m
    /\ groups m = [nv; nf; vertices; faces]
    /\ py_int nv = Ok N /\ py_int nf = Ok E
    /\ mapM (py_float (RT := reference)) (split_ws vertices) = Ok vs
    /\ mapM py_int (split_ws faces) = Ok ints
    /\ 0 < N
    /\ Z.of_nat (length (loaded_vertices square_mesh)) = N
    /\ (length (loaded_vertices square_mesh) * c = length vs)%nat
    /\ (forall i row, loaded_vertices square_mesh !! i = Some row ->
                      row = take 3 (take c (drop (i * c) vs)))
    /\ (length ints = 4 * length (loaded_faces square_mesh))%nat
    /\ (0 <= E -> Z.of_nat (length (loaded_faces square_mesh)) = E)
    /\ Forall (fun row => length row = 4%nat) (loaded_faces square_mesh).
Proof.
  assert (H : load_TEC (RT := reference) (disk [("sq.tec", TEC_square)]) "sq.tec" None
              = Ok square_mesh) by (vm_compute; reflexivity).
  exact (load_TEC_shape (RT := reference) _ "sq.tec" None _ H).
Defined.

Definition MSH_square : string :=
  text_of ["$Nodes"; "4"; "1 0.0 0.0 0.0"; "2 1.0 0.0 0.0"; "3 1.0 1.0 0.0";
           "4 0.0 1.0 0.0"; "$EndNodes";
           "$Elements"; "2"; "1 2 2 0 1 1 2 3"; "2 3 2 0 1 1 2 3 4"; "$EndElements"].
Definition MSH_square_mesh : loaded Q :=
  PlainMesh (mkMesh [pt 0 0 0; pt 1 0 0; pt 1 1 0; pt 0 1 0]
                    [[0; 1; 2; 0]; [0; 1; 2; 3]] None).

Lemma load_MSH_vertices_witness :
  exists data m nb_nodes nodes_data vs,
    disk [("sq.msh", MSH_square)] "sq.msh" = Some data
    /\ re_search (RT := reference) MSH_nodes RE_DOTALL data = Some m
    /\ groups m = [nb_nodes; nodes_data]
    /\ mapM (py_float (RT := reference)) (split_ws nodes_data) = Ok vs
    /\ (length vs = 4 * length (loaded_vertices MSH_square_mesh))%nat
    /\ forall i row, loaded_vertices MSH_square_mesh !! i = Some row ->
         row = take 3 (drop (4 * i + 1) vs) /\ length row = 3%nat.
Proof.
  assert (H : load_MSH (RT := reference) (disk [("sq.msh", MSH_square)]) "sq.msh" None
              = Ok MSH_square_mesh) by (vm_compute; reflexivity).
  exact (load_MSH_vertices (RT := reference) _ "sq.msh" None _ H).
Defined.


Definition HST_triangle : string :=
  text_of [" 1 0.0 0.0 0.0"; " 2 1.0 0.0 0.0"; " 3 1.0 1.0 0.0"; " 1 2 3 1"].

Lemma load_HST_first_section_only_witness :
  exists data,
    disk [("t.hst", HST_triangle)] "t.hst" = Some data
    /\ (forall i s,
          re_findall (RT := reference) HST_node_section RE_MULTILINE data !! S i = Some s ->
          re_findall (RT := reference) HST_node_line RE_MULTILINE s = [])
    /\ (forall i s,
          re_findall (RT := reference) HST_elem_section RE_MULTILINE data !! S i = Some s ->
          re_findall (RT := reference) HST_elem_line RE_MULTILINE s = []).
Proof.
  assert (H : load_HST (RT := reference) (disk [("t.hst", HST_triangle)]) "t.hst" None
              = Ok triangle_mesh) by (vm_compute; reflexivity).
  exact (load_HST_first_section_only (RT := reference) _ "t.hst" None _ H).
Defined.

(** A runtime whose libraries find a triangle and a quadrangle in every
    file. *)
Definition sample_vtk : vtk_data Q :=
  mkVtk [pt 0 0 0; pt 1 0 0; pt 1 1 0; pt 0 1 0] [[0; 1; 2]; [0; 1; 2; 3]].
Definition sample_h5 : list (string * h5_dataset Q) :=
  [("ENS_MAA/mesh/NOE/COO",
    h5_floats (map inject_Z [0; 1; 1; 0;  0; 0; 1; 1;  0; 0; 0; 0]));
   ("ENS_MAA/mesh/MAI/TR3/NOD", h5_ints [1; 2; 3]);
   ("ENS_MAA/mesh/MAI/QU4/NOD", h5_ints [1; 2; 3; 4])].
Definition with_libraries : Runtime := {|
  coord := Q;
  float_of_string := Dec.float_of_string;
  fadd := fun x y => Qred (x + y);
  fzero := 0%Q;
  re_finditer := Re.finditer;
  vtk_read := fun _ _ => sample_vtk;
  merge_duplicate_rows := fun rows => (rows, map Z.of_nat (seq 0 (length rows)));
  h5py_File := fun _ => sample_h5;
  importable := fun _ => true;
  Mesh_asserts := Mesh_strict;
  Mesh_asserts_faces := Mesh_strict_faces
|}.

Lemma dump_vtk_shape_witness :
  length [pt 0 0 0; pt 1 0 0; pt 1 1 0; pt 0 1 0]
  = length (vtk_points sample_vtk)
  /\ Forall (fun row => length row = 3%nat) [pt 0 0 0; pt 1 0 0; pt 1 1 0; pt 0 1 0]
  /\ Forall2 VTK_row (vtk_cells sample_vtk) [[0; 1; 2; 0]; [0; 1; 2; 3]].
Proof.
  apply (proj1 (dump_vtk_shape (RT := reference) sample_vtk)). reflexivity.
Defined.

Definition sample_mesh (name : option string) : loaded Q :=
  PlainMesh (mkMesh [pt 0 0 0; pt 1 0 0; pt 1 1 0; pt 0 1 0]
                    [[0; 1; 2; 0]; [0; 1; 2; 3]] name).

Definition STL_mesh : loaded Q :=
  PlainMesh (mkMesh [pt 0 0 0; pt 1 0 0; pt 1 1 0; pt 0 1 0]
                    [[0; 1; 2; 0]; [0; 1; 2; 0]] (Some "hull")).

Lemma load_STL_closed_witness :
  exists data points,
    disk [("hull.stl", "solid")] "hull.stl" = Some data
    /\ mapM (broadcast_row 3)
            (vtk_points (vtk_read (Runtime := with_libraries) vtkSTLReader data))
       = Ok points
    /\ loaded_vertices STL_mesh
       = (merge_duplicate_rows (Runtime := with_libraries) points).1
    /\ length (loaded_faces STL_mesh)
       = length (vtk_cells (vtk_read (Runtime := with_libraries) vtkSTLReader data))
    /\ Forall (fun row =>
                 closed_triangle row
                 /\ Forall (fun x => In x (merge_duplicate_rows
                                             (Runtime := with_libraries) points).2) row)
              (loaded_faces STL_mesh).
Proof.
  assert (H : load_STL (RT := with_libraries) (disk [("hull.stl", "solid")]) "hull.stl"
                       (Some "hull")
              = Ok STL_mesh) by (vm_compute; reflexivity).
  exact (load_STL_closed (RT := with_libraries) _ "hull.stl" (Some "hull") _ H).
Defined.


Lemma load_MED_faces_witness :
  load_MED (RT := with_libraries) (disk [("a.med", "hdf5")]) "a.med" (Some "hull")
  = Ok (sample_mesh None)
  /\ exists data coords vertices triangles quadrangles,
       importable (Runtime := with_libraries) "h5py" = true
       /\ disk [("a.med", "hdf5")] "a.med" = Some data
       /\ MED_last (RT := with_libraries) "/NOE/COO" (h5py_File data)
          = Some (h5_floats coords)
       /\ MED_table 3 coords = Ok vertices
       /\ MED_dataset (RT := with_libraries) "/MAI/TR3/NOD" 3 (h5py_File data) triangles
       /\ MED_dataset (RT := with_libraries) "/MAI/QU4/NOD" 4 (h5py_File data) quadrangles
       /\ sample_mesh None
          = PlainMesh (mkMesh vertices
                              (map (fun t => t ++ take 1 t) (np_sub1 triangles)
                               ++ np_sub1 quadrangles) None)
       /\ Forall (fun row => length row = 3%nat) vertices
       /\ Forall (fun row => length row = 3%nat) triangles
       /\ Forall (fun row => length row = 4%nat) quadrangles
       /\ Forall closed_triangle (map (fun t => t ++ take 1 t) (np_sub1 triangles)).
Proof.
  assert (H : load_MED (RT := with_libraries) (disk [("a.med", "hdf5")]) "a.med"
                       (Some "hull")
              = Ok (sample_mesh None)) by (vm_compute; reflexivity).
  split; [exact H|].
  exact (load_MED_faces (RT := with_libraries) _ "a.med" (Some "hull") _ H).
Defined.

Lemma INP_read_positions_witness :
  exists mf idx data section0 nodes,
    INP_read (RT := reference) (INP_disk INP_node_element DAT_10_20_30) "d/c.inp" "A"
             (mkCalls 1 1) = Ok (mf, idx)
    /\ INP_disk INP_node_element DAT_10_20_30
                (path_join (dirname "d/c.inp") ("A" +:+ ".DAT")) = Some data
    /\ re_findall (RT := reference) INP_node_section RE_MULTILINE data = [section0]
    /\ mapM (INP_node (RT := reference))
            (re_findall (RT := reference) INP_node_line RE_MULTILINE section0) = Ok nodes
    /\ NODE_SECTION mf = map snd nodes
    /\ (Forall (fun n => 0 <= n) (map fst nodes) ->
        NoDup (map fst nodes) ->
        Forall2
          (fun elem_section rows =>
             Forall2
               (fun line row =>
                  exists tokens,
                    mapM py_int (split_ws line) = Ok tokens
                    /\ forall j x p,
                         slice_from 1 tokens !! j = Some x ->
                         map fst nodes !! p = Some x ->
                         row !! j = Some (Z.of_nat p + 1))
               (re_findall (RT := reference) INP_elem_line RE_MULTILINE elem_section) rows)
          (re_findall (RT := reference) INP_elem_section RE_MULTILINE data)
          (ELEM_SECTIONS mf)).
Proof.
  assert (H : exists mf idx,
             INP_read (RT := reference) (INP_disk INP_node_element DAT_10_20_30)
                      "d/c.inp" "A" (mkCalls 1 1) = Ok (mf, idx))
    by (eexists _, _; by_evaluation).
  destruct H as (mf & idx & H). exists mf, idx.
  destruct (INP_read_positions (RT := reference) _ _ _ _ _ _ H)
    as (data & section0 & nodes & Hrest).
  exists data, section0, nodes. split; [exact H | exact Hrest].
Defined.

Definition OVR_frames : gmap string (list Q) := {[ "F" := pt 0 0 1 ]}.
Definition OVR_file : @mesh_file reference := mkMeshFile (mkCalls 2 0) [pt 5 5 5] [] 0 0.

Definition OVR_before : @INP_state reference :=
  mkINP (Some [pt 0 0 0; pt 1 0 0]) None (Some false) 2 0 [("A", OVR_file)].
Definition OVR_after : @INP_state reference :=
  mkINP (Some [pt 5 5 6; pt 1 0 0]) None (Some false) 2 0 [("A", OVR_file)].

Lemma INP_overwrite_one_row_witness :
  INP_replay (RT := reference) OVR_frames (Some 0) RR_node OVR_before = Ok OVR_after
  /\ exists file mf node frame offset moved vertices i k row,
       RR_node !! "INPUT" = Some file
       /\ dict_get file (inp_files OVR_before) = Some mf
       /\ NODE_SECTION mf = [node]
       /\ RR_node !! "FRAME" = Some frame
       /\ OVR_frames !! frame = Some offset
       /\ np_iadd (RT := reference) [node] offset = Ok [moved]
       /\ inp_vertices OVR_before = Some vertices
       /\ Some 0 = Some i
       /\ np_index (length vertices) i = Ok k
       /\ broadcast_row (width vertices) moved = Ok row
       /\ inp_vertices OVR_after = Some (<[k := row]> vertices)
       /\ <[k := row]> vertices !! k = Some row
       /\ (forall p, p <> k -> <[k := row]> vertices !! p = vertices !! p)
       /\ inp_faces OVR_after = inp_faces OVR_before
       /\ inp_files OVR_after = inp_files OVR_before
       /\ nb_nodes OVR_after = nb_nodes OVR_before
       /\ nb_elems OVR_after = nb_elems OVR_before
       /\ inp_increment OVR_after = Some false.
Proof.
  assert (H : INP_replay (RT := reference) OVR_frames (Some 0) RR_node OVR_before
              = Ok OVR_after) by by_evaluation.
  assert (Hn : INP_is_node RR_node = true) by (vm_compute; reflexivity).
  assert (Hi : INP_incrementing RR_node = false) by (vm_compute; reflexivity).
  assert (Hnb : nb_nodes OVR_before <> 0) by discriminate.
  split; [exact H|].
  exact (INP_overwrite_one_row (RT := reference) _ _ _ _ _ Hn Hi Hnb H).
Defined.

Lemma load_INP_references_witness :
  exists text frames layout files,
    INP_disk INP_node_element DAT_10_20_30 "d/c.inp" = Some text
    /\ INP_frames (re_finditer (Runtime := reference) INP_frame RE_MULTILINE text) ∅
       = Ok frames
    /\ INP_layout (re_finditer (Runtime := reference) INP_node_elements RE_MULTILINE text)
                  [] []
       = Ok (layout, files)
    /\ forall field,
         In field layout ->
         (exists file data section0,
            field !! "INPUT" = Some file
            /\ INP_disk INP_node_element DAT_10_20_30
                        (path_join (dirname "d/c.inp") (file +:+ ".DAT")) = Some data
            /\ re_findall (RT := reference) INP_node_section RE_MULTILINE data = [section0])
         /\ (INP_is_node field = true ->
             exists frame offset,
               field !! "FRAME" = Some frame /\ frames !! frame = Some offset).
Proof.
  assert (H : load_INP (RT := reference) (INP_disk INP_node_element DAT_10_20_30)
                       "d/c.inp" None
              = Ok (PlainMesh (mkMesh [pt 0 0 1; pt 1 0 1; pt 1 1 1]
                                      [[0; 1; 2; 0]; [0; 1; 2; 0]] None)))
    by (vm_compute; reflexivity).
  exact (load_INP_references (RT := reference) _ "d/c.inp" None _ H).
Defined.

Lemma load_mesh_infers_extension_witness :
  resolve_format "d/two.gdf" None = "gdf"
  /\ load_mesh (RT := reference) (disk [("d/two.gdf", GDF_two_faces)]) "d/two.gdf" None None
     = load_GDF (RT := reference) (disk [("d/two.gdf", GDF_two_faces)]) "d/two.gdf" None.
Proof.
  exact (load_mesh_infers_extension (RT := reference)
           (disk [("d/two.gdf", GDF_two_faces)]) "d/two" "gdf" GDF_two_faces None load_GDF
           eq_refl eq_refl eq_refl eq_refl eq_refl).
Defined.


Lemma INP_layout_fields_witness :
  exists layout files,
    INP_layout (re_finditer (Runtime := reference) INP_node_elements RE_MULTILINE
                            INP_node_element) [] []
    = Ok (layout, files)
    /\ Forall2 INP_parsed
               (re_finditer (Runtime := reference) INP_node_elements RE_MULTILINE
                            INP_node_element)
               layout.
Proof.
  assert (H : exists layout files,
             INP_layout (re_finditer (Runtime := reference) INP_node_elements RE_MULTILINE
                                     INP_node_element) [] []
             = Ok (layout, files)) by (eexists _, _; by_evaluation).
  destruct H as (layout & files & H). exists layout, files.
  split; [exact H|]. exact (INP_layout_fields _ _ _ H).
Defined.
